(** * The DDS device bridge: topic roots, profile matching, the broadcaster's
      device-handle map and the client handshake.

    A shallow embedding of
    - [dds-device-broadcaster.cpp]  (the broadcaster),
    - [rs-dds-server.cpp]           (the server's [get_topic_root]),
    - [lrs-device-controller.cpp]   (profile matching and [start_streaming]),
    - [dds-device-impl.cpp] and [dds-device-impl.h] (the client handshake),
    with the properties of the specification stated and settled over it.

    Conventions.  A [std::string] is a [string]; a [std::map] keyed by strings
    is a [gmap string _]; a [shared_ptr] that may be null is an [option]; a
    function that may throw returns a [result], and where the state mutated
    before the throw matters the state is returned next to it. *)

From Stdlib Require Import ZArith Lia Bool.
From Stdlib Require Import Ascii String.
From stdpp Require Import base option list sorting gmap strings.

Local Open Scope string_scope.

(** ** Exceptions *)

(** What a C++ call that may throw yields: its value, or the exception. *)
Inductive result (E A : Type) : Type :=
| Ok (a : A)
| Throw (e : E).
Arguments Ok {E A} a.
Arguments Throw {E A} e.

(** ** std::string helpers *)

Module StdString.

(** The characters of [s] from position [n] on; the whole tail is empty
    when [n] reaches the end. *)
Fixpoint drop_front (n : nat) (s : string) : string :=
  match n, s with
  | O, _ => s
  | S _, EmptyString => EmptyString
  | S n', String _ s' => drop_front n' s'
  end.

(** [s.substr( pos )]: throws [std::out_of_range] when [pos > s.size()]. *)
Definition substr (s : string) (pos : nat) : option string :=
  if decide (pos <= String.length s) then Some (drop_front pos s) else None.

(** [s.erase( 0, n )] *)
Definition erase_front (s : string) (n : nat) : string := drop_front n s.

Definition is_nul (c : ascii) : bool := Ascii.eqb c Ascii.zero.

(** [0 == strncmp( a, b, n )] on the NUL-terminated buffers of [a] and [b]:
    at most [n] characters are compared and the comparison stops after a
    NUL that both have.  The end of a [string] is its terminator. *)
Fixpoint strncmp_eq (a b : string) (n : nat) : bool :=
  match n with
  | O => true
  | S n' =>
      match a, b with
      | EmptyString, EmptyString => true
      | EmptyString, String d _ => is_nul d
      | String c _, EmptyString => is_nul c
      | String c a', String d b' =>
          if Ascii.eqb c d
          then (if is_nul c then true else strncmp_eq a' b' n')
          else false
      end
  end.

(** No character of [p] is NUL. *)
Fixpoint no_nul (p : string) : bool :=
  match p with
  | EmptyString => true
  | String c p' => negb (is_nul c) && no_nul p'
  end.

End StdString.

(** ** Topic roots *)

Module TopicRoot.
Import StdString.

Definition RS_ROOT : string := "realsense/".
Definition DEVICE_NAME_PREFIX : string := "Intel RealSense ".

(** [dds_device_broadcaster::get_topic_root]: the first
    [DEVICE_NAME_PREFIX.length()] characters are dropped whatever they are;
    [None] is the [std::out_of_range] of [substr]. *)
Module Broadcaster.
Definition get_topic_root (dev_name dev_sn : string) : option string :=
  let rs_device_name_prefix := DEVICE_NAME_PREFIX in
  model_name ← substr dev_name (String.length rs_device_name_prefix);
  Some (RS_ROOT +:+ model_name +:+ "/" +:+ dev_sn).
End Broadcaster.

(** [get_topic_root] of rs-dds-server.cpp, on the [name] and [serial]
    fields of the [device_info]. *)
Module Server.
Definition DEVICE_NAME_PREFIX_CCH : nat := 16.

Definition get_topic_root (name serial : string) : string :=
  let model_name := name in
  let model_name :=
    if (DEVICE_NAME_PREFIX_CCH <? String.length model_name)%nat
       && strncmp_eq model_name DEVICE_NAME_PREFIX DEVICE_NAME_PREFIX_CCH
    then erase_front model_name DEVICE_NAME_PREFIX_CCH
    else model_name in
  RS_ROOT +:+ model_name +:+ "/" +:+ serial.
End Server.

(** Following the words of the specification:
    [strip_prefix(name, "Intel RealSense ")]. *)
Definition spec_strip_prefix (name : string) : string :=
  if String.prefix DEVICE_NAME_PREFIX name
  then drop_front (String.length DEVICE_NAME_PREFIX) name
  else name.

Definition spec_topic_root (name serial : string) : string :=
  RS_ROOT +:+ spec_strip_prefix name +:+ "/" +:+ serial.

End TopicRoot.

(** ** Stream profiles *)

Module Profiles.

(** [dds_video_stream_profile( frequency, format, width, height )] and
    [dds_motion_stream_profile( frequency, format )].  A format is its
    encoding string. *)
Inductive dds_stream_profile : Type :=
| dds_video_stream_profile (frequency : Z) (format : string) (width height : Z)
| dds_motion_stream_profile (frequency : Z) (format : string).

Definition frequency (p : dds_stream_profile) : Z :=
  match p with
  | dds_video_stream_profile f _ _ _ => f
  | dds_motion_stream_profile f _ => f
  end.

Definition format (p : dds_stream_profile) : string :=
  match p with
  | dds_video_stream_profile _ fmt _ _ => fmt
  | dds_motion_stream_profile _ fmt => fmt
  end.

(** [std::dynamic_pointer_cast< dds_video_stream_profile >]: the width and
    height when the profile is a video profile, null otherwise. *)
Definition as_video (p : dds_stream_profile) : option (Z * Z) :=
  match p with
  | dds_video_stream_profile _ _ w h => Some (w, h)
  | dds_motion_stream_profile _ _ => None
  end.

Definition is_video (p : dds_stream_profile) : bool :=
  match as_video p with Some _ => true | None => false end.

Definition width (p : dds_stream_profile) : option Z := fst <$> as_video p.
Definition height (p : dds_stream_profile) : option Z := snd <$> as_video p.

Definition profiles_are_compatible
    (p1 p2 : dds_stream_profile) (any_format : bool) : bool :=
  let vp1 := as_video p1 in
  let vp2 := as_video p2 in
  if negb (Bool.eqb (bool_decide (is_Some vp1)) (bool_decide (is_Some vp2)))
  then false (* types aren't the same *)
  else if match vp1, vp2 with
          | Some (w1, h1), Some (w2, h2) =>
              negb (w1 =? w2)%Z || negb (h1 =? h2)%Z
          | _, _ => false
          end
  then false
  else if negb any_format && negb (String.eqb (format p1) (format p2))
  then false
  else (frequency p1 =? frequency p2)%Z.

(** [find_profile]: the first profile of the stream compatible with the
    requested one, or null. *)
Definition find_profile (stream_profiles : list dds_stream_profile)
    (profile : dds_stream_profile) (any_format : bool)
  : option dds_stream_profile :=
  List.find (fun sp => profiles_are_compatible sp profile any_format)
            stream_profiles.

End Profiles.

(** ** The broadcaster (dds-device-broadcaster.cpp) *)

Module Broadcaster.

(** What the broadcaster reads of an [rs2::device] through [get_info]. *)
Record rs2_device : Type := {
  RS2_CAMERA_INFO_NAME : string;
  RS2_CAMERA_INFO_SERIAL_NUMBER : string;
  RS2_CAMERA_INFO_PRODUCT_LINE : string;
  RS2_CAMERA_INFO_CAMERA_LOCKED : string;
}.

Record device_info : Type := {
  name : string;
  serial : string;
  product_line : string;
  locked : bool;
  topic_root : string;
}.

(** A [DataWriter *] that is not null, and a reader of the bus. *)
Definition writer : Type := nat.
Definition reader : Type := nat.

Inductive ReturnCode_t : Type :=
| RETCODE_OK
| RETCODE_ERROR
| RETCODE_PRECONDITION_NOT_MET.

Definition is_RETCODE_OK (r : ReturnCode_t) : bool :=
  match r with RETCODE_OK => true | _ => false end.

(** The ways a task stops early: the [std::out_of_range] of [substr], the
    error of [get_info] on an empty [rs2::device], and the dereference of a
    null pointer (undefined behaviour; the task does not continue). *)
Inductive fault : Type :=
| out_of_range
| rs2_error
| null_dereference.

Record dds_client_listener : Type := {
  _new_reader_joined : bool;
}.

Record dds_device_handle : Type := {
  device : option rs2_device;
  data_writer : option writer;
  listener : option dds_client_listener;
}.

(** The value [std::map::operator[]] inserts for a missing key. *)
Definition default_handle : dds_device_handle :=
  {| device := None; data_writer := None; listener := None |}.

(** The calls into the publisher and its writers, whose outcome the
    broadcaster does not decide: the writer [create_datawriter] returns for
    the listener made for a key ([None] is [nullptr]), the code
    [delete_datawriter] returns, and whether [write] accepts a sample. *)
Record publisher : Type := {
  create_datawriter : string -> option writer;
  delete_datawriter : option writer -> ReturnCode_t;
  write : writer -> bool;
}.

(** Modelled from the spec: the bus itself (Fast-DDS) is outside the
    repository.  Writers are reliable and volatile (section 4.C): a sample
    written on a writer reaches the readers matched with that writer at the
    time of the write, and no reader that matches later.  [matched] lists
    the (writer, reader) pairs, [written] the samples the writers accepted
    and [inbox] the samples each reader received, oldest first. *)
Record bus : Type := {
  matched : list (writer * reader);
  written : list (writer * device_info);
  inbox : list (reader * device_info);
}.

Definition readers_of (w : writer) (net : bus) : list reader :=
  snd <$> List.filter (fun wr => bool_decide (wr.1 = w)) (matched net).

Definition deliver (w : writer) (msg : device_info) (net : bus) : bus :=
  {| matched := matched net;
     written := written net ++ [(w, msg)];
     inbox := inbox net ++ ((fun r => (r, msg)) <$> readers_of w net) |}.

Definition match_reader (w : writer) (r : reader) (net : bus) : bus :=
  {| matched := if bool_decide ((w, r) ∈ matched net)
                then matched net else matched net ++ [(w, r)];
     written := written net;
     inbox := inbox net |}.

Definition unmatch_writer (w : writer) (net : bus) : bus :=
  {| matched := List.filter (fun wr => bool_decide (wr.1 ≠ w)) (matched net);
     written := written net;
     inbox := inbox net |}.

(** The number of device-info records with serial [sn] that reader [r]
    has received. *)
Definition records_of (r : reader) (sn : string) (net : bus) : nat :=
  length (List.filter (fun rm => bool_decide (rm.1 = r ∧ serial rm.2 = sn))
                 (inbox net)).

Record dds_device_broadcaster : Type := {
  _active : bool;
  _trigger_msg_send : bool;
  _device_handle_by_sn : gmap string dds_device_handle;
}.

(** The broadcaster as constructed, and after [run()]. *)
Definition constructed : dds_device_broadcaster :=
  {| _active := false; _trigger_msg_send := false; _device_handle_by_sn := ∅ |}.

Definition run (b : dds_device_broadcaster) : dds_device_broadcaster :=
  {| _active := true;
     _trigger_msg_send := _trigger_msg_send b;
     _device_handle_by_sn := _device_handle_by_sn b |}.

Definition set_handles (m : gmap string dds_device_handle)
    (b : dds_device_broadcaster) : dds_device_broadcaster :=
  {| _active := _active b;
     _trigger_msg_send := _trigger_msg_send b;
     _device_handle_by_sn := m |}.

Definition set_trigger (t : bool)
    (b : dds_device_broadcaster) : dds_device_broadcaster :=
  {| _active := _active b;
     _trigger_msg_send := t;
     _device_handle_by_sn := _device_handle_by_sn b |}.

(** [m[k]]: the handle stored under [k], default-inserted when missing. *)
Definition index (k : string) (m : gmap string dds_device_handle)
  : dds_device_handle * gmap string dds_device_handle :=
  match m !! k with
  | Some h => (h, m)
  | None => (default_handle, <[k := default_handle]> m)
  end.

Definition get_topic_root := TopicRoot.Broadcaster.get_topic_root.

(** [rs2_dev.get_info( ... ) == "YES"]: [get_info] returns a
    [const char *], so [==] compares the address of the characters the
    device holds with the address of the literal, not the characters; the
    two are distinct objects and the comparison is false whatever the
    string is. *)
Definition equals_literal_YES (info : string) : bool := false.

Definition query_device_info (d : option rs2_device) : result fault device_info :=
  match d with
  | None => Throw rs2_error
  | Some rs2_dev =>
      let n := RS2_CAMERA_INFO_NAME rs2_dev in
      let sn := RS2_CAMERA_INFO_SERIAL_NUMBER rs2_dev in
      match get_topic_root n sn with
      | None => Throw out_of_range
      | Some root =>
          Ok {| name := n;
                serial := sn;
                product_line := RS2_CAMERA_INFO_PRODUCT_LINE rs2_dev;
                locked := equals_literal_YES (RS2_CAMERA_INFO_CAMERA_LOCKED rs2_dev);
                topic_root := root |}
      end
  end.

(** The broadcaster together with the bus it writes to. *)
Record world : Type := {
  bc : dds_device_broadcaster;
  net : bus;
}.

Definition handles (w : world) : gmap string dds_device_handle :=
  _device_handle_by_sn (bc w).

Definition with_handles (m : gmap string dds_device_handle) (w : world) : world :=
  {| bc := set_handles m (bc w); net := net w |}.

(** [create_device_writer]: the handle is stored whether or not the writer
    could be created; the listener starts with [_new_reader_joined] false. *)
Definition create_device_writer (P : publisher) (device_key : string)
    (rs2_dev : rs2_device) (w : world) : bool * world :=
  let writer_listener := {| _new_reader_joined := false |} in
  let h := {| device := Some rs2_dev;
              data_writer := create_datawriter P device_key;
              listener := Some writer_listener |} in
  (bool_decide (is_Some (data_writer h)),
   with_handles (<[device_key := h]> (handles w)) w).

Definition add_dds_device (P : publisher) (device_key : string)
    (rs2_dev : rs2_device) (w : world) : bool * world :=
  match handles w !! device_key with
  | None => create_device_writer P device_key rs2_dev w
  | Some _ => (true, w)
  end.

(** [remove_dds_device].  The error branch logs the guid of the writer,
    which dereferences it. *)
Definition remove_dds_device (P : publisher) (device_key : string)
    (w : world) : result fault unit * world :=
  let '(h, m) := index device_key (handles w) in
  let ret := delete_datawriter P (data_writer h) in
  if negb (is_RETCODE_OK ret)
  then
    match data_writer h with
    | None => (Throw null_dereference, with_handles m w)
    | Some _ => (Ok tt, with_handles m w)
    end
  else
    let w' := with_handles (delete device_key m) w in
    (Ok tt,
     match data_writer h with
     | Some dw => {| bc := bc w'; net := unmatch_writer dw (net w') |}
     | None => w'
     end).

(** The task [handle_device_changes] gives the dispatcher. *)
Fixpoint remove_all (P : publisher) (devices_to_remove : list string)
    (w : world) : result fault unit * world :=
  match devices_to_remove with
  | [] => (Ok tt, w)
  | k :: rest =>
      match remove_dds_device P k w with
      | (Ok _, w') => remove_all P rest w'
      | (Throw f, w') => (Throw f, w')
      end
  end.

Fixpoint add_all (P : publisher) (devices_to_add : list (string * rs2_device))
    (w : world) : world :=
  match devices_to_add with
  | [] => w
  | (k, d) :: rest => add_all P rest (add_dds_device P k d w).2
  end.

Definition handle_device_changes (P : publisher)
    (devices_to_remove : list string)
    (devices_to_add : list (string * rs2_device))
    (w : world) : result fault unit * world :=
  match remove_all P devices_to_remove w with
  | (Ok _, w') => (Ok tt, add_all P devices_to_add w')
  | (Throw f, w') => (Throw f, w')
  end.

(** [add_device]: the change is handed to the dispatcher, then the topic
    root is computed for the caller (which may throw to the caller). *)
Definition add_device (P : publisher) (dev : rs2_device) (w : world)
  : option string * world :=
  let device_serial := RS2_CAMERA_INFO_SERIAL_NUMBER dev in
  let w' := (handle_device_changes P [] [(device_serial, dev)] w).2 in
  (get_topic_root (RS2_CAMERA_INFO_NAME dev) (RS2_CAMERA_INFO_SERIAL_NUMBER dev), w').

Definition remove_device (P : publisher) (dev : rs2_device) (w : world)
  : result fault unit * world :=
  let device_serial := RS2_CAMERA_INFO_SERIAL_NUMBER dev in
  handle_device_changes P [device_serial] [] w.

(** [send_device_info_msg] *)
Definition send_device_info_msg (P : publisher) (dev_info : device_info)
    (w : world) : result fault bool * world :=
  let '(h, m) := index (serial dev_info) (handles w) in
  let w1 := with_handles m w in
  match data_writer h with
  | None => (Throw null_dereference, w1)
  | Some dw =>
      if write P dw
      then (Ok true, {| bc := bc w1; net := deliver dw dev_info (net w1) |})
      else (Ok false, w1)
  end.

Definition set_new_reader_joined (sn : string) (v : bool) (w : world) : world :=
  with_handles
    (alter (fun h => {| device := device h;
                        data_writer := data_writer h;
                        listener := (fun _ => {| _new_reader_joined := v |})
                                      <$> listener h |})
           sn (handles w)) w.

(** The task of [on_publication_matched] for the listener of the handle
    under [sn], given [current_count_change]. *)
Definition on_publication_matched (sn : string) (current_count_change : Z)
    (w : world) : world :=
  if (current_count_change =? 1)%Z
  then
    match handles w !! sn with
    | Some h =>
        match listener h with
        | Some _ =>
            let w' := set_new_reader_joined sn true w in
            {| bc := set_trigger true (bc w'); net := net w' |}
        | None => w
        end
    | None => w
    end
  else w.

(** Keys in the order a [std::map< std::string, _ >] iterates them. *)
Definition keys_in_order (m : gmap string dds_device_handle) : list string :=
  merge_sort (fun a b => Is_true (String.leb a b)) (fst <$> map_to_list m).

(** The body of the announcer's loop for the handle under [sn]. *)
Definition announce_handle (P : publisher) (sn : string) (w : world)
  : result fault unit * world :=
  match handles w !! sn with
  | None => (Ok tt, w)
  | Some sn_and_handle =>
      match listener sn_and_handle with
      | None => (Throw null_dereference, w)
      | Some l =>
          if _new_reader_joined l
          then
            match query_device_info (device sn_and_handle) with
            | Throw f => (Throw f, w)
            | Ok dev_info =>
                match send_device_info_msg P dev_info w with
                | (Throw f, w') => (Throw f, w')
                | (Ok true, w') => (Ok tt, set_new_reader_joined sn false w')
                | (Ok false, w') => (Ok tt, w')
                end
            end
          else (Ok tt, w)
      end
  end.

Fixpoint announce_each (P : publisher) (sns : list string) (w : world)
  : result fault unit * world :=
  match sns with
  | [] => (Ok tt, w)
  | sn :: rest =>
      match announce_handle P sn w with
      | (Ok _, w') => announce_each P rest w'
      | (Throw f, w') => (Throw f, w')
      end
  end.

Definition announce (P : publisher) (w : world) : result fault unit * world :=
  announce_each P (keys_in_order (handles w)) w.

(** One pass of [_new_client_handler] once its wait is over: when the
    broadcaster is active and the trigger is set, the trigger is cleared
    and the announcing task runs on the dispatcher. *)
Definition new_client_handler (P : publisher) (w : world)
  : result fault unit * world :=
  if _active (bc w) && _trigger_msg_send (bc w)
  then announce P {| bc := set_trigger false (bc w); net := net w |}
  else (Ok tt, w).

(** What happens to a broadcaster, one event at a time. *)
Inductive event : Type :=
| ev_add_device (dev : rs2_device)
| ev_remove_device (dev : rs2_device)
| ev_reader_joins (sn : string) (r : reader)
| ev_announcer.

Definition step (P : publisher) (e : event) (w : world)
  : result fault unit * world :=
  match e with
  | ev_add_device dev => (Ok tt, (add_device P dev w).2)
  | ev_remove_device dev => remove_device P dev w
  | ev_reader_joins sn r =>
      match handles w !! sn with
      | Some h =>
          match data_writer h with
          | Some dw =>
              (Ok tt,
               on_publication_matched sn 1
                 {| bc := bc w; net := match_reader dw r (net w) |})
          | None => (Ok tt, w)
          end
      | None => (Ok tt, w)
      end
  | ev_announcer => new_client_handler P w
  end.

(** A trace of events, up to the first fault. *)
Fixpoint steps (P : publisher) (es : list event) (w : world)
  : result fault unit * world :=
  match es with
  | [] => (Ok tt, w)
  | e :: rest =>
      match step P e w with
      | (Ok _, w') => steps P rest w'
      | (Throw f, w') => (Throw f, w')
      end
  end.

Definition initial : world :=
  {| bc := run constructed; net := {| matched := []; written := []; inbox := [] |} |}.

End Broadcaster.

(** ** The device controller (lrs-device-controller.cpp) *)

Module Controller.
Import Profiles.

Inductive error : Type :=
| invalid_stream_name (stream_name : string)
| invalid_profile (requested : dds_stream_profile) (stream_name : string)
| json_error
| bridge_error
| null_server.

(** What [start_streaming] reads of a [dds_stream_server]. *)
Record dds_stream_server : Type := {
  name : string;
  sensor_name : string;
  type_string : string;
  profiles : list dds_stream_profile;
}.

Section StartStreaming.

(** The JSON of a requested profile, and [create_dds_stream_profile]
    composed with [type_string_to_rs2_stream] (the [from_json] it calls
    is not among the sources): the profile a JSON value describes for a
    stream of the given type string, or an exception. *)
Context {json : Type}.
Variable create_dds_stream_profile :
  string -> json -> result error dds_stream_profile.

(** The stream-sensor bridge ([dds_stream_sensor_bridge], not among the
    sources) by the three calls [start_streaming] makes on it: [reset()],
    [open( profile )] for a profile of the named stream, and [commit()].
    [open] and [commit] may throw; the bridge they leave is returned
    next to the outcome. *)
Context {bridge : Type}.
Variable bridge_reset : bridge -> bridge.
Variable bridge_open :
  string -> dds_stream_profile -> bridge -> result error unit * bridge.
Variable bridge_commit : bridge -> result error unit * bridge.

(** An [open-streams] message: the optional [reset] and [commit] flags
    and the items of [stream-profiles] in the order they are iterated. *)
Record open_streams : Type := {
  reset : option bool;
  commit : option bool;
  stream_profiles : list (string * json);
}.

(** [rsutils::json::get< bool >( msg, key, default )] *)
Definition json_get_bool (field : option bool) (default_value : bool) : bool :=
  match field with Some b => b | None => default_value end.

(** The body of the loop over [stream-profiles]. *)
Definition open_one
    (_stream_name_to_server : gmap string (option dds_stream_server))
    (name2profile : string * json) (b : bridge) : result error unit * bridge :=
  let stream_name := name2profile.1 in
  match _stream_name_to_server !! stream_name with
  | None => (Throw (invalid_stream_name stream_name), b)
  | Some None => (Throw null_server, b)
  | Some (Some server) =>
      match create_dds_stream_profile (type_string server) name2profile.2 with
      | Throw e => (Throw e, b)
      | Ok requested_profile =>
          match find_profile (profiles server) requested_profile false with
          | None => (Throw (invalid_profile requested_profile stream_name), b)
          | Some profile => bridge_open (name server) profile b
          end
      end
  end.

Fixpoint open_each
    (_stream_name_to_server : gmap string (option dds_stream_server))
    (items : list (string * json)) (b : bridge) : result error unit * bridge :=
  match items with
  | [] => (Ok tt, b)
  | it :: rest =>
      match open_one _stream_name_to_server it b with
      | (Ok _, b') => open_each _stream_name_to_server rest b'
      | (Throw e, b') => (Throw e, b')
      end
  end.

Definition start_streaming
    (_stream_name_to_server : gmap string (option dds_stream_server))
    (msg : open_streams) (_bridge : bridge) : result error unit * bridge :=
  let b := if json_get_bool (reset msg) true
           then bridge_reset _bridge else _bridge in
  match open_each _stream_name_to_server (stream_profiles msg) b with
  | (Throw e, b') => (Throw e, b')
  | (Ok _, b') =>
      (* all the profiles were acceptable; lock them in *)
      if json_get_bool (commit msg) true then bridge_commit b' else (Ok tt, b')
  end.

(** The request names a stream that does not exist in the device, or a
    profile with no compatible match among the profiles of its stream. *)
Definition unacceptable
    (_stream_name_to_server : gmap string (option dds_stream_server))
    (it : string * json) : Prop :=
  _stream_name_to_server !! it.1 = None
  ∨ ∃ server requested,
      _stream_name_to_server !! it.1 = Some (Some server)
      ∧ create_dds_stream_profile (type_string server) it.2 = Ok requested
      ∧ find_profile (profiles server) requested false = None.

End StartStreaming.

End Controller.

(** ** The client device (dds-device-impl.cpp) *)

Module Device.
Import Profiles.

Inductive state_type : Type :=
| WAIT_FOR_DEVICE_HEADER
| WAIT_FOR_PROFILES
| DONE.

Definition to_string (st : state_type) : string :=
  match st with
  | WAIT_FOR_DEVICE_HEADER => "WAIT_FOR_DEVICE_HEADER"
  | WAIT_FOR_PROFILES => "WAIT_FOR_PROFILES"
  | DONE => "DONE"
  end.

Definition state_eqb (a b : state_type) : bool :=
  match a, b with
  | WAIT_FOR_DEVICE_HEADER, WAIT_FOR_DEVICE_HEADER => true
  | WAIT_FOR_PROFILES, WAIT_FOR_PROFILES => true
  | DONE, DONE => true
  | _, _ => false
  end.

(** The stream classes [TYPE2STREAM] instantiates. *)
Inductive stream_kind : Type :=
| depth | ir | color | accel | gyro | fisheye | confidence | pose.

(** Modelled from the spec: the stream classes (dds-stream.h) are not among
    the sources.  [dds_<S>_stream::type_string()] is the kind's name, one of
    [depth | color | ir | fisheye | confidence | accel | gyro | pose]
    (section 6). *)
Definition type_string (k : stream_kind) : string :=
  match k with
  | depth => "depth"
  | ir => "ir"
  | color => "color"
  | accel => "accel"
  | gyro => "gyro"
  | fisheye => "fisheye"
  | confidence => "confidence"
  | pose => "pose"
  end.

Record dds_stream : Type := {
  kind : stream_kind;
  name : string;
  sensor_name : string;
  profiles : list dds_stream_profile;
  default_profile_index : nat;
  opened_on : option string;
}.

(** The runtime errors, one per throw site. *)
Inductive error : Type :=
| must_provide_at_least_one_profile
| profile_not_part_of_any_stream (p : dds_stream_profile)
| more_than_one_profile_for_stream (stream_name : string)
| unexpected_notification (id : string) (st : state_type)
| more_streams_than_expected (n_streams_expected : nat)
| stream_already_exists (stream_name : string)
| unknown_stream_type (stream_name stream_type : string)
| default_profile_index_out_of_bounds (stream_name : string) (i : Z)
| failed_to_instantiate (stream_type got : string)
| json_key_not_found (key : string)
| stream_open_failed (stream_name : string)
| null_stream.

(** A notification's JSON: a well-formed [device-header], a well-formed
    [stream-header], or a record with another [id] or without the fields
    its [id] calls for. *)
Inductive notification : Type :=
| device_header (n_streams : nat)
| stream_header (name type sensor_name : string)
                (default_profile_index : Z)
                (profiles : list dds_stream_profile)
| other (id : string).

Definition json_id (j : notification) : string :=
  match j with
  | device_header _ => "device-header"
  | stream_header _ _ _ _ _ => "stream-header"
  | other id => id
  end.

(** A sample taken from the notifications reader. *)
Record sample : Type := {
  is_valid : bool;
  json_data : notification;
}.

(** The locals of [init] together with [_streams]. *)
Record init_state : Type := {
  state : state_type;
  n_streams_expected : nat;
  _streams : gmap string (option dds_stream);
}.

(** The chain of [TYPE2STREAM] tests. *)
Definition type2stream (stream_type : string) : option stream_kind :=
  if String.eqb stream_type "depth" then Some depth
  else if String.eqb stream_type "ir" then Some ir
  else if String.eqb stream_type "color" then Some color
  else if String.eqb stream_type "accel" then Some accel
  else if String.eqb stream_type "gyro" then Some gyro
  else if String.eqb stream_type "fisheye" then Some fisheye
  else if String.eqb stream_type "confidence" then Some confidence
  else if String.eqb stream_type "pose" then Some pose
  else None.

(** The [stream-header] branch of [init].  What a refused
    [stream-header] has already put in [_streams] when the exception
    leaves [init] (the null entry [_streams[stream_name]] makes, the new
    stream before the check of the default profile index) is not kept:
    an exception carries no state here. *)
Definition on_stream_header (s : init_state)
    (stream_name stream_type sensor : string) (index : Z)
    (ps : list dds_stream_profile) : result error init_state :=
  if (n_streams_expected s <=? size (_streams s))%nat
  then Throw (more_streams_than_expected (n_streams_expected s))
  else
    match _streams s !! stream_name with
    | Some (Some _) => Throw (stream_already_exists stream_name)
    | _ =>
        match type2stream stream_type with
        | None => Throw (unknown_stream_type stream_name stream_type)
        | Some k =>
            if (index <? 0)%Z || (Z.of_nat (length ps) <=? index)%Z
            then Throw (default_profile_index_out_of_bounds stream_name index)
            else if negb (String.eqb (type_string k) stream_type)
            then Throw (failed_to_instantiate stream_type (type_string k))
            else
              let stream := {| kind := k;
                               name := stream_name;
                               sensor_name := sensor;
                               profiles := ps;
                               default_profile_index := Z.to_nat index;
                               opened_on := None |} in
              let streams := <[stream_name := Some stream]> (_streams s) in
              Ok {| state := if (n_streams_expected s <=? size streams)%nat
                             then DONE else state s;
                    n_streams_expected := n_streams_expected s;
                    _streams := streams |}
        end
    end.

(** The body of the inner loop of [init] for a valid notification. *)
Definition on_notification (s : init_state) (j : notification)
  : result error init_state :=
  let id := json_id j in
  if state_eqb WAIT_FOR_DEVICE_HEADER (state s) && String.eqb id "device-header"
  then
    match j with
    | device_header n =>
        Ok {| state := if (0 <? n)%nat then WAIT_FOR_PROFILES else DONE;
              n_streams_expected := n;
              _streams := _streams s |}
    | _ => Throw (json_key_not_found "n-streams")
    end
  else if state_eqb WAIT_FOR_PROFILES (state s) && String.eqb id "stream-header"
  then
    match j with
    | stream_header stream_name stream_type sensor index ps =>
        on_stream_header s stream_name stream_type sensor index ps
    | _ =>
        if (n_streams_expected s <=? size (_streams s))%nat
        then Throw (more_streams_than_expected (n_streams_expected s))
        else Throw (json_key_not_found "type")
    end
  else Throw (unexpected_notification id (state s)).

(** The inner loop: every sample [take_next] yields is taken, whatever the
    state; samples that are not valid are skipped. *)
Fixpoint take_all (s : init_state) (samples : list sample)
  : result error init_state :=
  match samples with
  | [] => Ok s
  | x :: rest =>
      if is_valid x
      then match on_notification s (json_data x) with
           | Ok s' => take_all s' rest
           | Throw e => Throw e
           end
      else take_all s rest
  end.

(** The outer loop.  [polls] lists, for each pass made before the timer
    expires, the samples waiting at that pass (none when the one-second
    wait returns empty-handed); the timer has expired when the list is
    exhausted. *)
Fixpoint init_loop (s : init_state) (polls : list (list sample))
  : result error init_state :=
  match polls with
  | [] => Ok s
  | samples :: later =>
      if state_eqb DONE (state s)
      then Ok s
      else match take_all s samples with
           | Ok s' => init_loop s' later
           | Throw e => Throw e
           end
  end.

Definition init_begin (streams : gmap string (option dds_stream)) : init_state :=
  {| state := WAIT_FOR_DEVICE_HEADER;
     n_streams_expected := 0;
     _streams := streams |}.

(** [init], on the streams the device holds when it is called; the result
    is the returned flag with the streams the device then holds. *)
Definition init (streams : gmap string (option dds_stream))
    (polls : list (list sample))
  : result error (bool * gmap string (option dds_stream)) :=
  match init_loop (init_begin streams) polls with
  | Ok s => Ok (state_eqb DONE (state s), _streams s)
  | Throw e => Throw e
  end.

(** *** [open] *)

(** A profile handed to [open]: the profile and [profile->stream()], by the
    name of the stream; [None] is a profile that is part of no stream. *)
Record profile_ref : Type := {
  profile : dds_stream_profile;
  stream : option string;
}.

Inductive control_message : Type :=
| open_streams (stream_profiles : gmap string dds_stream_profile)
| close_streams (stream_names : list string).

(** The members [open] touches; [_control_writer] is shown by the messages
    written to it, oldest first. *)
Record impl : Type := {
  topic_root : string;
  streams : gmap string (option dds_stream);
  _control_writer : list control_message;
}.

Definition with_streams (m : gmap string (option dds_stream)) (d : impl) : impl :=
  {| topic_root := topic_root d; streams := m;
     _control_writer := _control_writer d |}.

Definition write_control_message (msg : control_message) (d : impl) : impl :=
  {| topic_root := topic_root d; streams := streams d;
     _control_writer := _control_writer d ++ [msg] |}.

(** [_streams[name]] *)
Definition index (k : string) (m : gmap string (option dds_stream))
  : option dds_stream * gmap string (option dds_stream) :=
  match m !! k with
  | Some s => (s, m)
  | None => (None, <[k := None]> m)
  end.

Section Open.

(** [dds_stream::open( topic_name, subscriber )] is not among the
    sources: the stream once opened on the topic, or an exception. *)
Variable stream_open : string -> dds_stream -> result error dds_stream.

Fixpoint open_loop (ps : list profile_ref)
    (stream_profiles : gmap string dds_stream_profile) (d : impl)
  : result error (gmap string dds_stream_profile) * impl :=
  match ps with
  | [] => (Ok stream_profiles, d)
  | p :: rest =>
      match stream p with
      | None => (Throw (profile_not_part_of_any_stream (profile p)), d)
      | Some stream_name =>
          if bool_decide (is_Some (stream_profiles !! stream_name))
          then (Throw (more_than_one_profile_for_stream stream_name), d)
          else
            let stream_profiles :=
              <[stream_name := profile p]> stream_profiles in
            let '(s, m) := index stream_name (streams d) in
            match s with
            | None => (Throw null_stream, with_streams m d)
            | Some st =>
                match stream_open (topic_root d +:+ "/" +:+ stream_name) st with
                | Throw e => (Throw e, with_streams m d)
                | Ok st' =>
                    open_loop rest stream_profiles
                              (with_streams (<[stream_name := Some st']> m) d)
                end
            end
      end
  end.

Definition open (ps : list profile_ref) (d : impl) : result error unit * impl :=
  match ps with
  | [] => (Throw must_provide_at_least_one_profile, d)
  | _ =>
      match open_loop ps ∅ d with
      | (Throw e, d') => (Throw e, d')
      | (Ok stream_profiles, d') =>
          (Ok tt, write_control_message (open_streams stream_profiles) d')
      end
  end.

End Open.

End Device.

(** ** The client handshake of dds-device-impl.h *)

Module DeviceH.
Import Profiles.

Inductive state_type : Type :=
| WAIT_FOR_DEVICE_HEADER
| WAIT_FOR_SENSOR_HEADER
| WAIT_FOR_PROFILES
| DONE.

Definition state_eqb (a b : state_type) : bool :=
  match a, b with
  | WAIT_FOR_DEVICE_HEADER, WAIT_FOR_DEVICE_HEADER => true
  | WAIT_FOR_SENSOR_HEADER, WAIT_FOR_SENSOR_HEADER => true
  | WAIT_FOR_PROFILES, WAIT_FOR_PROFILES => true
  | DONE, DONE => true
  | _, _ => false
  end.

Inductive sensor_type : Type := VIDEO | MOTION.

(** A raw notification by its [msg_type] with the payload read for it. *)
Inductive notification : Type :=
| DEVICE_HEADER (num_of_sensors : nat)
| SENSOR_HEADER (index : nat) (name : string) (type : sensor_type)
| VIDEO_STREAM_PROFILES (dds_sensor_index : nat) (profiles : list dds_stream_profile)
| MOTION_STREAM_PROFILES (dds_sensor_index : nat) (profiles : list dds_stream_profile)
| UNKNOWN (msg_id : nat).

Record sample : Type := {
  valid_data : bool;
  raw_data : notification;
}.

Record impl : Type := {
  state : state_type;
  _num_of_sensors : nat;
  _sensor_index_to_name : gmap nat string;
  _sensor_to_video_profiles : gmap nat (list dds_stream_profile);
  _sensor_to_motion_profiles : gmap nat (list dds_stream_profile);
}.

(** [m.emplace( k, v )]: nothing is stored when [k] is present. *)
Definition emplace {V} (k : nat) (v : V) (m : gmap nat V) : gmap nat V :=
  match m !! k with
  | Some _ => m
  | None => <[k := v]> m
  end.

Definition set_state (st : state_type) (d : impl) : impl :=
  {| state := st;
     _num_of_sensors := _num_of_sensors d;
     _sensor_index_to_name := _sensor_index_to_name d;
     _sensor_to_video_profiles := _sensor_to_video_profiles d;
     _sensor_to_motion_profiles := _sensor_to_motion_profiles d |}.

Definition after_profiles (d : impl) : impl :=
  if (size (_sensor_to_video_profiles d) + size (_sensor_to_motion_profiles d)
      <? _num_of_sensors d)%nat
  then set_state WAIT_FOR_SENSOR_HEADER d
  else set_state DONE d.

(** The [switch] of [init]; a message that does not fit the state is logged
    and nothing changes. *)
Definition on_notification (d : impl) (msg : notification) : impl :=
  match msg with
  | DEVICE_HEADER n =>
      if state_eqb WAIT_FOR_DEVICE_HEADER (state d)
      then {| state := WAIT_FOR_SENSOR_HEADER;
              _num_of_sensors := n;
              _sensor_index_to_name := _sensor_index_to_name d;
              _sensor_to_video_profiles := _sensor_to_video_profiles d;
              _sensor_to_motion_profiles := _sensor_to_motion_profiles d |}
      else d
  | SENSOR_HEADER i n _ =>
      if state_eqb WAIT_FOR_SENSOR_HEADER (state d)
      then {| state := WAIT_FOR_PROFILES;
              _num_of_sensors := _num_of_sensors d;
              _sensor_index_to_name := emplace i n (_sensor_index_to_name d);
              _sensor_to_video_profiles := _sensor_to_video_profiles d;
              _sensor_to_motion_profiles := _sensor_to_motion_profiles d |}
      else d
  | VIDEO_STREAM_PROFILES i ps =>
      if state_eqb WAIT_FOR_PROFILES (state d)
      then
        match _sensor_index_to_name d !! i with
        | Some _ =>
            after_profiles
              {| state := state d;
                 _num_of_sensors := _num_of_sensors d;
                 _sensor_index_to_name := _sensor_index_to_name d;
                 _sensor_to_video_profiles :=
                   emplace i ps (_sensor_to_video_profiles d);
                 _sensor_to_motion_profiles := _sensor_to_motion_profiles d |}
        | None => d
        end
      else d
  | MOTION_STREAM_PROFILES i ps =>
      if state_eqb WAIT_FOR_PROFILES (state d)
      then
        match _sensor_index_to_name d !! i with
        | Some _ =>
            after_profiles
              {| state := state d;
                 _num_of_sensors := _num_of_sensors d;
                 _sensor_index_to_name := _sensor_index_to_name d;
                 _sensor_to_video_profiles := _sensor_to_video_profiles d;
                 _sensor_to_motion_profiles :=
                   emplace i ps (_sensor_to_motion_profiles d) |}
        | None => d
        end
      else d
  | UNKNOWN _ => d
  end.

Fixpoint take_all (d : impl) (samples : list sample) : impl :=
  match samples with
  | [] => d
  | x :: rest =>
      take_all (if valid_data x then on_notification d (raw_data x) else d) rest
  end.

(** The outer loop, over the samples waiting at each pass made before the
    timer expires. *)
Fixpoint init_loop (d : impl) (polls : list (list sample)) : impl :=
  match polls with
  | [] => d
  | samples :: later =>
      if state_eqb DONE (state d) then d
      else init_loop (take_all d samples) later
  end.

(** The device as constructed. *)
Definition constructed : impl :=
  {| state := WAIT_FOR_DEVICE_HEADER;
     _num_of_sensors := 0;
     _sensor_index_to_name := ∅;
     _sensor_to_video_profiles := ∅;
     _sensor_to_motion_profiles := ∅ |}.

(** [init]: [state] is a local that starts at [WAIT_FOR_DEVICE_HEADER]. *)
Definition init (d : impl) (polls : list (list sample)) : bool * impl :=
  let d' := init_loop (set_state WAIT_FOR_DEVICE_HEADER d) polls in
  (state_eqb DONE (state d'), d').

End DeviceH.

(** ** Well-formed handle maps and what an announcement delivers *)

Module BroadcasterShape.
Import Broadcaster.

(** The handles [add_device] makes when the writer could be created, for a
    device whose name is at least as long as the prefix: the device under
    its own serial, a writer and a listener. *)
Definition handle_ok (k : string) (h : dds_device_handle) : bool :=
  match device h, data_writer h, listener h with
  | Some d, Some _, Some _ =>
      String.eqb (RS2_CAMERA_INFO_SERIAL_NUMBER d) k
      && (16 <=? String.length (RS2_CAMERA_INFO_NAME d))%nat
  | _, _, _ => false
  end.

Definition handles_ok (m : gmap string dds_device_handle) : bool :=
  bool_decide (map_Forall (fun k h => handle_ok k h = true) m).

Definition all_ok (m : gmap string dds_device_handle) : Prop :=
  ∀ k h, m !! k = Some h -> handle_ok k h = true.

Definition is_removal (e : event) : bool :=
  match e with ev_remove_device _ => true | _ => false end.

(** How many times [r] occurs in a list of readers. *)
Definition copies (r : reader) (rs : list reader) : nat :=
  length (List.filter (fun x => bool_decide (x = r)) rs).

(** The records reader [r] gets when the handle under [sn] is announced:
    one per match of [r] with the handle's writer, when the handle's flag
    is set and the write is accepted; none otherwise. *)
Definition announced (P : publisher) (w : world) (sn : string) (r : reader) : nat :=
  match handles w !! sn with
  | Some h =>
      match data_writer h, listener h with
      | Some dw, Some l =>
          if _new_reader_joined l && write P dw
          then copies r (readers_of dw (net w))
          else 0
      | _, _ => 0
      end
  | None => 0
  end.

(** The device-info record [query_device_info] builds for a device whose
    name is long enough. *)
Definition info_of (d : rs2_device) : device_info :=
  {| name := RS2_CAMERA_INFO_NAME d;
     serial := RS2_CAMERA_INFO_SERIAL_NUMBER d;
     product_line := RS2_CAMERA_INFO_PRODUCT_LINE d;
     locked := equals_literal_YES (RS2_CAMERA_INFO_CAMERA_LOCKED d);
     topic_root := TopicRoot.RS_ROOT
                   +:+ StdString.drop_front 16 (RS2_CAMERA_INFO_NAME d)
                   +:+ "/" +:+ RS2_CAMERA_INFO_SERIAL_NUMBER d |}.

(** A publisher that hands out the writer [7], refuses to delete a null
    writer and accepts every sample; a D435. *)
Definition sample_publisher : publisher :=
  {| create_datawriter := fun _ => Some 7;
     delete_datawriter := fun w => match w with
                                   | Some _ => RETCODE_OK
                                   | None => RETCODE_PRECONDITION_NOT_MET
                                   end;
     write := fun _ => true |}.

Definition D435 : rs2_device :=
  {| RS2_CAMERA_INFO_NAME := "Intel RealSense D435";
     RS2_CAMERA_INFO_SERIAL_NUMBER := "112233";
     RS2_CAMERA_INFO_PRODUCT_LINE := "D400";
     RS2_CAMERA_INFO_CAMERA_LOCKED := "NO" |}.

End BroadcasterShape.

(** ** Sample requests and handshakes *)

Module Samples.
Import Profiles.

Definition Z16_640x480x30 : dds_stream_profile :=
  dds_video_stream_profile 30 "Z16" 640 480.

Definition RGB8_640x480x30 : dds_stream_profile :=
  dds_video_stream_profile 30 "RGB8" 640 480.

(** Modelled from the spec: [dds_stream_sensor_bridge] is not among the
    sources.  Section 4.F: [open(profile)] adds the profile to the pending
    active set (one profile per stream), [reset()] empties the pending set,
    and [commit()] makes the pending set the committed one.  Section 4.E:
    with [reset = true], any previously committed profiles are cleared
    first.  Profiles are kept by the name of their stream. *)
Record bridge : Type := {
  pending : gmap string dds_stream_profile;
  committed : gmap string dds_stream_profile;
}.

Definition bridge_reset (b : bridge) : bridge :=
  {| pending := ∅; committed := ∅ |}.

Definition bridge_open (stream_name : string) (p : dds_stream_profile)
    (b : bridge) : result Controller.error unit * bridge :=
  (Ok tt,
   {| pending := <[stream_name := p]> (pending b); committed := committed b |}).

Definition bridge_commit (b : bridge) : result Controller.error unit * bridge :=
  (Ok tt, {| pending := pending b; committed := pending b |}).

(** A device with the one stream [Depth], a bridge that has that stream
    committed, and a request for a stream [Color]. *)
Definition depth_only_device : gmap string (option Controller.dds_stream_server) :=
  {[ "Depth" := Some {| Controller.name := "Depth";
                        Controller.sensor_name := "Stereo Module";
                        Controller.type_string := "depth";
                        Controller.profiles := [Z16_640x480x30] |} ]}.

Definition depth_committed : bridge :=
  {| pending := {[ "Depth" := Z16_640x480x30 ]};
     committed := {[ "Depth" := Z16_640x480x30 ]} |}.

Definition color_request : @Controller.open_streams dds_stream_profile :=
  {| Controller.reset := None;
     Controller.commit := None;
     Controller.stream_profiles := [("Color", RGB8_640x480x30)] |}.

End Samples.

(** ** The shape of a handshake *)

Module HandshakeShape.
Import Profiles Device.

(** The JSON of the valid samples among those taken, in order. *)
Definition taken (samples : list sample) : list notification :=
  json_data <$> List.filter is_valid samples.

(** The inner loop of [init] on the notifications of the valid samples. *)
Fixpoint run (s : init_state) (msgs : list notification)
  : result error init_state :=
  match msgs with
  | [] => Ok s
  | j :: rest =>
      match on_notification s j with
      | Ok s' => run s' rest
      | Throw e => Throw e
      end
  end.

(** A valid [stream-header]: the type is one of the known ones and the
    default profile index lies within the profiles. *)
Definition header_ok (j : notification) : bool :=
  match j with
  | stream_header _ stream_type _ index ps =>
      bool_decide (is_Some (type2stream stream_type))
      && (0 <=? index)%Z && (index <? Z.of_nat (length ps))%Z
  | _ => false
  end.

Definition header_name (j : notification) : string :=
  match j with
  | stream_header stream_name _ _ _ _ => stream_name
  | _ => ""
  end.

(** A [device-header] announcing as many streams as valid [stream-header]
    records with distinct names follow it, and nothing else. *)
Definition handshake (msgs : list notification) : Prop :=
  ∃ (N : nat) (hdrs : list notification),
    msgs = device_header N :: hdrs
    ∧ length hdrs = N
    ∧ Forall (fun j => header_ok j = true) hdrs
    ∧ NoDup (header_name <$> hdrs).

(** Following the words of the specification: the messages received
    contain a [device-header] with [n-streams = N] followed by [N] valid,
    distinct [stream-header] records; what comes before the header is
    logged and skipped (section 4.D, [WAIT_DEVICE_HEADER]). *)
Definition spec_handshake_received (msgs : list notification) : Prop :=
  ∃ (before : list notification), ∃ (rest : list notification),
    msgs = (before ++ rest)%list ∧ handshake rest.

(** [init] on a device without streams, by the flag it returns. *)
Definition init_returns (polls : list (list sample)) : result error bool :=
  match init ∅ polls with
  | Ok (done, _) => Ok done
  | Throw e => Throw e
  end.

(** No entry of [_streams] is a null pointer. *)
Definition non_null (m : gmap string (option dds_stream)) : Prop :=
  ∀ k v, m !! k = Some v -> is_Some v.

(** What a [stream-header] does when it is accepted. *)
Definition accepted (s s' : init_state) (n : string) : Prop :=
  n_streams_expected s' = n_streams_expected s
  ∧ size (_streams s') = S (size (_streams s))
  ∧ non_null (_streams s')
  ∧ is_Some (_streams s' !! n)
  ∧ (∀ n', n' ≠ n -> _streams s' !! n' = _streams s !! n')
  ∧ state s' = (if (n_streams_expected s <=? S (size (_streams s)))%nat
                then DONE else state s).

Definition valid (j : notification) : sample :=
  {| is_valid := true; json_data := j |}.

Definition depth_header : notification :=
  stream_header "Depth" "depth" "Stereo Module" 0 [Samples.Z16_640x480x30].

Definition color_header : notification :=
  stream_header "Color" "color" "RGB Camera" 0 [Samples.RGB8_640x480x30].

End HandshakeShape.

(** ** What the broadcaster keeps true *)

Module BroadcasterInvariant.
Import Broadcaster BroadcasterShape.

(** A handle as the broadcaster's own operations leave it: the device it
    was added for, under that device's serial; a listener; and a listener
    flag that is set only when there is a writer. *)
Definition handle_inv (k : string) (h : dds_device_handle) : Prop :=
  (∃ d, device h = Some d ∧ RS2_CAMERA_INFO_SERIAL_NUMBER d = k)
  ∧ ∃ l, listener h = Some l
         ∧ (_new_reader_joined l = true -> is_Some (data_writer h)).

Definition world_inv (w : world) : Prop :=
  ∀ k h, handles w !! k = Some h -> handle_inv k h.

(** A record whose topic root is the one [get_topic_root] computes from
    its name and serial. *)
Definition record_ok (m : device_info) : Prop :=
  get_topic_root (name m) (serial m) = Some (topic_root m).

Definition wire_inv (w : world) : Prop :=
  Forall (fun wm => record_ok wm.2) (written (net w))
  ∧ Forall (fun rm => record_ok rm.2) (inbox (net w)).

(** No listener flag is set. *)
Definition no_flag (w : world) : Prop :=
  ∀ k h l, handles w !! k = Some h -> listener h = Some l ->
           _new_reader_joined l = false.

Definition is_join (e : event) : bool :=
  match e with ev_reader_joins _ _ => true | _ => false end.

(** The flag of the handle under [sn]; false without a handle or a
    listener. *)
Definition flagged (sn : string) (w : world) : bool :=
  match handles w !! sn with
  | Some h =>
      match listener h with
      | Some l => _new_reader_joined l
      | None => false
      end
  | None => false
  end.

(** A device whose name is shorter than the prefix. *)
Definition T265_short : rs2_device :=
  {| RS2_CAMERA_INFO_NAME := "T265";
     RS2_CAMERA_INFO_SERIAL_NUMBER := "9001";
     RS2_CAMERA_INFO_PRODUCT_LINE := "T200";
     RS2_CAMERA_INFO_CAMERA_LOCKED := "YES" |}.

(** A publisher whose writers refuse every sample. *)
Definition refusing_publisher : publisher :=
  {| create_datawriter := fun _ => Some 7;
     delete_datawriter := fun _ => RETCODE_OK;
     write := fun _ => false |}.

End BroadcasterInvariant.

(** ** More of the client device (dds-device-impl.cpp) *)

Module DeviceMore.
Import Profiles Device HandshakeShape.

(** The stream [init] makes of a [stream-header] of kind [k]. *)
Definition stream_of (k : stream_kind) (stream_name sensor : string)
    (index : Z) (ps : list dds_stream_profile) : dds_stream :=
  {| kind := k;
     name := stream_name;
     sensor_name := sensor;
     profiles := ps;
     default_profile_index := Z.to_nat index;
     opened_on := None |}.

(** The runtime errors of [close], one per throw site, with the outcome of
    [dds_stream::close()] and the dereference of a null entry of
    [_streams]. *)
Inductive close_error : Type :=
| must_provide_at_least_one_stream
| null_stream_passed_in
| stream_close_failed (stream_name : string)
| null_stream_entry.

Section Close.

(** [dds_stream::close()] is not among the sources: the stream once
    closed, or an exception. *)
Variable stream_close : dds_stream -> result close_error dds_stream.

(** The loop of [close] over the streams handed in, each by its name;
    [None] is a null pointer. *)
Fixpoint close_loop (ss : list (option string)) (stream_names : list string)
    (d : impl) : result close_error (list string) * impl :=
  match ss with
  | [] => (Ok stream_names, d)
  | s :: rest =>
      match s with
      | None => (Throw null_stream_passed_in, d)
      | Some stream_name =>
          let stream_names := (stream_names ++ [stream_name])%list in
          let '(st, m) := index stream_name (streams d) in
          match st with
          | None => (Throw null_stream_entry, with_streams m d)
          | Some st =>
              match stream_close st with
              | Throw e => (Throw e, with_streams m d)
              | Ok st' =>
                  close_loop rest stream_names
                             (with_streams (<[stream_name := Some st']> m) d)
              end
          end
      end
  end.

Definition close (ss : list (option string)) (d : impl)
  : result close_error unit * impl :=
  match ss with
  | [] => (Throw must_provide_at_least_one_stream, d)
  | _ =>
      match close_loop ss [] d with
      | (Throw e, d') => (Throw e, d')
      | (Ok stream_names, d') =>
          (Ok tt, write_control_message (close_streams stream_names) d')
      end
  end.

End Close.

(** A device holding the stream [Depth]. *)
Definition depth_device : impl :=
  {| topic_root := "realsense/D435/112233";
     streams := {[ "Depth" := Some (stream_of depth "Depth" "Stereo Module" 0
                                      [Samples.Z16_640x480x30]) ]};
     _control_writer := [] |}.

Definition mark_opened (topic : string) (st : dds_stream) : dds_stream :=
  {| kind := kind st; name := name st; sensor_name := sensor_name st;
     profiles := profiles st;
     default_profile_index := default_profile_index st;
     opened_on := Some topic |}.

End DeviceMore.

(** ** What the handshake of dds-device-impl.h keeps true *)

Module DeviceHShape.
Import Profiles DeviceH.

(** Profiles are stored only for sensors whose header was seen. *)
Definition profiles_have_sensor (d : impl) : Prop :=
  ∀ i, is_Some (_sensor_to_video_profiles d !! i)
       ∨ is_Some (_sensor_to_motion_profiles d !! i) ->
       is_Some (_sensor_index_to_name d !! i).

(** The number of profile sets stored. *)
Definition profile_sets (d : impl) : nat :=
  size (_sensor_to_video_profiles d) + size (_sensor_to_motion_profiles d).

(** Once [DONE], at least one profile set is stored, and at least as many
    as the device header announced sensors. *)
Definition done_counts (d : impl) : Prop :=
  state d = DONE -> 1 <= profile_sets d ∧ _num_of_sensors d <= profile_sets d.

(** A sample that is not a valid [DEVICE_HEADER]. *)
Definition not_device_header (x : sample) : bool :=
  match valid_data x, raw_data x with
  | true, DEVICE_HEADER _ => false
  | _, _ => true
  end.

Definition valid (msg : notification) : sample :=
  {| valid_data := true; raw_data := msg |}.

End DeviceHShape.

(** ** The streams a device supports (rs-dds-server.cpp) *)

Module SupportedStreams.
Import Profiles.

Inductive rs2_stream : Type :=
| RS2_STREAM_ANY
| RS2_STREAM_DEPTH
| RS2_STREAM_COLOR
| RS2_STREAM_INFRARED
| RS2_STREAM_FISHEYE
| RS2_STREAM_GYRO
| RS2_STREAM_ACCEL
| RS2_STREAM_GPIO
| RS2_STREAM_POSE
| RS2_STREAM_CONFIDENCE.

(** The [switch] over [sp.stream_type()]: the server class [NAME2SERVER]
    names for the stream type, or the [default] case. *)
Definition server_kind (t : rs2_stream) : option Device.stream_kind :=
  match t with
  | RS2_STREAM_DEPTH => Some Device.depth
  | RS2_STREAM_INFRARED => Some Device.ir
  | RS2_STREAM_COLOR => Some Device.color
  | RS2_STREAM_FISHEYE => Some Device.fisheye
  | RS2_STREAM_CONFIDENCE => Some Device.confidence
  | RS2_STREAM_ACCEL => Some Device.accel
  | RS2_STREAM_GYRO => Some Device.gyro
  | RS2_STREAM_POSE => Some Device.pose
  | _ => None
  end.

(** [static_cast< int16_t >] and [static_cast< uint16_t >] of an [int]. *)
Definition to_int16 (z : Z) : Z := ((z + 32768) mod 65536 - 32768)%Z.
Definition to_uint16 (z : Z) : Z := (z mod 65536)%Z.

Section WithFormats.

(** An [rs2_format], and [dds_stream_format::from_rs2] (not among the
    sources). *)
Context {rs2_format : Type}.
Variable from_rs2 : rs2_format -> string.

(** What [sp.is< video_stream_profile >()], [sp.is< motion_stream_profile >()]
    and the accessors tell of a profile. *)
Inductive rs2_profile_data : Type :=
| rs2_video (fps : Z) (format : rs2_format) (width height : Z)
| rs2_motion (fps : Z) (format : rs2_format)
| rs2_other.

Record rs2_stream_profile : Type := {
  stream_name : string;
  stream_type : rs2_stream;
  data : rs2_profile_data;
  is_default : bool;
}.

Record rs2_sensor : Type := {
  sensor_info_name : string;
  stream_profiles : list rs2_stream_profile;
}.

(** A stream server as constructed: its class, stream name and sensor
    name. *)
Record server_object : Type := {
  kind : Device.stream_kind;
  name : string;
  sensor_name : string;
}.

(** A stream server after [init_profiles]. *)
Record dds_stream_server : Type := {
  object : server_object;
  profiles : list dds_stream_profile;
  default_profile_index : nat;
}.

(** The four maps of [get_supported_streams]. *)
Record maps : Type := {
  name_to_profiles : gmap string (list dds_stream_profile);
  name_to_default_profile : gmap string nat;
  name_to_sensor : gmap string string;
  name_to_server : gmap string (option server_object);
}.

Definition no_maps : maps :=
  {| name_to_profiles := ∅; name_to_default_profile := ∅;
     name_to_sensor := ∅; name_to_server := ∅ |}.

(** The profile made of an rs2 profile; [None] for a profile that is
    neither video nor motion. *)
Definition to_dds_profile (d : rs2_profile_data) : option dds_stream_profile :=
  match d with
  | rs2_video fps fmt w h =>
      Some (dds_video_stream_profile (to_int16 fps) (from_rs2 fmt)
                                     (to_uint16 w) (to_int16 h))
  | rs2_motion fps fmt =>
      Some (dds_motion_stream_profile (to_int16 fps) (from_rs2 fmt))
  | rs2_other => None
  end.

(** The body of the lambda once the server of the stream is settled. *)
Definition record_profile (the_sensor : string) (sp : rs2_stream_profile)
    (servers : gmap string (option server_object)) (st : maps) : maps :=
  let n := stream_name sp in
  let sensors := <[n := the_sensor]> (name_to_sensor st) in
  let ps := default [] (name_to_profiles st !! n) in
  match to_dds_profile (data sp) with
  | None =>
      (* unknown profile type: the entry of [name_to_profiles] exists *)
      {| name_to_profiles := <[n := ps]> (name_to_profiles st);
         name_to_default_profile := name_to_default_profile st;
         name_to_sensor := sensors;
         name_to_server := servers |}
  | Some profile =>
      {| name_to_profiles := <[n := (ps ++ [profile])%list]> (name_to_profiles st);
         name_to_default_profile :=
           if is_default sp
           then <[n := length ps]> (name_to_default_profile st)
           else name_to_default_profile st;
         name_to_sensor := sensors;
         name_to_server := servers |}
  end.

Definition with_servers (servers : gmap string (option server_object))
    (st : maps) : maps :=
  {| name_to_profiles := name_to_profiles st;
     name_to_default_profile := name_to_default_profile st;
     name_to_sensor := name_to_sensor st;
     name_to_server := servers |}.

(** The lambda [get_supported_streams] runs on every profile of a
    sensor. *)
Definition on_profile (the_sensor : string) (st : maps)
    (sp : rs2_stream_profile) : maps :=
  let n := stream_name sp in
  let server := default None (name_to_server st !! n) in
  let servers := <[n := server]> (name_to_server st) in
  match server_kind (stream_type sp) with
  | None => with_servers servers st (* unsupported stream type *)
  | Some k =>
      match server with
      | Some s =>
          if negb (String.eqb (Device.type_string (kind s)) (Device.type_string k))
          then with_servers servers st (* a stream that already has a type *)
          else record_profile the_sensor sp servers st
      | None =>
          record_profile the_sensor sp
            (<[n := Some {| kind := k; name := n; sensor_name := the_sensor |}]>
               servers) st
      end
  end.

Definition on_sensor (st : maps) (sensor : rs2_sensor) : maps :=
  fold_left (on_profile (sensor_info_name sensor)) (stream_profiles sensor) st.

(** The second loop, over the entries of [name_to_profiles]. *)
Definition make_server (st : maps) (it : string * list dds_stream_profile)
  : option dds_stream_server :=
  let default_index := default 0 (name_to_default_profile st !! it.1) in
  match it.2 with
  | [] => None (* ignoring stream with no profiles *)
  | _ =>
      match default None (name_to_server st !! it.1) with
      | None => None (* ignoring stream with no server *)
      | Some server =>
          Some {| object := server; profiles := it.2;
                  default_profile_index := default_index |}
      end
  end.

(** The entries of a map in the order of their keys. *)
Definition entries_in_order {V} (m : gmap string V) : list (string * V) :=
  merge_sort (fun a b => Is_true (String.leb a.1 b.1)) (map_to_list m).

Definition get_supported_streams (sensors : list rs2_sensor)
  : list dds_stream_server :=
  let st := fold_left on_sensor sensors no_maps in
  omap (make_server st) (entries_in_order (name_to_profiles st)).

(** What [get_supported_streams] keeps true of its maps. *)
Definition maps_inv (st : maps) : Prop :=
  (∀ n i, name_to_default_profile st !! n = Some i ->
          ∃ ps, name_to_profiles st !! n = Some ps ∧ i < length ps)
  ∧ (∀ n ps, name_to_profiles st !! n = Some ps ->
             ∃ s, name_to_server st !! n = Some (Some s) ∧ name s = n)
  ∧ (∀ n s, name_to_server st !! n = Some (Some s) -> name s = n).

End WithFormats.

(** A depth sensor with two profiles, the second the default one, and a
    profile of a stream type without a server class. *)
Definition stereo_module : @rs2_sensor string :=
  {| sensor_info_name := "Stereo Module";
     stream_profiles :=
       [ {| stream_name := "Depth"; stream_type := RS2_STREAM_DEPTH;
            data := rs2_video 30 "Z16" 640 480; is_default := false |};
         {| stream_name := "Depth"; stream_type := RS2_STREAM_DEPTH;
            data := rs2_video 30 "Z16" 1280 720; is_default := true |};
         {| stream_name := "Gpio"; stream_type := RS2_STREAM_GPIO;
            data := rs2_other; is_default := false |} ] |}.

End SupportedStreams.


(** ** Stream types and options of the controller (lrs-device-controller.cpp) *)

Module ControllerMore.
Import Profiles SupportedStreams.

(** The static table of [type_string_to_rs2_stream]. *)
Definition type_to_rs2 : gmap string rs2_stream :=
  list_to_map
    [ ("depth", RS2_STREAM_DEPTH);
      ("color", RS2_STREAM_COLOR);
      ("ir", RS2_STREAM_INFRARED);
      ("fisheye", RS2_STREAM_FISHEYE);
      ("gyro", RS2_STREAM_GYRO);
      ("accel", RS2_STREAM_ACCEL);
      ("pose", RS2_STREAM_POSE);
      ("confidence", RS2_STREAM_CONFIDENCE) ].

Definition type_string_to_rs2_stream (type_string : string) : rs2_stream :=
  match type_to_rs2 !! type_string with
  | None => RS2_STREAM_ANY (* unknown stream type *)
  | Some t => t
  end.

(** The static table of [stream_name_to_type]. *)
Definition name_to_rs2 : gmap string rs2_stream :=
  list_to_map
    [ ("Depth", RS2_STREAM_DEPTH);
      ("Color", RS2_STREAM_COLOR);
      ("Infrared", RS2_STREAM_INFRARED);
      ("Infrared_1", RS2_STREAM_INFRARED);
      ("Infrared_2", RS2_STREAM_INFRARED);
      ("Fisheye", RS2_STREAM_FISHEYE);
      ("Gyro", RS2_STREAM_GYRO);
      ("Accel", RS2_STREAM_ACCEL);
      ("Gpio", RS2_STREAM_GPIO);
      ("Pose", RS2_STREAM_POSE);
      ("Confidence", RS2_STREAM_CONFIDENCE) ].

Definition stream_name_to_type (type_string : string) : rs2_stream :=
  match name_to_rs2 !! type_string with
  | None => RS2_STREAM_ANY (* unknown stream type *)
  | Some t => t
  end.

(** The static table of [stream_name_to_index]. *)
Definition type_to_index : gmap string Z :=
  list_to_map [ ("Infrared_1", 1%Z); ("Infrared_2", 2%Z) ].

Definition stream_name_to_index (type_string : string) : Z :=
  let index := 0%Z in
  match type_to_index !! type_string with
  | Some i => i
  | None => index
  end.

(** The second argument of [TYPE2STREAM] (dds-device-impl.cpp): the class
    of the profiles the client parses for a stream of each class. *)
Inductive profile_class : Type := video | motion.

Definition type2profile (k : Device.stream_kind) : profile_class :=
  match k with
  | Device.depth => video
  | Device.ir => video
  | Device.color => video
  | Device.accel => motion
  | Device.gyro => motion
  | Device.fisheye => video
  | Device.confidence => video
  | Device.pose => motion
  end.

Inductive create_error (E : Type) : Type :=
| unsupported_stream_type
| from_json_error (e : E).
Arguments unsupported_stream_type {E}.
Arguments from_json_error {E} e.

Section Create.

(** [dds_stream_profile::from_json< dds_video_stream_profile >] and
    [from_json< dds_motion_stream_profile >] (not among the sources);
    either may throw. *)
Context {json E : Type}.
Variable from_json_video : json -> result E dds_stream_profile.
Variable from_json_motion : json -> result E dds_stream_profile.

Definition from_json (c : profile_class) (j : json)
  : result (create_error E) dds_stream_profile :=
  match (match c with
         | video => from_json_video j
         | motion => from_json_motion j
         end) with
  | Ok p => Ok p
  | Throw e => Throw (from_json_error e)
  end.

Definition create_dds_stream_profile (type : rs2_stream) (j : json)
  : result (create_error E) dds_stream_profile :=
  match type with
  | RS2_STREAM_DEPTH
  | RS2_STREAM_COLOR
  | RS2_STREAM_INFRARED
  | RS2_STREAM_FISHEYE
  | RS2_STREAM_CONFIDENCE => from_json video j
  | RS2_STREAM_GYRO
  | RS2_STREAM_ACCEL
  | RS2_STREAM_POSE => from_json motion j
  | _ => Throw unsupported_stream_type
  end.

End Create.

Section Options.

(** [RS2_OPTION_COUNT], and [sensor.get_option_name] on the options
    below it. *)
Variable RS2_OPTION_COUNT : nat.
Variable get_option_name : nat -> string.

Inductive option_error : Type :=
| option_type_not_found (name : string).

(** The loop of [option_name_to_type] from [i] on, [n] options left. *)
Fixpoint option_from (name : string) (i n : nat) : result option_error nat :=
  match n with
  | 0 => Throw (option_type_not_found name)
  | S n' =>
      if String.eqb name (get_option_name i) then Ok i
      else option_from name (S i) n'
  end.

Definition option_name_to_type (name : string) : result option_error nat :=
  option_from name 0 RS2_OPTION_COUNT.

End Options.

Section Extrinsics.

(** An [rs2::stream_profile] by its [stream_name()], and
    [from_profile.get_extrinsics_to( to_profile )], which may throw;
    [to_realdds] copies the rotation and the translation. *)
Context {profile extrinsics E : Type}.
Variable stream_name : profile -> string.
Variable get_extrinsics_to : profile -> profile -> result E extrinsics.

(** The first loop: any profile of a stream will do, the first is
    taken. *)
Definition keep_first (m : gmap string profile) (sp : profile)
  : gmap string profile :=
  match m !! stream_name sp with
  | None => <[stream_name sp := sp]> m
  | Some _ => m
  end.

Definition stream_name_to_rs2_stream_profile (sensors : list (list profile))
  : gmap string profile :=
  fold_left (fun m stream_profiles => fold_left keep_first stream_profiles m)
            sensors ∅.

Definition extrinsics_map : Type := gmap (string * string) extrinsics.

(** The inner loop, over the streams [to]. *)
Fixpoint extrinsics_from (from : string * profile)
    (tos : list (string * profile)) (ret : extrinsics_map)
  : result E extrinsics_map :=
  match tos with
  | [] => Ok ret
  | to :: tos' =>
      if negb (String.eqb from.1 to.1)
      then match get_extrinsics_to from.2 to.2 with
           | Throw e => Throw e
           | Ok x => extrinsics_from from tos' (<[(from.1, to.1) := x]> ret)
           end
      else extrinsics_from from tos' ret
  end.

(** The outer loop, over the streams [from]. *)
Fixpoint extrinsics_each (froms tos : list (string * profile))
    (ret : extrinsics_map) : result E extrinsics_map :=
  match froms with
  | [] => Ok ret
  | from :: froms' =>
      match extrinsics_from from tos ret with
      | Throw e => Throw e
      | Ok ret' => extrinsics_each froms' tos ret'
      end
  end.

Definition get_extrinsics_map (sensors : list (list profile))
  : result E extrinsics_map :=
  let streams := entries_in_order (stream_name_to_rs2_stream_profile sensors) in
  extrinsics_each streams streams ∅.

End Extrinsics.

(** One assignment [ret[key] = value]. *)
Definition write {K V} `{Countable K} (m : gmap K V) (kv : K * V) : gmap K V :=
  <[kv.1 := kv.2]> m.

Section ExtrinsicsShape.
Context {profile extrinsics : Type}.
Variable stream_name : profile -> string.
Variable ext : profile -> profile -> extrinsics.

(** The first profile of a stream among the profiles of the sensors. *)
Definition first_of (a : string) (sps : list profile) : option profile :=
  List.find (fun sp => String.eqb a (stream_name sp)) sps.

(** The assignments of the inner loop when nothing throws. *)
Definition written_from (from : string * profile)
    (tos : list (string * profile)) : list ((string * string) * extrinsics) :=
  omap (fun to : string * profile =>
          if negb (String.eqb from.1 to.1)
          then Some ((from.1, to.1), ext from.2 to.2)
          else None) tos.
End ExtrinsicsShape.

(** Two streams of a sensor, for the examples: profile numbers, and the
    stream each belongs to. *)
Definition sample_stream_name (uid : nat) : string :=
  match uid with
  | 0 | 1 => "Depth"
  | _ => "Color"
  end.

Definition sample_extrinsics (a b : nat) : result unit (nat * nat) := Ok (a, b).

(** The names of five options, two of them alike, for the examples. *)
Definition sample_option_name (i : nat) : string :=
  match i with
  | 0 => "Backlight Compensation"
  | 1 => "Brightness"
  | 2 => "Contrast"
  | 3 => "Exposure"
  | 4 => "Brightness"
  | _ => ""
  end.

End ControllerMore.

(** ** The calls [start_streaming] makes on the bridge *)

Module BridgeCalls.
Import Profiles Controller.

(** A call on the stream-sensor bridge. *)
Inductive call : Type :=
| reset_call
| open_call (stream_name : string) (profile : dds_stream_profile)
| commit_call.

Section Recording.

(** Whether the bridge accepts an [open] and the [commit]; a refusal is
    an exception. *)
Variable open_accepted : string -> dds_stream_profile -> bool.
Variable commit_accepted : bool.

(** A bridge that records the calls made on it, oldest first. *)
Definition bridge : Type := list call.

Definition bridge_reset (b : bridge) : bridge := (b ++ [reset_call])%list.

Definition bridge_open (stream_name : string) (p : dds_stream_profile)
    (b : bridge) : result error unit * bridge :=
  (if open_accepted stream_name p then Ok tt else Throw bridge_error,
   (b ++ [open_call stream_name p])%list).

Definition bridge_commit (b : bridge) : result error unit * bridge :=
  (if commit_accepted then Ok tt else Throw bridge_error,
   (b ++ [commit_call])%list).

End Recording.

Definition is_open (c : call) : bool :=
  match c with
  | open_call _ _ => true
  | _ => false
  end.

Section Requests.
Context {json : Type}.
Variable create_dds_stream_profile :
  string -> json -> result error dds_stream_profile.
Variable _stream_name_to_server : gmap string (option dds_stream_server).

(** The call opens, for the item of an [open-streams] message, a profile
    of the stream the item names that is compatible with the requested
    one, format included. *)
Definition opens (name2profile : string * json) (c : call) : Prop :=
  ∃ server requested_profile profile,
    _stream_name_to_server !! name2profile.1 = Some (Some server)
    ∧ create_dds_stream_profile (type_string server) name2profile.2
      = Ok requested_profile
    ∧ In profile (profiles server)
    ∧ profiles_are_compatible profile requested_profile false = true
    ∧ c = open_call (name server) profile.

(** The call a request starts with: [reset()] unless the message says
    [reset: false]. *)
Definition reset_calls (msg : @open_streams json) : list call :=
  if json_get_bool (reset msg) true then [reset_call] else [].

End Requests.

(** A request for 640x480 depth at 30 Hz, by the fields of its JSON. *)
Definition sample_create (type_string : string) (j : Z * Z * Z)
  : result error dds_stream_profile :=
  Ok (dds_video_stream_profile j.1.1 "Z16" j.1.2 j.2).

Definition sample_servers : gmap string (option dds_stream_server) :=
  {[ "Depth" := Some {| name := "Depth"; sensor_name := "Stereo Module";
                        type_string := "depth";
                        profiles := [dds_video_stream_profile 30 "Z16" 1280 720;
                                     dds_video_stream_profile 30 "Z16" 640 480] |} ]}.

Definition sample_request : @open_streams (Z * Z * Z) :=
  {| reset := None; commit := None;
     stream_profiles := [("Depth", (30, 640, 480)%Z)] |}.

End BridgeCalls.
(** * Properties *)

(** ** Topic roots *)

Module TopicRootFacts.
Import StdString TopicRoot.

Lemma drop_front_app (p s : string) :
  drop_front (String.length p) (p +:+ s) = s.
Proof. induction p as [|c p IH]; simpl; [reflexivity | exact IH]. Qed.

Lemma string_length_app (p s : string) :
  String.length (p +:+ s) = String.length p + String.length s.
Proof. induction p as [|c p IH]; simpl; [reflexivity | now rewrite IH]. Qed.

Lemma length_drop_front (n : nat) (s : string) :
  String.length (drop_front n s) = String.length s - n.
Proof.
  revert s. induction n as [|n IH]; intros s; cbn [drop_front]; [lia|].
  destruct s as [|c s]; cbn [String.length]; [reflexivity | apply IH].
Qed.

(** When [strncmp] finds the first [length p] characters of [a] equal to
    [p], [a] is [p] followed by the rest of [a]. *)
Lemma strncmp_eq_prefix (p a : string) :
  no_nul p = true -> String.length p <= String.length a ->
  strncmp_eq a p (String.length p) = true ->
  a = p +:+ drop_front (String.length p) a.
Proof.
  revert a. induction p as [|d p IH]; intros a Hnn Hlen Hcmp; [reflexivity|].
  destruct a as [|c a]; [cbn in Hlen; lia|].
  cbn [no_nul] in Hnn. apply andb_true_iff in Hnn as [Hd Hnn].
  apply negb_true_iff in Hd.
  cbn [String.length strncmp_eq] in Hcmp.
  destruct (Ascii.eqb_spec c d) as [->|]; [|discriminate].
  rewrite Hd in Hcmp.
  change (String d a = String d (p +:+ drop_front (String.length p) a)).
  f_equal.
  apply IH; [exact Hnn | cbn in Hlen; lia | exact Hcmp].
Qed.

(** The broadcaster throws exactly on the names shorter than the prefix. *)
Lemma broadcaster_throws_iff (dev_name dev_sn : string) :
  Broadcaster.get_topic_root dev_name dev_sn = None
  <-> String.length dev_name < 16.
Proof.
  unfold Broadcaster.get_topic_root, substr. simpl String.length.
  destruct (decide (16 <= String.length dev_name)); simpl; split;
    intros; try congruence; lia.
Qed.

(** The server leaves alone a name of at most 16 characters. *)
Lemma server_keeps_short_name (name serial : string) :
  String.length name <= 16 ->
  Server.get_topic_root name serial = RS_ROOT +:+ name +:+ "/" +:+ serial.
Proof.
  intros Hlen. unfold Server.get_topic_root, Server.DEVICE_NAME_PREFIX_CCH.
  destruct (Nat.ltb_spec 16 (String.length name)); [lia | reflexivity].
Qed.

(** The two functions are not equal: on the name ["D435"] the
    broadcaster throws [std::out_of_range] where the server answers
    ["realsense/D435/1"]. *)
Lemma get_topic_root_differ_on_short_name :
  ¬ (∀ dev_name dev_sn : string,
       Broadcaster.get_topic_root dev_name dev_sn
       = Some (Server.get_topic_root dev_name dev_sn)
       ∧ Server.get_topic_root dev_name dev_sn = spec_topic_root dev_name dev_sn).
Proof.
  intros H. destruct (H "D435" "1") as [Hb _].
  vm_compute in Hb. discriminate Hb.
Qed.

(** Where the guard of the server is passed, the two agree: for every
    name made of the prefix ["Intel RealSense "] and a non-empty model,
    and every serial, both yield ["realsense/" + model + "/" + serial],
    which is also what the specification's formula gives. *)
Lemma get_topic_root_agree_on_prefixed_names (model dev_sn : string) :
  model ≠ "" ->
  Broadcaster.get_topic_root (DEVICE_NAME_PREFIX +:+ model) dev_sn
  = Some (RS_ROOT +:+ model +:+ "/" +:+ dev_sn)
  ∧ Server.get_topic_root (DEVICE_NAME_PREFIX +:+ model) dev_sn
    = RS_ROOT +:+ model +:+ "/" +:+ dev_sn
  ∧ spec_topic_root (DEVICE_NAME_PREFIX +:+ model) dev_sn
    = RS_ROOT +:+ model +:+ "/" +:+ dev_sn.
Proof.
  intros Hne. destruct model as [|c model]; [congruence|].
  repeat split; reflexivity.
Qed.

(** The two functions agree on no other name. *)
Lemma get_topic_root_agree_only_on_prefixed_names (dev_name dev_sn : string) :
  Broadcaster.get_topic_root dev_name dev_sn
  = Some (Server.get_topic_root dev_name dev_sn)
  -> ∃ model, model ≠ "" ∧ dev_name = DEVICE_NAME_PREFIX +:+ model.
Proof.
  unfold Broadcaster.get_topic_root, Server.get_topic_root, substr,
    Server.DEVICE_NAME_PREFIX_CCH, erase_front.
  change (String.length DEVICE_NAME_PREFIX) with 16.
  destruct (decide (16 <= String.length dev_name)) as [Hlen|Hlen];
    [|discriminate].
  cbn [mbind option_bind].
  destruct (Nat.ltb_spec 16 (String.length dev_name)) as [Hlt|Hle];
    cbn [andb].
  - destruct (strncmp_eq dev_name DEVICE_NAME_PREFIX 16) eqn:Hcmp.
    + intros _. exists (drop_front 16 dev_name). split.
      * intros Hempty. apply (f_equal String.length) in Hempty.
        rewrite length_drop_front in Hempty. cbn in Hempty. lia.
      * apply (strncmp_eq_prefix DEVICE_NAME_PREFIX dev_name);
          [reflexivity | exact Hlen | exact Hcmp].
    + intros H%(inj Some). apply (f_equal String.length) in H.
      rewrite !string_length_app, length_drop_front in H. lia.
  - intros H%(inj Some). apply (f_equal String.length) in H.
    rewrite !string_length_app, length_drop_front in H. lia.
Qed.

Lemma get_topic_root_agree_on_D435 :
  "D435" ≠ ""
  ∧ Broadcaster.get_topic_root "Intel RealSense D435" "112233"
    = Some "realsense/D435/112233"
  ∧ Server.get_topic_root "Intel RealSense D435" "112233"
    = "realsense/D435/112233"
  ∧ spec_topic_root "Intel RealSense D435" "112233" = "realsense/D435/112233".
Proof.
  split; [discriminate|].
  apply (get_topic_root_agree_on_prefixed_names "D435" "112233").
  discriminate.
Defined.

Lemma prefix_length (p s : string) :
  String.prefix p s = true -> String.length p <= String.length s.
Proof.
  revert s. induction p as [|a p IH]; intros s; [cbn; lia|].
  destruct s as [|b s]; cbn [String.prefix String.length]; [discriminate|].
  destruct (ascii_dec a b); [|discriminate].
  intros H%IH. lia.
Qed.

(** C3: the broadcaster's [get_topic_root] misses the guard the server's
    has.  On every device name shorter than the 16 characters of the
    prefix, and every serial, the server's [get_topic_root] returns
    ["realsense/" + name + "/" + serial], which is what the
    specification's formula gives for a name without the prefix, while
    the broadcaster's [substr( 16 )] throws [std::out_of_range]: the two
    are not equal as functions of the name and the serial. *)
Theorem broadcaster_get_topic_root_misses_the_guard (dev_name dev_sn : string) :
  String.length dev_name < 16 ->
  Broadcaster.get_topic_root dev_name dev_sn = None
  ∧ Server.get_topic_root dev_name dev_sn
    = RS_ROOT +:+ dev_name +:+ "/" +:+ dev_sn
  ∧ spec_topic_root dev_name dev_sn
    = RS_ROOT +:+ dev_name +:+ "/" +:+ dev_sn.
Proof.
  intros Hlen. split; [now apply broadcaster_throws_iff|].
  split; [apply server_keeps_short_name; lia|].
  unfold spec_topic_root, spec_strip_prefix.
  destruct (String.prefix DEVICE_NAME_PREFIX dev_name) eqn:Hp; [|reflexivity].
  apply prefix_length in Hp. cbn in Hp. lia.
Qed.

Lemma broadcaster_get_topic_root_throws_on_D435 :
  String.length "D435" < 16
  ∧ Broadcaster.get_topic_root "D435" "1" = None
  ∧ Server.get_topic_root "D435" "1" = "realsense/D435/1"
  ∧ spec_topic_root "D435" "1" = "realsense/D435/1".
Proof.
  split; [cbn; lia|].
  apply (broadcaster_get_topic_root_misses_the_guard "D435" "1").
  cbn. lia.
Defined.

End TopicRootFacts.

(** ** Profile matching *)

Module ProfileFacts.
Import Profiles.

(** C6: [profiles_are_compatible] holds exactly when the two profiles are of
    the same kind, have equal width and height when both are video, have
    equal frequency and, unless [any_format] is set, equal format. *)
Theorem profiles_are_compatible_iff
    (p1 p2 : dds_stream_profile) (any_format : bool) :
  profiles_are_compatible p1 p2 any_format = true
  <-> is_video p1 = is_video p2
      ∧ (is_video p1 = true -> is_video p2 = true ->
         width p1 = width p2 ∧ height p1 = height p2)
      ∧ frequency p1 = frequency p2
      ∧ (any_format = false -> format p1 = format p2).
Proof.
  unfold profiles_are_compatible, is_video, width, height.
  destruct p1 as [f1 fmt1 w1 h1 | f1 fmt1], p2 as [f2 fmt2 w2 h2 | f2 fmt2];
    cbn [as_video frequency format fmap option_fmap option_map fst snd];
    rewrite ?bool_decide_eq_true_2, ?bool_decide_eq_false_2
      by (try apply is_Some_None; eauto); cbn [Bool.eqb negb].
  - destruct (Z.eqb_spec w1 w2), (Z.eqb_spec h1 h2); cbn [negb orb];
      try (split; [discriminate | intros (_ & Hwh & _); destruct Hwh as [? ?];
                                  [reflexivity ..| congruence]]).
    destruct any_format; cbn [negb andb];
      destruct (String.eqb_spec fmt1 fmt2); cbn [negb];
      destruct (Z.eqb_spec f1 f2); subst; split;
      try discriminate; try tauto;
      try (intros (_ & _ & ? & ?); auto; congruence);
      intros _; repeat split; auto; discriminate.
  - split; [discriminate | intros [? _]; discriminate].
  - split; [discriminate | intros [? _]; discriminate].
  - destruct any_format; cbn [negb andb];
      destruct (String.eqb_spec fmt1 fmt2); cbn [negb];
      destruct (Z.eqb_spec f1 f2); subst; split;
      try discriminate; try tauto;
      try (intros (_ & _ & ? & ?); auto; congruence);
      intros _; repeat split; auto; discriminate.
Qed.

Lemma find_profile_Some (ps : list dds_stream_profile)
    (p found : dds_stream_profile) (any_format : bool) :
  find_profile ps p any_format = Some found ->
  In found ps ∧ profiles_are_compatible found p any_format = true.
Proof. apply List.find_some. Qed.

Lemma find_profile_None (ps : list dds_stream_profile)
    (p : dds_stream_profile) (any_format : bool) :
  find_profile ps p any_format = None <->
  ∀ sp, In sp ps -> profiles_are_compatible sp p any_format = false.
Proof.
  split; [apply List.find_none|].
  intros H. unfold find_profile.
  destruct (List.find _ ps) as [sp|] eqn:E; [|reflexivity].
  apply List.find_some in E as [Hin Hc]. rewrite (H _ Hin) in Hc. discriminate.
Qed.

End ProfileFacts.

(** ** The broadcaster's handle map *)

Module BroadcasterFacts.
Import Broadcaster BroadcasterShape.

Lemma with_handles_id (w : world) : with_handles (handles w) w = w.
Proof. destruct w as [[a t m] n]. reflexivity. Qed.

Lemma handles_with_handles (m : gmap string dds_device_handle) (w : world) :
  handles (with_handles m w) = m.
Proof. reflexivity. Qed.

Lemma net_with_handles (m : gmap string dds_device_handle) (w : world) :
  net (with_handles m w) = net w.
Proof. reflexivity. Qed.

Lemma remove_device_unfold (P : publisher) (dev : rs2_device) (w : world) :
  remove_device P dev w
  = remove_dds_device P (RS2_CAMERA_INFO_SERIAL_NUMBER dev) w.
Proof.
  unfold remove_device, handle_device_changes. cbn [remove_all].
  destruct (remove_dds_device P _ w) as [[[]|f] w']; reflexivity.
Qed.

Lemma add_device_unfold (P : publisher) (dev : rs2_device) (w : world) :
  (add_device P dev w).2
  = (add_dds_device P (RS2_CAMERA_INFO_SERIAL_NUMBER dev) dev w).2.
Proof. reflexivity. Qed.

Lemma index_lookup (k : string) (m : gmap string dds_device_handle) :
  (index k m).2 !! k = Some (index k m).1.
Proof.
  unfold index. destruct (m !! k) eqn:E; cbn [fst snd]; [exact E|].
  apply lookup_insert_eq.
Qed.

Lemma handles_unmatch (w' : world) (dw : writer) :
  handles {| bc := bc w'; net := unmatch_writer dw (net w') |} = handles w'.
Proof. reflexivity. Qed.

(** C10: [remove_device] erases the entry of the serial exactly when
    [delete_datawriter] returns [RETCODE_OK]; on any other code the entry is
    kept; and for a serial without an entry, [operator[]] first inserts the
    default handle, whose writer is null, so that when deleting that null
    writer is refused the map is left with the inserted handle instead of
    as it was. *)
Theorem remove_device_erases_only_on_success
    (P : publisher) (dev : rs2_device) (w : world) :
  let sn := RS2_CAMERA_INFO_SERIAL_NUMBER dev in
  let h := (index sn (handles w)).1 in
  let ret := delete_datawriter P (data_writer h) in
  let w' := (remove_device P dev w).2 in
  (ret = RETCODE_OK -> handles w' !! sn = None)
  ∧ (ret ≠ RETCODE_OK -> handles w' !! sn = Some h)
  ∧ (handles w !! sn = None ->
     data_writer h = None
     ∧ (index sn (handles w)).2 = <[sn := default_handle]> (handles w)
     ∧ (ret ≠ RETCODE_OK ->
        handles w' = <[sn := default_handle]> (handles w)
        ∧ handles w' ≠ handles w)).
Proof.
  intros sn h ret w'. subst w'. rewrite remove_device_unfold. fold sn.
  unfold remove_dds_device.
  pose proof (index_lookup sn (handles w)) as Hidx.
  destruct (index sn (handles w)) as [h0 m] eqn:Ei.
  cbn [fst snd] in *. subst h. fold ret.
  assert (Hcases : (ret = RETCODE_OK ∧ is_RETCODE_OK ret = true)
                   ∨ (ret ≠ RETCODE_OK ∧ is_RETCODE_OK ret = false))
    by (destruct ret; [left | right ..]; split; (reflexivity || discriminate)).
  split; [|split].
  - intros Hok. destruct Hcases as [[_ ->]|[Hne _]]; [|contradiction].
    cbn [negb]. cbn [snd].
    destruct (data_writer h0); [rewrite handles_unmatch|];
      rewrite handles_with_handles; apply lookup_delete_eq.
  - intros Hne. destruct Hcases as [[Hok _]|[_ ->]]; [contradiction|].
    cbn [negb]. destruct (data_writer h0); cbn [snd];
      rewrite handles_with_handles; exact Hidx.
  - intros Hnone. unfold index in Ei. rewrite Hnone in Ei.
    injection Ei as <- <-. cbn [data_writer default_handle].
    split; [reflexivity|]. split; [reflexivity|].
    intros Hne. destruct Hcases as [[Hok _]|[_ ->]]; [contradiction|].
    cbn [negb snd]. rewrite handles_with_handles.
    split; [reflexivity|].
    intros Heq. rewrite <- Heq in Hnone.
    rewrite lookup_insert_eq in Hnone. discriminate.
Qed.

Lemma remove_device_never_added :
  handles (remove_device sample_publisher D435 initial).2
  = <["112233" := default_handle]> ∅
  ∧ handles (remove_device sample_publisher D435 initial).2 ≠ ∅.
Proof.
  pose proof (remove_device_erases_only_on_success sample_publisher D435 initial)
    as (_ & _ & H).
  apply H; [reflexivity|].
  cbn. discriminate.
Defined.

(** C8, as the specification words it, fails: adding a D435 to a running
    broadcaster writes no record and leaves the new listener's flag clear. *)
Lemma add_device_neither_posts_nor_arms :
  ¬ (∀ (P : publisher) (dev : rs2_device) (w : world),
       let sn := RS2_CAMERA_INFO_SERIAL_NUMBER dev in
       let w' := (add_device P dev w).2 in
       handles w !! sn = None -> is_Some (create_datawriter P sn) ->
       is_Some (handles w' !! sn)
       ∧ length (written (net w')) = S (length (written (net w)))
       ∧ ∃ h l, handles w' !! sn = Some h ∧ listener h = Some l
                ∧ _new_reader_joined l = true).
Proof.
  intros H.
  destruct (H sample_publisher D435 initial) as (_ & Hw & _);
    [reflexivity | cbn; eauto |].
  vm_compute in Hw. discriminate Hw.
Qed.

(** C8 (amended): [add_device] registers, for a serial that has no handle
    yet, a handle under the device's serial holding the device, the writer
    just created and a listener whose needs-send flag is clear; a serial
    that has a handle keeps it.  No record is written at the time of the
    add.  The flag of the new handle is armed, and the announcer triggered,
    when a reader matches its writer. *)
Theorem add_device_registers_unarmed
    (P : publisher) (dev : rs2_device) (w : world) :
  let sn := RS2_CAMERA_INFO_SERIAL_NUMBER dev in
  let w' := (add_device P dev w).2 in
  let h := {| device := Some dev;
              data_writer := create_datawriter P sn;
              listener := Some {| _new_reader_joined := false |} |} in
  (handles w !! sn = None -> handles w' = <[sn := h]> (handles w))
  ∧ (is_Some (handles w !! sn) -> handles w' = handles w)
  ∧ net w' = net w
  ∧ (handles w !! sn = None ->
     let w'' := on_publication_matched sn 1 w' in
     handles w'' !! sn
     = Some {| device := Some dev;
               data_writer := create_datawriter P sn;
               listener := Some {| _new_reader_joined := true |} |}
     ∧ _trigger_msg_send (bc w'') = true
     ∧ net w'' = net w).
Proof.
  intros sn w' h. subst w'. rewrite add_device_unfold. fold sn. fold h.
  unfold add_dds_device, create_device_writer.
  split; [|split; [|split]].
  - intros ->. reflexivity.
  - intros [h0 ->]. reflexivity.
  - destruct (handles w !! sn); reflexivity.
  - intros ->. cbn [snd]. unfold on_publication_matched.
    cbn [Z.eqb Pos.eqb]. rewrite handles_with_handles, lookup_insert_eq.
    cbn [listener]. unfold set_new_reader_joined.
    rewrite !handles_with_handles.
    split; [|split; reflexivity].
    cbn. rewrite lookup_alter_eq, lookup_insert_eq. reflexivity.
Qed.

Lemma add_device_registers_unarmed_D435 :
  handles (add_device sample_publisher D435 initial).2
  = <["112233" := {| device := Some D435;
                     data_writer := Some 7;
                     listener := Some {| _new_reader_joined := false |} |}]> ∅
  ∧ written (net (add_device sample_publisher D435 initial).2) = [].
Proof.
  pose proof (add_device_registers_unarmed sample_publisher D435 initial)
    as (H1 & _ & H3 & _).
  split; [apply H1; reflexivity | rewrite H3; reflexivity].
Defined.

End BroadcasterFacts.

(** ** The announcer *)

Module AnnouncerFacts.
Import Broadcaster BroadcasterShape BroadcasterFacts.

Lemma handles_ok_all_ok (m : gmap string dds_device_handle) :
  handles_ok m = true <-> all_ok m.
Proof. unfold handles_ok. rewrite bool_decide_eq_true. reflexivity. Qed.

Lemma handle_ok_inv (k : string) (h : dds_device_handle) :
  handle_ok k h = true ->
  ∃ d dw l, device h = Some d ∧ data_writer h = Some dw ∧ listener h = Some l
            ∧ RS2_CAMERA_INFO_SERIAL_NUMBER d = k
            ∧ 16 <= String.length (RS2_CAMERA_INFO_NAME d).
Proof.
  unfold handle_ok.
  destruct (device h) as [d|], (data_writer h) as [dw|], (listener h) as [l|];
    try discriminate.
  intros [Hs Hl]%andb_true_iff.
  exists d, dw, l. repeat split; auto.
  - now apply String.eqb_eq.
  - now apply Nat.leb_le.
Qed.

Lemma query_device_info_ok (d : rs2_device) :
  16 <= String.length (RS2_CAMERA_INFO_NAME d) ->
  query_device_info (Some d) = Ok (info_of d).
Proof.
  intros Hlen. unfold query_device_info, get_topic_root,
    TopicRoot.Broadcaster.get_topic_root, StdString.substr.
  cbn [String.length TopicRoot.DEVICE_NAME_PREFIX].
  destruct (decide (16 <= String.length (RS2_CAMERA_INFO_NAME d))); [|lia].
  reflexivity.
Qed.

(** What the loop body does to a well-formed handle. *)
Lemma announce_handle_ok (P : publisher) (k : string) (w : world)
    (h : dds_device_handle) (d : rs2_device) (dw : writer)
    (l : dds_client_listener) :
  handles w !! k = Some h -> device h = Some d -> data_writer h = Some dw ->
  listener h = Some l -> RS2_CAMERA_INFO_SERIAL_NUMBER d = k ->
  16 <= String.length (RS2_CAMERA_INFO_NAME d) ->
  announce_handle P k w
  = (Ok tt,
     if _new_reader_joined l && write P dw
     then set_new_reader_joined k false
            {| bc := bc w; net := deliver dw (info_of d) (net w) |}
     else w).
Proof.
  intros Hk Hd Hdw Hl Hs Hlen. unfold announce_handle.
  rewrite Hk, Hl. destruct (_new_reader_joined l); [|reflexivity].
  rewrite Hd, (query_device_info_ok d Hlen).
  unfold send_device_info_msg. cbn [serial info_of]. rewrite Hs.
  unfold index. rewrite Hk, with_handles_id, Hdw.
  destruct (write P dw); reflexivity.
Qed.

Lemma filter_delivered (r : reader) (sn : string) (msg : device_info)
    (rs : list reader) :
  length (List.filter (fun rm : reader * device_info =>
                         bool_decide (rm.1 = r ∧ serial rm.2 = sn))
                      ((fun r0 => (r0, msg)) <$> rs))
  = if bool_decide (serial msg = sn) then copies r rs else 0.
Proof.
  unfold copies. induction rs as [|x rs IH]; cbn [fmap list_fmap List.filter].
  - destruct (bool_decide _); reflexivity.
  - cbn [fst snd]. fold (list_fmap _ _ (fun r0 : reader => (r0, msg)) rs).
    destruct (decide (serial msg = sn)) as [Hs|Hs].
    + rewrite (bool_decide_eq_true_2 (serial msg = sn)) in * by exact Hs.
      destruct (decide (x = r)) as [Hx|Hx].
      * rewrite (bool_decide_eq_true_2 (x = r ∧ _)) by auto.
        rewrite (bool_decide_eq_true_2 (x = r)) by auto.
        cbn [length]. f_equal. exact IH.
      * rewrite (bool_decide_eq_false_2 (x = r ∧ _)) by tauto.
        rewrite (bool_decide_eq_false_2 (x = r)) by auto.
        exact IH.
    + rewrite (bool_decide_eq_false_2 (serial msg = sn)) in * by exact Hs.
      rewrite (bool_decide_eq_false_2 (x = r ∧ _)) by tauto.
      exact IH.
Qed.

Lemma records_of_deliver (r : reader) (sn : string) (dw : writer)
    (msg : device_info) (n : bus) :
  records_of r sn (deliver dw msg n)
  = records_of r sn n
    + (if bool_decide (serial msg = sn) then copies r (readers_of dw n) else 0).
Proof.
  unfold records_of, deliver. cbn [inbox].
  rewrite List.filter_app, length_app, filter_delivered. reflexivity.
Qed.

Lemma announced_same (P : publisher) (w w1 : world) (sn : string) (r : reader) :
  handles w1 !! sn = handles w !! sn -> matched (net w1) = matched (net w) ->
  announced P w1 sn r = announced P w sn r.
Proof.
  intros Hh Hm. unfold announced, readers_of. rewrite Hh, Hm. reflexivity.
Qed.

Lemma lookup_set_new_reader_joined (k k' : string) (v : bool) (w : world) :
  handles (set_new_reader_joined k v w) !! k'
  = if decide (k = k')
    then (fun h => {| device := device h;
                      data_writer := data_writer h;
                      listener := (fun _ => {| _new_reader_joined := v |})
                                    <$> listener h |}) <$> handles w !! k
    else handles w !! k'.
Proof.
  unfold set_new_reader_joined. rewrite handles_with_handles.
  destruct (decide (k = k')) as [<-|Hne].
  - apply lookup_alter_eq.
  - now apply lookup_alter_ne.
Qed.

Lemma all_ok_set_new_reader_joined (k : string) (v : bool) (w : world) :
  all_ok (handles w) -> all_ok (handles (set_new_reader_joined k v w)).
Proof.
  intros Hok k' h'. rewrite lookup_set_new_reader_joined.
  destruct (decide (k = k')) as [<-|Hne]; [|apply Hok].
  destruct (handles w !! k) as [h|] eqn:Hk; [|discriminate].
  cbn. intros [= <-]. specialize (Hok k h Hk).
  apply handle_ok_inv in Hok as (d & dw & l & Hd & Hdw & Hl & Hs & Hlen).
  unfold handle_ok. cbn [device data_writer listener].
  rewrite Hd, Hdw, Hl. cbn [fmap option_fmap option_map].
  apply andb_true_iff. split; [now apply String.eqb_eq | now apply Nat.leb_le].
Qed.

(** One pass of the loop body over a well-formed map: no fault, the map
    stays well formed and only the flag under [k] may change, and a reader
    gains exactly the announced records of [k]. *)
Lemma announce_handle_step (P : publisher) (k : string) (w : world) :
  all_ok (handles w) ->
  ∃ w1, announce_handle P k w = (Ok tt, w1)
        ∧ all_ok (handles w1)
        ∧ matched (net w1) = matched (net w)
        ∧ (∀ k', k' ≠ k -> handles w1 !! k' = handles w !! k')
        ∧ ∀ r sn, records_of r sn (net w1)
                  = records_of r sn (net w)
                    + (if bool_decide (sn = k) then announced P w sn r else 0).
Proof.
  intros Hok. destruct (handles w !! k) as [h|] eqn:Hk.
  - destruct (handle_ok_inv k h (Hok k h Hk))
      as (d & dw & l & Hd & Hdw & Hl & Hs & Hlen).
    rewrite (announce_handle_ok P k w h d dw l Hk Hd Hdw Hl Hs Hlen).
    eexists. split; [reflexivity|].
    destruct (_new_reader_joined l && write P dw) eqn:Hgo.
    + split; [|split; [|split]].
      * apply all_ok_set_new_reader_joined. exact Hok.
      * reflexivity.
      * intros k' Hne. rewrite lookup_set_new_reader_joined.
        rewrite decide_False by congruence. reflexivity.
      * intros r sn.
        change (net (set_new_reader_joined k false
                       {| bc := bc w; net := deliver dw (info_of d) (net w) |}))
          with (deliver dw (info_of d) (net w)).
        rewrite records_of_deliver. cbn [serial info_of]. rewrite Hs.
        destruct (decide (k = sn)) as [<-|Hne].
        -- rewrite !bool_decide_eq_true_2 by reflexivity.
           unfold announced. rewrite Hk, Hdw, Hl, Hgo. reflexivity.
        -- rewrite !bool_decide_eq_false_2 by congruence. reflexivity.
    + split; [exact Hok|]. split; [reflexivity|]. split; [reflexivity|].
      intros r sn. destruct (decide (sn = k)) as [->|Hne].
      * rewrite bool_decide_eq_true_2 by reflexivity.
        unfold announced. rewrite Hk, Hdw, Hl, Hgo. lia.
      * rewrite bool_decide_eq_false_2 by exact Hne. lia.
  - exists w. unfold announce_handle. rewrite Hk.
    split; [reflexivity|]. split; [exact Hok|].
    split; [reflexivity|]. split; [reflexivity|].
    intros r sn. destruct (decide (sn = k)) as [->|Hne].
    + rewrite bool_decide_eq_true_2 by reflexivity.
      unfold announced. rewrite Hk. lia.
    + rewrite bool_decide_eq_false_2 by exact Hne. lia.
Qed.

(** The whole loop, over keys without repetition. *)
Lemma announce_each_ok (P : publisher) (ks : list string) :
  NoDup ks -> ∀ w, all_ok (handles w) ->
  ∃ w', announce_each P ks w = (Ok tt, w')
        ∧ all_ok (handles w')
        ∧ matched (net w') = matched (net w)
        ∧ (∀ k, k ∉ ks -> handles w' !! k = handles w !! k)
        ∧ ∀ r sn, records_of r sn (net w')
                  = records_of r sn (net w)
                    + (if bool_decide (sn ∈ ks) then announced P w sn r else 0).
Proof.
  induction 1 as [|k ks Hnotin Hnd IH]; intros w Hok.
  - exists w. cbn [announce_each].
    split; [reflexivity|]. split; [exact Hok|].
    split; [reflexivity|]. split; [reflexivity|].
    intros r sn. rewrite bool_decide_eq_false_2 by apply not_elem_of_nil. lia.
  - destruct (announce_handle_step P k w Hok)
      as (w1 & E1 & Hok1 & Hm1 & Hsame1 & Hrec1).
    destruct (IH w1 Hok1) as (w' & E' & Hok' & Hm' & Hsame' & Hrec').
    exists w'. cbn [announce_each]. rewrite E1.
    split; [exact E'|]. split; [exact Hok'|].
    split; [congruence|]. split.
    + intros k' Hk'. apply not_elem_of_cons in Hk' as [Hne Hk'].
      rewrite Hsame' by exact Hk'. now apply Hsame1.
    + intros r sn. rewrite Hrec', Hrec1.
      destruct (decide (sn = k)) as [->|Hne].
      * rewrite (bool_decide_eq_true_2 (k = k)) by reflexivity.
        rewrite (bool_decide_eq_false_2 (k ∈ ks)) by exact Hnotin.
        rewrite (bool_decide_eq_true_2 (k ∈ k :: ks)) by apply list_elem_of_here.
        lia.
      * rewrite (bool_decide_eq_false_2 (sn = k)) by exact Hne.
        rewrite (announced_same P w w1 sn r) by (auto using eq_sym).
        destruct (decide (sn ∈ ks)) as [Hin|Hnin].
        -- rewrite !bool_decide_eq_true_2; [lia | now apply list_elem_of_further | exact Hin].
        -- rewrite !bool_decide_eq_false_2; [lia | | exact Hnin].
           intros [?|?]%elem_of_cons; contradiction.
Qed.

Lemma keys_in_order_NoDup (m : gmap string dds_device_handle) :
  NoDup (keys_in_order m).
Proof.
  unfold keys_in_order. rewrite merge_sort_Permutation.
  apply NoDup_fst_map_to_list.
Qed.

Lemma elem_of_keys_in_order (m : gmap string dds_device_handle) (k : string) :
  k ∈ keys_in_order m <-> is_Some (m !! k).
Proof.
  unfold keys_in_order. rewrite merge_sort_Permutation.
  rewrite list_elem_of_fmap. split.
  - intros [[k' h] [-> Hin]]. apply elem_of_map_to_list in Hin. eauto.
  - intros [h Hh]. exists (k, h). split; [reflexivity|].
    now apply elem_of_map_to_list.
Qed.

Lemma elem_of_readers_of_match (dw : writer) (r : reader) (n : bus) :
  r ∈ readers_of dw (match_reader dw r n).
Proof.
  unfold readers_of, match_reader. cbn [matched].
  apply list_elem_of_fmap. exists (dw, r). split; [reflexivity|].
  apply list_elem_of_In, List.filter_In. split.
  - apply list_elem_of_In.
    destruct (decide ((dw, r) ∈ matched n)).
    + rewrite bool_decide_eq_true_2 by assumption. assumption.
    + rewrite bool_decide_eq_false_2 by assumption.
      apply elem_of_app. right. apply list_elem_of_here.
  - apply bool_decide_eq_true_2. reflexivity.
Qed.

Lemma copies_pos (r : reader) (rs : list reader) : r ∈ rs -> 1 <= copies r rs.
Proof.
  unfold copies. induction 1 as [r rs|r x rs Hin IH]; cbn [List.filter].
  - rewrite bool_decide_eq_true_2 by reflexivity. cbn [length]. lia.
  - destruct (bool_decide _); cbn [length]; lia.
Qed.

End AnnouncerFacts.

(** ** What subscribers observe *)

Module SubscriberFacts.
Import Broadcaster BroadcasterShape BroadcasterFacts AnnouncerFacts.

Lemma step_reader_joins (P : publisher) (sn : string) (r : reader) (w : world)
    (h : dds_device_handle) (dw : writer) (l : dds_client_listener) :
  handles w !! sn = Some h -> data_writer h = Some dw -> listener h = Some l ->
  step P (ev_reader_joins sn r) w
  = (Ok tt,
     {| bc := set_trigger true (bc (set_new_reader_joined sn true w));
        net := match_reader dw r (net w) |}).
Proof.
  intros Hh Hdw Hl. cbn [step]. rewrite Hh, Hdw.
  unfold on_publication_matched. cbn [Z.eqb Pos.eqb].
  change (handles {| bc := bc w; net := match_reader dw r (net w) |})
    with (handles w).
  rewrite Hh, Hl. reflexivity.
Qed.

Lemma new_client_handler_go (P : publisher) (w : world) :
  _active (bc w) = true -> _trigger_msg_send (bc w) = true ->
  new_client_handler P w
  = announce P {| bc := set_trigger false (bc w); net := net w |}.
Proof. intros Ha Ht. unfold new_client_handler. rewrite Ha, Ht. reflexivity. Qed.

(** C4, as the specification words it, fails: with a D435 added and never
    removed, reader 1 joins and is announced to, then reader 2 joins and is
    announced to; the second announcement is written on the device's one
    writer, so reader 1 receives a second record for the same device. *)
Lemma earlier_reader_sees_second_record :
  ¬ (∀ (P : publisher) (es : list event) (w : world) (r : reader) (sn : string),
       forallb (fun e => negb (is_removal e)) es = true ->
       steps P es initial = (Ok tt, w) -> records_of r sn (net w) <= 1).
Proof.
  intros H.
  pose (es := [ev_add_device D435;
               ev_reader_joins "112233" 1; ev_announcer;
               ev_reader_joins "112233" 2; ev_announcer]).
  specialize (H sample_publisher es (steps sample_publisher es initial).2
                1 "112233").
  assert (E : steps sample_publisher es initial
              = (Ok tt, (steps sample_publisher es initial).2))
    by (vm_compute; reflexivity).
  specialize (H eq_refl E). vm_compute in H. lia.
Qed.

(** C4 (amended): for a device that has been added and not removed (its
    handle holds the device under its serial, a writer and a listener, all
    handles being of that shape), when a reader joins the device's writer
    and the announcer then runs with the write accepted, every reader
    matched with that writer at that time observes one more device-info
    record for the device per match: the reader that joined observes at
    least one record, and a reader that joined earlier observes a further
    one. *)
Theorem announce_reaches_every_matched_reader
    (P : publisher) (w : world) (sn : string) (h : dds_device_handle)
    (dw : writer) (r : reader) :
  _active (bc w) = true ->
  handles_ok (handles w) = true ->
  handles w !! sn = Some h ->
  data_writer h = Some dw ->
  write P dw = true ->
  ∃ w2, steps P [ev_reader_joins sn r; ev_announcer] w = (Ok tt, w2)
        ∧ r ∈ readers_of dw (net w2)
        ∧ 1 <= records_of r sn (net w2)
        ∧ ∀ r', records_of r' sn (net w2)
                = records_of r' sn (net w) + copies r' (readers_of dw (net w2)).
Proof.
  intros Hact Hok Hh Hdw Hwr. apply handles_ok_all_ok in Hok.
  destruct (handle_ok_inv sn h (Hok sn h Hh))
    as (d & dw' & l & Hd & Hdw' & Hl & Hs & Hlen).
  rewrite Hdw in Hdw'. injection Hdw' as <-.
  cbn [steps]. rewrite (step_reader_joins P sn r w h dw l Hh Hdw Hl).
  cbn [step]. rewrite new_client_handler_go by (try exact Hact; reflexivity).
  set (wa := {| bc := set_trigger false _; net := _ |}).
  assert (Hha : handles wa = handles (set_new_reader_joined sn true w))
    by reflexivity.
  assert (Hoka : all_ok (handles wa)).
  { rewrite Hha. now apply all_ok_set_new_reader_joined. }
  assert (Hsn : handles wa !! sn
                = Some {| device := device h; data_writer := data_writer h;
                          listener := Some {| _new_reader_joined := true |} |}).
  { rewrite Hha, lookup_set_new_reader_joined, decide_True by reflexivity.
    rewrite Hh. cbn [fmap option_fmap option_map]. rewrite Hl. reflexivity. }
  unfold announce.
  destruct (announce_each_ok P (keys_in_order (handles wa))
              (keys_in_order_NoDup _) wa Hoka)
    as (w2 & E & _ & Hm & _ & Hrec).
  rewrite E. exists w2. split; [reflexivity|].
  assert (Hreaders : readers_of dw (net w2)
                     = readers_of dw (match_reader dw r (net w))).
  { unfold readers_of. rewrite Hm. reflexivity. }
  assert (Hall : ∀ r', records_of r' sn (net w2)
                       = records_of r' sn (net w)
                         + copies r' (readers_of dw (net w2))).
  { intros r'. rewrite Hrec.
    rewrite bool_decide_eq_true_2
      by (apply elem_of_keys_in_order; rewrite Hsn; eauto).
    unfold announced. rewrite Hsn. cbn [data_writer listener _new_reader_joined].
    rewrite Hdw, Hwr. cbn [andb]. rewrite Hreaders. reflexivity. }
  split; [rewrite Hreaders; apply elem_of_readers_of_match|].
  split; [|exact Hall].
  rewrite Hall. pose proof (copies_pos r (readers_of dw (net w2))) as Hpos.
  rewrite Hreaders in Hpos at 1.
  specialize (Hpos (elem_of_readers_of_match dw r (net w))). lia.
Qed.

Lemma announce_reaches_joined_reader_D435 :
  ∃ w2, steps sample_publisher [ev_reader_joins "112233" 1; ev_announcer]
              (add_device sample_publisher D435 initial).2 = (Ok tt, w2)
        ∧ 1 <= records_of 1 "112233" (net w2).
Proof.
  destruct (announce_reaches_every_matched_reader
              sample_publisher (add_device sample_publisher D435 initial).2
              "112233"
              {| device := Some D435; data_writer := Some 7;
                 listener := Some {| _new_reader_joined := false |} |}
              7 1)
    as (w2 & E & _ & Hone & _);
    [reflexivity | vm_compute; reflexivity | vm_compute; reflexivity
    | reflexivity | reflexivity |].
  exists w2. split; [exact E | exact Hone].
Defined.

End SubscriberFacts.

(** ** Opening streams on the server *)

Module ControllerFacts.
Import Profiles Controller.

Section Facts.
Context {json bridge : Type}.
Variable create : string -> json -> result error dds_stream_profile.
Variable reset : bridge -> bridge.
Variable open : string -> dds_stream_profile -> bridge -> result error unit * bridge.
Variable commit : bridge -> result error unit * bridge.
Variable servers : gmap string (option dds_stream_server).

Lemma open_one_unacceptable (it : string * json) (b : bridge) :
  unacceptable create servers it ->
  ∃ e, open_one create open servers it b = (Throw e, b).
Proof.
  unfold unacceptable, open_one.
  intros [-> | (server & requested & -> & -> & ->)]; eauto.
Qed.

Lemma open_each_unacceptable (items : list (string * json)) (b : bridge) :
  Exists (unacceptable create servers) items ->
  ∃ e b', open_each create open servers items b = (Throw e, b').
Proof.
  intros H. revert b. induction H as [it items Hbad | it items _ IH]; intros b.
  - destruct (open_one_unacceptable it b Hbad) as [e E].
    cbn [open_each]. rewrite E. eauto.
  - cbn [open_each].
    destruct (open_one create open servers it b) as [[[]|e] b1]; eauto.
Qed.

(** The loop goes through the entries in order and stops at the first
    that throws. *)
Lemma open_each_app (pre rest : list (string * json)) (b : bridge) :
  open_each create open servers (pre ++ rest) b
  = match open_each create open servers pre b with
    | (Ok _, b1) => open_each create open servers rest b1
    | (Throw e, b1) => (Throw e, b1)
    end.
Proof.
  revert b. induction pre as [|it pre IH]; intros b; [reflexivity|].
  cbn [app open_each].
  destruct (open_one create open servers it b) as [[[]|e] b1];
    [apply IH | reflexivity].
Qed.

(** A name the stream map holds with a null server is not refused: the
    null pointer is dereferenced. *)
Lemma open_one_null_server (it : string * json) (b : bridge) :
  servers !! it.1 = Some None ->
  open_one create open servers it b = (Throw null_server, b).
Proof. unfold open_one. intros ->. reflexivity. Qed.

End Facts.

Section Calls.
Import BridgeCalls.
Context {json : Type}.
Variable create : string -> json -> result error dds_stream_profile.
Variable servers : gmap string (option dds_stream_server).
Variable open_accepted : string -> dds_stream_profile -> bool.
Variable commit_accepted : bool.

Lemma open_one_is_open (it : string * json) (b : bridge) :
  ∃ cs, (open_one create (bridge_open open_accepted) servers it b).2
        = (b ++ cs)%list
        ∧ Forall (fun c => is_open c = true) cs.
Proof.
  unfold open_one.
  destruct (servers !! it.1) as [[server|]|];
    try (exists []; split; [now rewrite app_nil_r | constructor]).
  destruct (create _ _) as [requested|e];
    try (exists []; split; [now rewrite app_nil_r | constructor]).
  destruct (find_profile _ _ _) as [p|];
    try (exists []; split; [now rewrite app_nil_r | constructor]).
  eexists. split; [reflexivity|]. repeat constructor.
Qed.

Lemma open_each_is_open (items : list (string * json)) (b : bridge) :
  ∃ cs, (open_each create (bridge_open open_accepted) servers items b).2
        = (b ++ cs)%list
        ∧ Forall (fun c => is_open c = true) cs.
Proof.
  revert b. induction items as [|it items IH]; intros b; cbn [open_each].
  - exists []. split; [now rewrite app_nil_r | constructor].
  - destruct (open_one_is_open it b) as (cs1 & E1 & H1).
    destruct (open_one _ _ _ it b) as [[[]|e] b1]; cbn [snd] in E1; subst b1.
    + destruct (IH (b ++ cs1)%list) as (cs2 & E2 & H2).
      exists (cs1 ++ cs2)%list. split.
      * rewrite E2. now rewrite <- app_assoc.
      * now apply Forall_app.
    + exists cs1. split; [reflexivity | exact H1].
Qed.

Lemma open_one_records (it : string * json) (b b' : bridge) :
  open_one create (bridge_open open_accepted) servers it b = (Ok tt, b') ->
  ∃ c, b' = (b ++ [c])%list ∧ opens create servers it c.
Proof.
  unfold open_one, opens.
  destruct (servers !! it.1) as [[server|]|] eqn:Hserver; try discriminate.
  destruct (create _ _) as [requested|e] eqn:Hcreate; try discriminate.
  destruct (find_profile _ _ _) as [p|] eqn:Hfind; try discriminate.
  apply ProfileFacts.find_profile_Some in Hfind as [Hin Hc].
  unfold bridge_open. intros H. injection H as _ <-.
  eexists. split; [reflexivity|]. exists server, requested, p.
  split; [reflexivity|]. split; [exact Hcreate|]. split; [exact Hin|].
  split; [exact Hc | reflexivity].
Qed.

Lemma open_each_records (items : list (string * json)) (b b' : bridge) :
  open_each create (bridge_open open_accepted) servers items b = (Ok tt, b') ->
  ∃ cs, b' = (b ++ cs)%list ∧ Forall2 (opens create servers) items cs.
Proof.
  revert b. induction items as [|it items IH]; intros b; cbn [open_each].
  - intros [= <-]. exists []. split; [now rewrite app_nil_r | constructor].
  - destruct (open_one _ _ _ it b) as [[[]|e] b1] eqn:E1; [|discriminate].
    apply open_one_records in E1 as (c & -> & Hc).
    intros (cs & -> & Hcs)%IH. exists (c :: cs).
    split; [now rewrite <- app_assoc | now constructor].
Qed.

Lemma reset_recorded (msg : @open_streams json) (b : bridge) :
  (if json_get_bool (reset msg) true then bridge_reset b else b)
  = (b ++ reset_calls msg)%list.
Proof.
  unfold reset_calls, bridge_reset.
  destruct (json_get_bool _ _); [reflexivity | now rewrite app_nil_r].
Qed.


End Calls.



End ControllerFacts.

(** ** The client: [open] *)

Module OpenFacts.
Import Profiles Device.

Section Facts.
Variable stream_open : string -> dds_stream -> result error dds_stream.

Lemma open_loop_writer (ps : list profile_ref)
    (sp : gmap string dds_stream_profile) (d : impl) :
  _control_writer (open_loop stream_open ps sp d).2 = _control_writer d.
Proof.
  revert sp d. induction ps as [|p ps IH]; intros sp d; [reflexivity|].
  cbn [open_loop]. destruct (stream p) as [n|]; [|reflexivity].
  destruct (bool_decide _); [reflexivity|].
  destruct (index n (streams d)) as [[st|] m]; [|reflexivity].
  destruct (stream_open _ st) as [st'|e]; [|reflexivity].
  rewrite IH. reflexivity.
Qed.

(** When the loop completes, every profile had a stream, no two the same
    one and none already in the message; the message maps each stream
    to its profile. *)
Lemma open_loop_Ok (ps : list profile_ref)
    (sp sp' : gmap string dds_stream_profile) (d d' : impl) :
  open_loop stream_open ps sp d = (Ok sp', d') ->
  Forall (fun p => is_Some (stream p)) ps
  ∧ NoDup (omap stream ps)
  ∧ (∀ n, n ∈ omap stream ps -> sp !! n = None)
  ∧ (∀ n v, sp !! n = Some v -> sp' !! n = Some v)
  ∧ (∀ p, p ∈ ps -> ∃ n, stream p = Some n ∧ sp' !! n = Some (profile p))
  ∧ size sp' = size sp + length ps.
Proof.
  revert sp d. induction ps as [|p ps IH]; intros sp d.
  - cbn [open_loop]. intros [= <- <-].
    split; [constructor|]. split; [apply NoDup_nil_2|].
    split; [intros n Hn; cbn in Hn; now apply not_elem_of_nil in Hn|].
    split; [auto|].
    split; [intros p Hp; now apply not_elem_of_nil in Hp|].
    cbn [length]. lia.
  - cbn [open_loop]. destruct (stream p) as [n|] eqn:Hp; [|discriminate].
    destruct (decide (is_Some (sp !! n))) as [Hin|Hnin].
    { rewrite bool_decide_eq_true_2 by exact Hin. discriminate. }
    rewrite bool_decide_eq_false_2 by exact Hnin.
    assert (Hnone : sp !! n = None)
      by (destruct (sp !! n); [exfalso; apply Hnin; eauto | reflexivity]).
    destruct (index n (streams d)) as [[st|] m]; [|discriminate].
    destruct (stream_open _ st) as [st'|e]; [|discriminate].
    intros E. apply IH in E as (Hall & Hnd & Hfresh & Hmono & Hmap & Hsize).
    assert (Hn_notin : n ∉ omap stream ps).
    { intros Hin. apply Hfresh in Hin. rewrite lookup_insert_eq in Hin.
      discriminate. }
    split; [constructor; [rewrite Hp; eauto | exact Hall]|].
    cbn [omap list_omap]. rewrite Hp.
    split; [constructor; assumption|]. split.
    { intros n' [->|Hin]%elem_of_cons; [exact Hnone|].
      specialize (Hfresh n' Hin).
      destruct (decide (n = n')) as [<-|Hne]; [contradiction|].
      now rewrite lookup_insert_ne in Hfresh. }
    split.
    { intros n' v Hv. apply Hmono.
      destruct (decide (n = n')) as [<-|Hne]; [congruence|].
      now rewrite lookup_insert_ne. }
    split.
    { intros q [->|Hq]%elem_of_cons; [|now apply Hmap].
      exists n. split; [exact Hp|]. apply Hmono, lookup_insert_eq. }
    rewrite Hsize, map_size_insert_None by exact Hnone. cbn [length]. lia.
Qed.

(** The loop goes through the profiles in order and stops at the first
    that throws. *)
Lemma open_loop_app (pre rest : list profile_ref)
    (sp : gmap string dds_stream_profile) (d : impl) :
  open_loop stream_open (pre ++ rest) sp d
  = match open_loop stream_open pre sp d with
    | (Ok sp1, d1) => open_loop stream_open rest sp1 d1
    | (Throw e, d1) => (Throw e, d1)
    end.
Proof.
  revert sp d. induction pre as [|p pre IH]; intros sp d; [reflexivity|].
  cbn [app open_loop]. destruct (stream p) as [n|]; [|reflexivity].
  destruct (bool_decide _); [reflexivity|].
  destruct (index n (streams d)) as [[st|] m]; [|reflexivity].
  destruct (stream_open _ st) as [st'|e]; [apply IH | reflexivity].
Qed.

(** Where a profile names a stream the device does not hold, the loop
    does not refuse it: the null entry of [_streams] is dereferenced. *)
Lemma open_loop_stream_not_held (p : profile_ref) (rest : list profile_ref)
    (sp : gmap string dds_stream_profile) (d : impl) (n : string) :
  stream p = Some n -> sp !! n = None ->
  (streams d !! n = None ∨ streams d !! n = Some None) ->
  (open_loop stream_open (p :: rest) sp d).1 = Throw null_stream.
Proof.
  intros Hp Hsp Hn. cbn [open_loop]. rewrite Hp.
  rewrite bool_decide_eq_false_2
    by (rewrite Hsp; intros [? ?]; discriminate).
  unfold index. destruct Hn as [-> | ->]; reflexivity.
Qed.


End Facts.


End OpenFacts.

(** ** The client: the handshake *)

Module HandshakeFacts.
Import Profiles Device HandshakeShape.

(** C2, as the specification words it, fails: in [WAIT_FOR_DEVICE_HEADER]
    a [stream-header] is not logged and skipped, it raises. *)
Lemma wait_for_device_header_does_not_stay :
  ¬ (∀ (s : init_state) (j : notification),
       state s = WAIT_FOR_DEVICE_HEADER -> json_id j ≠ "device-header" ->
       ∃ s', on_notification s j = Ok s' ∧ state s' = WAIT_FOR_DEVICE_HEADER).
Proof.
  intros H.
  destruct (H (init_begin ∅) depth_header eq_refl) as (s' & E & _);
    [discriminate | discriminate E].
Qed.

(** C2 (amended): while the handshake is in [WAIT_FOR_DEVICE_HEADER], a
    valid notification whose id is not [device-header] raises the runtime
    error "unexpected notification", and so does the rest of [init]: the
    handshake fails.  Only a sample that is not valid is skipped with the
    state left as it is. *)
Theorem wait_for_device_header_raises (s : init_state) (j : notification)
    (rest : list sample) (later : list (list sample)) :
  state s = WAIT_FOR_DEVICE_HEADER -> json_id j ≠ "device-header" ->
  on_notification s j
  = Throw (unexpected_notification (json_id j) WAIT_FOR_DEVICE_HEADER)
  ∧ init_loop s (({| is_valid := true; json_data := j |} :: rest) :: later)
    = Throw (unexpected_notification (json_id j) WAIT_FOR_DEVICE_HEADER)
  ∧ take_all s ({| is_valid := false; json_data := j |} :: rest)
    = take_all s rest.
Proof.
  intros Hs Hid.
  assert (E : on_notification s j
              = Throw (unexpected_notification (json_id j) WAIT_FOR_DEVICE_HEADER)).
  { unfold on_notification. rewrite Hs. cbn [state_eqb andb].
    destruct (String.eqb_spec (json_id j) "device-header"); [contradiction|].
    reflexivity. }
  split; [exact E|]. split; [|reflexivity].
  cbn [init_loop take_all is_valid json_data]. rewrite Hs, E. reflexivity.
Qed.

Lemma wait_for_device_header_raises_on_stream_header :
  init_returns [[valid depth_header]]
  = Throw (unexpected_notification "stream-header" WAIT_FOR_DEVICE_HEADER).
Proof.
  unfold init_returns, init.
  destruct (wait_for_device_header_raises (init_begin ∅) depth_header [] [])
    as (_ & E & _); [reflexivity | discriminate |].
  unfold valid. rewrite E. reflexivity.
Defined.

(** dds-device-impl.h, for comparison, logs and stays: in
    [WAIT_FOR_DEVICE_HEADER] a notification other than [DEVICE_HEADER]
    changes nothing. *)
Lemma header_impl_logs_and_stays (d : DeviceH.impl) (msg : DeviceH.notification) :
  DeviceH.state d = DeviceH.WAIT_FOR_DEVICE_HEADER ->
  (∀ n, msg ≠ DeviceH.DEVICE_HEADER n) ->
  DeviceH.on_notification d msg = d.
Proof.
  intros Hs Hmsg. destruct msg as [n | i nm ty | i ps | i ps | id];
    cbn [DeviceH.on_notification]; rewrite ?Hs; cbn [DeviceH.state_eqb];
    try reflexivity.
  destruct (Hmsg n eq_refl).
Qed.

(** dds-device-impl.cpp goes from [WAIT_FOR_DEVICE_HEADER] to [DONE] on a
    [device-header] with no streams, and [init] returns true when nothing
    else is waiting with it. *)
Lemma init_done_on_zero_streams (streams0 : gmap string (option dds_stream))
    (later : list (list sample)) :
  on_notification (init_begin streams0) (device_header 0)
  = Ok {| state := DONE; n_streams_expected := 0; _streams := streams0 |}
  ∧ init streams0 ([valid (device_header 0)] :: later) = Ok (true, streams0).
Proof.
  split; [reflexivity|]. unfold init. cbn. destruct later; reflexivity.
Qed.

(** C7 on dds-device-impl.h: a [DEVICE_HEADER] moves the handshake to
    [WAIT_FOR_SENSOR_HEADER] whatever the number of sensors it announces,
    and with no further message [init] returns false however long it
    waits. *)
Theorem header_impl_waits_on_zero_sensors (n waits : nat) :
  DeviceH.state
    (DeviceH.on_notification DeviceH.constructed (DeviceH.DEVICE_HEADER n))
  = DeviceH.WAIT_FOR_SENSOR_HEADER
  ∧ (DeviceH.init DeviceH.constructed
       ([ {| DeviceH.valid_data := true;
             DeviceH.raw_data := DeviceH.DEVICE_HEADER n |} ]
        :: repeat [] waits)).1 = false.
Proof.
  split; [reflexivity|].
  unfold DeviceH.init. cbn [DeviceH.init_loop DeviceH.set_state DeviceH.state
    DeviceH.constructed DeviceH.state_eqb DeviceH.take_all DeviceH.valid_data
    DeviceH.raw_data DeviceH.on_notification fst].
  induction waits as [|k IH]; [reflexivity | exact IH].
Qed.

End HandshakeFacts.

(** ** The client: when [init] succeeds *)

Module InitFacts.
Import Profiles Device HandshakeShape.

Lemma taken_app (a b : list sample) : taken (a ++ b) = (taken a ++ taken b)%list.
Proof. unfold taken. now rewrite List.filter_app, fmap_app. Qed.

Lemma take_all_run (s : init_state) (l : list sample) :
  take_all s l = run s (taken l).
Proof.
  revert s. induction l as [|x l IH]; intros s; [reflexivity|].
  unfold taken. cbn [take_all List.filter].
  destruct (is_valid x); cbn [fmap list_fmap run].
  - destruct (on_notification s (json_data x)); [apply IH | reflexivity].
  - apply IH.
Qed.

Lemma run_app (s : init_state) (a b : list notification) :
  run s (a ++ b)
  = match run s a with Ok s1 => run s1 b | Throw e => Throw e end.
Proof.
  revert s. induction a as [|j a IH]; intros s; [reflexivity|].
  cbn [app run]. destruct (on_notification s j); [apply IH | reflexivity].
Qed.

Lemma state_eqb_eq (a b : state_type) : state_eqb a b = true <-> a = b.
Proof. destruct a, b; cbn; split; intros; congruence. Qed.

Lemma on_notification_DONE (s : init_state) (j : notification) :
  state s = DONE ->
  on_notification s j = Throw (unexpected_notification (json_id j) DONE).
Proof. intros Hs. unfold on_notification. rewrite Hs. reflexivity. Qed.

Lemma run_DONE (s s' : init_state) (msgs : list notification) :
  state s = DONE -> run s msgs = Ok s' -> msgs = [] ∧ s' = s.
Proof.
  intros Hs. destruct msgs as [|j msgs]; cbn [run].
  - intros [= <-]. auto.
  - rewrite on_notification_DONE by exact Hs. discriminate.
Qed.

Lemma init_loop_DONE (s : init_state) (polls : list (list sample)) :
  state s = DONE -> init_loop s polls = Ok s.
Proof. intros Hs. destruct polls; cbn [init_loop]; rewrite ?Hs; reflexivity. Qed.

(** The passes of the outer loop up to the one that reaches [DONE] are a
    prefix of the polls; the loop returns what the inner loop makes of the
    valid samples of that prefix. *)
Lemma init_loop_prefix (used rest : list (list sample)) (s s' : init_state) :
  run s (taken (concat used)) = Ok s' -> state s' = DONE ->
  init_loop s (used ++ rest) = Ok s'.
Proof.
  revert s. induction used as [|b used IH]; intros s Hrun Hdone.
  - cbn in Hrun. injection Hrun as <-. now apply init_loop_DONE.
  - cbn [concat] in Hrun. rewrite taken_app, run_app in Hrun.
    cbn [app init_loop].
    destruct (state_eqb DONE (state s)) eqn:Hs.
    + apply state_eqb_eq in Hs. symmetry in Hs.
      destruct (run s (taken b)) as [s1|e] eqn:E1; [|discriminate].
      destruct (run_DONE s s1 _ Hs E1) as [_ ->].
      destruct (run_DONE s s' _ Hs Hrun) as [_ ->]. reflexivity.
    + rewrite take_all_run.
      destruct (run s (taken b)) as [s1|e]; [|discriminate].
      now apply IH.
Qed.

Lemma init_loop_inv (polls : list (list sample)) (s s' : init_state) :
  init_loop s polls = Ok s' ->
  ∃ used rest, polls = (used ++ rest)%list ∧ run s (taken (concat used)) = Ok s'.
Proof.
  revert s. induction polls as [|b polls IH]; intros s.
  - cbn [init_loop]. intros [= <-]. exists [], []. auto.
  - cbn [init_loop]. destruct (state_eqb DONE (state s)).
    + intros [= <-]. exists [], (b :: polls). auto.
    + rewrite take_all_run.
      destruct (run s (taken b)) as [s1|e] eqn:E1; [|discriminate].
      intros H. apply IH in H as (used & rest & -> & Hrun).
      exists (b :: used), rest. split; [reflexivity|].
      cbn [concat]. now rewrite taken_app, run_app, E1.
Qed.

Lemma type2stream_type_string (t : string) (k : stream_kind) :
  type2stream t = Some k -> type_string k = t.
Proof.
  unfold type2stream.
  repeat match goal with
         | |- context [String.eqb t ?lit] =>
             destruct (String.eqb_spec t lit) as [->|_];
             [intros [= <-]; reflexivity|]
         end.
  discriminate.
Qed.

Lemma header_ok_inv (j : notification) :
  header_ok j = true ->
  ∃ n t sen i ps k, j = stream_header n t sen i ps ∧ type2stream t = Some k
                    ∧ (0 <= i < Z.of_nat (length ps))%Z.
Proof.
  destruct j as [N | n t sen i ps | id]; cbn [header_ok]; try discriminate.
  intros [[Ht Hlo]%andb_true_iff Hhi]%andb_true_iff.
  apply bool_decide_eq_true in Ht as [k Hk].
  exists n, t, sen, i, ps, k. repeat split; auto; lia.
Qed.

Lemma non_null_insert (m : gmap string (option dds_stream)) (n : string)
    (st : dds_stream) :
  non_null m -> non_null (<[n := Some st]> m).
Proof.
  intros Hm k v. destruct (decide (n = k)) as [<-|Hne].
  - rewrite lookup_insert_eq. intros [= <-]. eauto.
  - rewrite lookup_insert_ne by exact Hne. apply Hm.
Qed.

Lemma non_null_lookup (m : gmap string (option dds_stream)) (n : string) :
  non_null m -> m !! n = None ∨ ∃ st, m !! n = Some (Some st).
Proof.
  intros Hm. destruct (m !! n) as [v|] eqn:E; [|auto].
  destruct (Hm n v E) as [st ->]. eauto.
Qed.

Lemma on_stream_header_accepts (s : init_state) (n t sen : string) (i : Z)
    (ps : list dds_stream_profile) :
  non_null (_streams s) ->
  size (_streams s) < n_streams_expected s ->
  _streams s !! n = None ->
  header_ok (stream_header n t sen i ps) = true ->
  ∃ s', on_stream_header s n t sen i ps = Ok s' ∧ accepted s s' n.
Proof.
  intros Hnn Hsize Hfresh Hok.
  apply header_ok_inv in Hok as (n0 & t0 & sen0 & i0 & ps0 & k & [= <- <- <- <- <-] & Hk & Hi).
  unfold on_stream_header.
  destruct (Nat.leb_spec (n_streams_expected s) (size (_streams s))); [lia|].
  rewrite Hfresh, Hk.
  destruct (Z.ltb_spec i 0); [lia|].
  destruct (Z.leb_spec (Z.of_nat (length ps)) i); [lia|].
  cbn [orb]. rewrite (type2stream_type_string t k Hk), String.eqb_refl.
  cbn [negb]. eexists. split; [reflexivity|].
  unfold accepted. cbn [n_streams_expected _streams state].
  rewrite map_size_insert_None by exact Hfresh.
  repeat split; auto using non_null_insert.
  - rewrite lookup_insert_eq. eauto.
  - intros n' Hne. now apply lookup_insert_ne.
Qed.

Lemma on_stream_header_inv (s s' : init_state) (n t sen : string) (i : Z)
    (ps : list dds_stream_profile) :
  non_null (_streams s) ->
  on_stream_header s n t sen i ps = Ok s' ->
  size (_streams s) < n_streams_expected s
  ∧ _streams s !! n = None
  ∧ header_ok (stream_header n t sen i ps) = true
  ∧ accepted s s' n.
Proof.
  intros Hnn. unfold on_stream_header.
  destruct (Nat.leb_spec (n_streams_expected s) (size (_streams s)));
    [discriminate|].
  destruct (non_null_lookup (_streams s) n Hnn) as [Hfresh | [st Hst]];
    [|rewrite Hst; discriminate].
  rewrite Hfresh.
  destruct (type2stream t) as [k|] eqn:Hk; [|discriminate].
  destruct (Z.ltb_spec i 0); [discriminate|].
  destruct (Z.leb_spec (Z.of_nat (length ps)) i); [discriminate|].
  cbn [orb]. rewrite (type2stream_type_string t k Hk), String.eqb_refl.
  cbn [negb]. intros [= <-].
  split; [assumption|]. split; [reflexivity|]. split.
  { cbn [header_ok]. rewrite Hk.
    rewrite bool_decide_eq_true_2 by eauto.
    destruct (Z.leb_spec 0 i); [|lia].
    destruct (Z.ltb_spec i (Z.of_nat (length ps))); [reflexivity | lia]. }
  unfold accepted. cbn [n_streams_expected _streams state].
  rewrite map_size_insert_None by exact Hfresh.
  repeat split; auto using non_null_insert.
  - rewrite lookup_insert_eq. eauto.
  - intros n' Hne. now apply lookup_insert_ne.
Qed.

Lemma on_notification_profiles (s : init_state) (n t sen : string) (i : Z)
    (ps : list dds_stream_profile) :
  state s = WAIT_FOR_PROFILES ->
  on_notification s (stream_header n t sen i ps)
  = on_stream_header s n t sen i ps.
Proof. intros Hs. unfold on_notification. rewrite Hs. reflexivity. Qed.

Lemma on_notification_profiles_inv (s s' : init_state) (j : notification) :
  state s = WAIT_FOR_PROFILES -> on_notification s j = Ok s' ->
  ∃ n t sen i ps, j = stream_header n t sen i ps
                  ∧ on_stream_header s n t sen i ps = Ok s'.
Proof.
  intros Hs. unfold on_notification. rewrite Hs. cbn [state_eqb andb].
  destruct j as [N | n t sen i ps | id]; cbn [json_id].
  - discriminate.
  - intros H. exists n, t, sen, i, ps. auto.
  - destruct (String.eqb id "stream-header"); [|discriminate].
    destruct (_ <=? _)%nat; discriminate.
Qed.

(** The valid, distinct headers still missing bring the handshake to
    [DONE]. *)
Lemma run_headers (hdrs : list notification) :
  ∀ s, state s = WAIT_FOR_PROFILES -> non_null (_streams s) ->
       Forall (fun j => header_ok j = true) hdrs ->
       NoDup (header_name <$> hdrs) ->
       (∀ j, j ∈ hdrs -> _streams s !! header_name j = None) ->
       size (_streams s) + length hdrs = n_streams_expected s ->
       hdrs ≠ [] ->
       ∃ s', run s hdrs = Ok s' ∧ state s' = DONE.
Proof.
  induction hdrs as [|j hdrs IH]; intros s Hs Hnn Hok Hnd Hfresh Hsize Hne;
    [congruence|].
  apply Forall_cons in Hok as [Hj Hok].
  cbn [fmap list_fmap] in Hnd. apply NoDup_cons in Hnd as [Hjn Hnd].
  cbn [length] in Hsize.
  destruct (header_ok_inv j Hj) as (n & t & sen & i & ps & k & -> & _ & _).
  destruct (on_stream_header_accepts s n t sen i ps Hnn) as (s1 & E1 & Hacc);
    [lia | apply (Hfresh (stream_header n t sen i ps)), list_elem_of_here
    | exact Hj |].
  destruct Hacc as (Hexp & Hsz & Hnn1 & _ & Hother & Hst).
  cbn [run]. rewrite on_notification_profiles, E1 by exact Hs.
  destruct hdrs as [|j' hdrs'].
  - exists s1. split; [reflexivity|]. rewrite Hst.
    cbn [length] in Hsize.
    destruct (Nat.leb_spec (n_streams_expected s) (S (size (_streams s))));
      [reflexivity | lia].
  - apply IH.
    + rewrite Hst.
      destruct (Nat.leb_spec (n_streams_expected s) (S (size (_streams s))));
        [cbn [length] in Hsize; lia | exact Hs].
    + exact Hnn1.
    + exact Hok.
    + exact Hnd.
    + intros j'' Hin. rewrite Hother.
      * apply Hfresh. now apply list_elem_of_further.
      * intros Heq. apply Hjn. cbn [header_name] in *. rewrite <- Heq.
        apply list_elem_of_fmap. eauto.
    + lia.
    + discriminate.
Qed.

Lemma run_headers_inv (msgs : list notification) :
  ∀ s s', run s msgs = Ok s' -> state s' = DONE ->
          state s = WAIT_FOR_PROFILES -> non_null (_streams s) ->
          size (_streams s) < n_streams_expected s ->
          Forall (fun j => header_ok j = true) msgs
          ∧ NoDup (header_name <$> msgs)
          ∧ (∀ j, j ∈ msgs -> _streams s !! header_name j = None)
          ∧ size (_streams s) + length msgs = n_streams_expected s.
Proof.
  induction msgs as [|j msgs IH]; intros s s' Hrun Hdone Hs Hnn Hsize.
  - cbn in Hrun. injection Hrun as <-. congruence.
  - cbn [run] in Hrun.
    destruct (on_notification s j) as [s1|e] eqn:E1; [|discriminate].
    destruct (on_notification_profiles_inv s s1 j Hs E1)
      as (n & t & sen & i & ps & -> & Eh).
    destruct (on_stream_header_inv s s1 n t sen i ps Hnn Eh)
      as (_ & Hfresh & Hok & Hexp & Hsz & Hnn1 & Hin1 & Hother & Hst).
    destruct (Nat.leb_spec (n_streams_expected s) (S (size (_streams s))))
      as [Hle|Hgt].
    + destruct (run_DONE s1 s' msgs Hst Hrun) as [-> _].
      split; [repeat constructor; exact Hok|].
      split; [cbn; apply NoDup_singleton|].
      split; [|cbn [length]; lia].
      intros j [->|Hj]%elem_of_cons; [exact Hfresh|].
      now apply not_elem_of_nil in Hj.
    + rewrite Hs in Hst.
      destruct (IH s1 s' Hrun Hdone Hst Hnn1) as (Hall & Hnd & Hfr & Hlen);
        [lia|].
      assert (Hnotin : n ∉ header_name <$> msgs).
      { intros (j' & Hn & Hj')%list_elem_of_fmap.
        specialize (Hfr j' Hj'). rewrite <- Hn in Hfr.
        destruct Hin1 as [v Hv]. congruence. }
      split; [constructor; assumption|].
      split; [cbn [fmap list_fmap header_name]; constructor; assumption|].
      split; [|cbn [length]; lia].
      intros j' [->|Hj']%elem_of_cons; [exact Hfresh|].
      rewrite <- Hother; [now apply Hfr|].
      intros Heq. apply Hnotin. rewrite <- Heq.
      apply list_elem_of_fmap. eauto.
Qed.

Lemma non_null_empty : non_null ∅.
Proof. intros k v. rewrite lookup_empty. discriminate. Qed.

(** The inner loop, from the start of [init] on a device without streams,
    ends in [DONE] exactly on a handshake. *)
Lemma run_handshake (msgs : list notification) :
  (∃ s', run (init_begin ∅) msgs = Ok s' ∧ state s' = DONE) <-> handshake msgs.
Proof.
  split.
  - intros (s' & Hrun & Hdone).
    destruct msgs as [|j msgs];
      [cbn in Hrun; injection Hrun as <-; discriminate|].
    cbn [run] in Hrun.
    destruct j as [N | n t sen i ps | id]; try discriminate Hrun.
    + cbn in Hrun. destruct N as [|N].
      * apply run_DONE in Hrun as [-> _]; [|reflexivity].
        exists 0, []. repeat split; [constructor | apply NoDup_nil_2].
      * apply run_headers_inv in Hrun as (Hall & Hnd & _ & Hlen);
          [| exact Hdone | reflexivity | exact non_null_empty
           | cbn [_streams n_streams_expected]; rewrite map_size_empty; lia].
        cbn [_streams n_streams_expected] in Hlen.
        rewrite map_size_empty in Hlen.
        exists (S N), msgs. repeat split; auto.
    + unfold on_notification in Hrun. cbn [init_begin state state_eqb andb json_id] in Hrun.
      destruct (String.eqb id "device-header"); discriminate.
  - intros (N & hdrs & -> & Hlen & Hall & Hnd).
    cbn [run]. destruct N as [|N].
    + destruct hdrs; [|discriminate]. eexists. split; reflexivity.
    + change (on_notification (init_begin ∅) (device_header (S N)))
        with (@Ok error _ {| state := WAIT_FOR_PROFILES;
                             n_streams_expected := S N;
                             _streams := ∅ |}).
      cbv iota.
      apply run_headers;
        [ reflexivity | exact non_null_empty | exact Hall | exact Hnd
        | intros j _; apply lookup_empty
        | cbn [_streams n_streams_expected]; rewrite map_size_empty; lia
        | destruct hdrs; discriminate ].
Qed.

(** C1, as the specification words it, fails: a notification that is not
    the [device-header] and arrives before it is not skipped; [init] raises
    although the messages contain a [device-header] for no streams. *)
Lemma init_raises_on_message_before_header :
  ¬ (∀ polls : list (list sample),
       init_returns polls = Ok true
       <-> spec_handshake_received (taken (concat polls))).
Proof.
  intros H.
  destruct (H [[valid (other "hello"); valid (device_header 0)]]) as [_ Hback].
  assert (E : init_returns [[valid (other "hello"); valid (device_header 0)]]
              = Ok true).
  { apply Hback. exists [other "hello"], [device_header 0].
    split; [reflexivity|]. exists 0, [].
    repeat split; [constructor | apply NoDup_nil_2]. }
  vm_compute in E. discriminate E.
Qed.

(** C1 (amended): [init] returns true exactly when the valid notifications
    it takes, over the passes it makes before the timer expires, are a
    [device-header] announcing N streams followed by exactly N
    [stream-header] records that are valid (known type, default profile
    index within the profiles) and have distinct names, and nothing else. *)
Theorem init_returns_true_iff (polls : list (list sample)) :
  init_returns polls = Ok true
  <-> ∃ used rest, polls = (used ++ rest)%list ∧ handshake (taken (concat used)).
Proof.
  unfold init_returns, init. split.
  - destruct (init_loop (init_begin ∅) polls) as [s'|e] eqn:E; [|discriminate].
    intros H.
    assert (Hdone : state s' = DONE)
      by (destruct (state s'); cbn in H; congruence).
    clear H.
    apply init_loop_inv in E as (used & rest & -> & Hrun).
    exists used, rest. split; [reflexivity|].
    apply run_handshake. eauto.
  - intros (used & rest & -> & Hh).
    apply run_handshake in Hh as (s' & Hrun & Hdone).
    rewrite (init_loop_prefix used rest _ s' Hrun Hdone), Hdone. reflexivity.
Qed.

Lemma init_returns_true_on_two_streams :
  init_returns [[valid (device_header 2)]; [];
                [valid depth_header; valid color_header]; [valid (other "late")]]
  = Ok true.
Proof.
  apply (proj2 (init_returns_true_iff
                  [[valid (device_header 2)]; [];
                   [valid depth_header; valid color_header];
                   [valid (other "late")]])).
  exists [[valid (device_header 2)]; []; [valid depth_header; valid color_header]],
         [[valid (other "late")]].
  split; [reflexivity|].
  exists 2, [depth_header; color_header].
  split; [reflexivity|]. split; [reflexivity|].
  split; [repeat constructor|].
  cbn. apply NoDup_cons. split.
  - intros [H|H]%elem_of_cons; [discriminate H | now apply not_elem_of_nil in H].
  - apply NoDup_singleton.
Defined.

End InitFacts.

(** ** Invariants of the broadcaster *)

Module BroadcasterInvariantFacts.
Import Broadcaster BroadcasterShape BroadcasterInvariant BroadcasterFacts
       AnnouncerFacts.

Ltac trivial_pass Hinv :=
  split; [reflexivity|];
  split; [first [left; reflexivity | right; reflexivity]|];
  split; [exact Hinv|];
  split; [exact id|];
  split; [first [discriminate | intros _; split; reflexivity]|];
  split; [first [discriminate | intros _; reflexivity]|];
  intros; reflexivity.

Lemma handles_set_net (b : dds_device_broadcaster) (n : bus) (w : world) :
  bc w = b -> handles {| bc := b; net := n |} = handles w.
Proof. intros <-. reflexivity. Qed.

Lemma query_device_info_record_ok (d : option rs2_device) (m : device_info) :
  query_device_info d = Ok m -> record_ok m.
Proof.
  unfold query_device_info, record_ok. destruct d as [d|]; [|discriminate].
  destruct (get_topic_root _ _) as [root|] eqn:E; [|discriminate].
  intros [= <-]. exact E.
Qed.

Lemma query_device_info_serial (d : rs2_device) (m : device_info) :
  query_device_info (Some d) = Ok m -> serial m = RS2_CAMERA_INFO_SERIAL_NUMBER d.
Proof.
  unfold query_device_info. destruct (get_topic_root _ _); [|discriminate].
  intros [= <-]. reflexivity.
Qed.

Lemma query_device_info_outcome (d : rs2_device) :
  (∃ m, query_device_info (Some d) = Ok m)
  ∨ query_device_info (Some d) = Throw out_of_range.
Proof.
  unfold query_device_info. destruct (get_topic_root _ _); eauto.
Qed.

Lemma wire_inv_deliver (w : world) (dw : writer) (m : device_info) (b : dds_device_broadcaster) :
  wire_inv w -> record_ok m ->
  wire_inv {| bc := b; net := deliver dw m (net w) |}.
Proof.
  intros [Hw Hi] Hm. split; cbn [net deliver written inbox].
  - apply Forall_app. split; [exact Hw|]. repeat constructor. exact Hm.
  - apply Forall_app. split; [exact Hi|].
    apply Forall_fmap, Forall_forall. intros r _. exact Hm.
Qed.

Lemma wire_inv_same_net (w w' : world) :
  written (net w') = written (net w) -> inbox (net w') = inbox (net w) ->
  wire_inv w -> wire_inv w'.
Proof. unfold wire_inv. intros -> ->. auto. Qed.

Lemma world_inv_set_flag (k : string) (v : bool) (w : world) :
  world_inv w ->
  (v = true -> ∀ h, handles w !! k = Some h -> is_Some (data_writer h)) ->
  world_inv (set_new_reader_joined k v w).
Proof.
  intros Hinv Hv k' h'. rewrite lookup_set_new_reader_joined.
  destruct (decide (k = k')) as [<-|Hne]; [|apply Hinv].
  destruct (handles w !! k) as [h|] eqn:Hk; [|discriminate].
  cbn [fmap option_fmap option_map]. intros [= <-].
  destruct (Hinv k h Hk) as [Hd (l & Hl & _)].
  split; [exact Hd|]. cbn [listener data_writer]. rewrite Hl.
  cbn [fmap option_fmap option_map]. eexists. split; [reflexivity|].
  cbn [_new_reader_joined]. intros ->. now apply Hv.
Qed.

(** The loop body on a handle of the expected shape: it ends normally or
    with the [std::out_of_range] of [get_topic_root]; the shape is kept;
    what it writes carries the topic root of its name and serial; with no
    flag set, and when it throws, nothing changes. *)
Lemma announce_handle_inv (P : publisher) (k : string) (w : world) :
  world_inv w ->
  ∃ o w', announce_handle P k w = (o, w')
          ∧ (o = Ok tt ∨ o = Throw out_of_range)
          ∧ world_inv w'
          ∧ (wire_inv w -> wire_inv w')
          ∧ (flagged k w = false -> o = Ok tt ∧ w' = w)
          ∧ (o = Throw out_of_range -> w' = w)
          ∧ (∀ k', k' ≠ k -> handles w' !! k' = handles w !! k').
Proof.
  intros Hinv. unfold announce_handle, flagged.
  destruct (handles w !! k) as [h|] eqn:Hk.
  2:{ exists (Ok tt), w. trivial_pass Hinv. }
  destruct (Hinv k h Hk) as [(d & Hd & Hs) (l & Hl & Hw)].
  rewrite Hl. destruct (_new_reader_joined l) eqn:Hflag.
  2:{ exists (Ok tt), w. trivial_pass Hinv. }
  destruct (Hw eq_refl) as [dw Hdw]. rewrite Hd.
  destruct (query_device_info_outcome d) as [[m Hm]|Hm]; rewrite Hm.
  2:{ exists (Throw out_of_range), w. trivial_pass Hinv. }
  pose proof (query_device_info_record_ok _ _ Hm) as Hrec.
  pose proof (query_device_info_serial _ _ Hm) as Hser.
  unfold send_device_info_msg, index. rewrite Hser, Hs, Hk, with_handles_id, Hdw.
  destruct (write P dw).
  - eexists _, _. split; [reflexivity|]. split; [auto|]. split.
    { apply world_inv_set_flag; [|discriminate].
      intros k' h'. rewrite (handles_set_net (bc w) _ w eq_refl). apply Hinv. }
    split.
    { intros Hwire. eapply wire_inv_same_net;
        [| | exact (wire_inv_deliver w dw m (bc w) Hwire Hrec)]; reflexivity. }
    split; [discriminate|]. split; [discriminate|].
    intros k' Hne. rewrite lookup_set_new_reader_joined.
    rewrite decide_False by congruence. reflexivity.
  - exists (Ok tt), w. trivial_pass Hinv.
Qed.

Lemma flagged_same (k : string) (w w' : world) :
  handles w' !! k = handles w !! k -> flagged k w' = flagged k w.
Proof. unfold flagged. intros ->. reflexivity. Qed.

Lemma announce_each_inv (P : publisher) (ks : list string) :
  ∀ w, world_inv w ->
  ∃ o w', announce_each P ks w = (o, w')
          ∧ (o = Ok tt ∨ o = Throw out_of_range)
          ∧ world_inv w'
          ∧ (wire_inv w -> wire_inv w').
Proof.
  induction ks as [|k ks IH]; intros w Hinv.
  - exists (Ok tt), w. cbn [announce_each].
    split; [reflexivity|]. split; [left; reflexivity|].
    split; [exact Hinv | exact id].
  - destruct (announce_handle_inv P k w Hinv)
      as (o & w1 & E & Ho & Hinv1 & Hwire1 & _).
    cbn [announce_each]. rewrite E. destruct Ho as [-> | ->].
    + destruct (IH w1 Hinv1) as (o' & w' & E' & Ho' & Hinv' & Hwire').
      exists o', w'. rewrite E'.
      split; [reflexivity|]. split; [exact Ho'|].
      split; [exact Hinv' | auto].
    + exists (Throw out_of_range), w1.
      split; [reflexivity|]. split; [right; reflexivity|].
      split; [exact Hinv1 | exact Hwire1].
Qed.

Lemma world_inv_set_trigger (t : bool) (w : world) :
  world_inv w -> world_inv {| bc := set_trigger t (bc w); net := net w |}.
Proof. intros H. exact H. Qed.

Lemma world_inv_add (P : publisher) (dev : rs2_device) (w : world) :
  world_inv w -> world_inv (add_device P dev w).2.
Proof.
  intros Hinv. rewrite add_device_unfold. unfold add_dds_device.
  destruct (handles w !! _) eqn:Hk; [exact Hinv|].
  unfold create_device_writer. cbn [snd]. intros k h.
  rewrite handles_with_handles.
  destruct (decide (RS2_CAMERA_INFO_SERIAL_NUMBER dev = k)) as [<-|Hne].
  - rewrite lookup_insert_eq. intros [= <-]. split; cbn; eauto.
    eexists. split; [reflexivity|]. discriminate.
  - rewrite lookup_insert_ne by exact Hne. apply Hinv.
Qed.

Lemma world_inv_remove (P : publisher) (dev : rs2_device) (w w' : world)
    (o : result fault unit) :
  world_inv w -> remove_device P dev w = (o, w') ->
  o ≠ Throw null_dereference -> world_inv w'.
Proof.
  intros Hinv. rewrite remove_device_unfold. unfold remove_dds_device, index.
  set (sn := RS2_CAMERA_INFO_SERIAL_NUMBER dev).
  destruct (handles w !! sn) as [h|] eqn:Hk.
  - destruct (negb _).
    + destruct (data_writer h); intros [= <- <-] Ho; [|congruence].
      rewrite with_handles_id. exact Hinv.
    + destruct (data_writer h); intros [= <- <-] _ k h' Hl;
        change (delete sn (handles w) !! k = Some h') in Hl;
        apply lookup_delete_Some in Hl as [_ Hl]; now apply Hinv.
  - cbn [data_writer default_handle]. destruct (negb _).
    + intros [= <- <-] Ho. congruence.
    + intros [= <- <-] _ k h' Hl.
      change (delete sn (<[sn := default_handle]> (handles w)) !! k = Some h')
        in Hl.
      apply lookup_delete_Some in Hl as [Hne Hl].
      rewrite lookup_insert_ne in Hl by exact Hne. now apply Hinv.
Qed.

Lemma world_inv_join (P : publisher) (sn : string) (r : reader) (w : world) :
  world_inv w -> world_inv (step P (ev_reader_joins sn r) w).2.
Proof.
  intros Hinv. cbn [step].
  destruct (handles w !! sn) as [h|] eqn:Hk; [|exact Hinv].
  destruct (data_writer h) as [dw|] eqn:Hdw; [|exact Hinv].
  cbn [snd]. unfold on_publication_matched. cbn [Z.eqb Pos.eqb].
  change (handles {| bc := bc w; net := match_reader dw r (net w) |})
    with (handles w).
  rewrite Hk. destruct (listener h); [|exact Hinv].
  apply world_inv_set_trigger.
  apply world_inv_set_flag; [exact Hinv|].
  intros _ h'.
  change (handles {| bc := bc w; net := match_reader dw r (net w) |})
    with (handles w).
  rewrite Hk. intros [= <-]. rewrite Hdw. eauto.
Qed.

Lemma step_inv (P : publisher) (e : event) (w w' : world)
    (o : result fault unit) :
  world_inv w -> step P e w = (o, w') -> o ≠ Throw null_dereference ->
  world_inv w'.
Proof.
  intros Hinv. destruct e as [dev | dev | sn r | ]; cbn [step].
  - intros [= <- <-] _. now apply world_inv_add.
  - apply world_inv_remove. exact Hinv.
  - intros E _. pose proof (world_inv_join P sn r w Hinv) as H.
    cbn [step] in H. rewrite E in H. exact H.
  - unfold new_client_handler. destruct (_ && _).
    + unfold announce. intros E _.
      destruct (announce_each_inv P (keys_in_order
                  (handles {| bc := set_trigger false (bc w); net := net w |}))
                  _ (world_inv_set_trigger false w Hinv))
        as (o' & w'' & E' & _ & H' & _).
      rewrite E in E'. injection E' as <- <-. exact H'.
    + intros [= <- <-] _. exact Hinv.
Qed.

Lemma world_inv_initial : world_inv initial.
Proof. intros k h. cbn. rewrite lookup_empty. discriminate. Qed.

Lemma steps_inv (P : publisher) (es : list event) :
  ∀ w w' o, world_inv w -> steps P es w = (o, w') ->
            o ≠ Throw null_dereference -> world_inv w'.
Proof.
  induction es as [|e es IH]; intros w w' o Hinv; cbn [steps].
  - intros [= <- <-] _. exact Hinv.
  - destruct (step P e w) as [[[]|f] w1] eqn:E.
    + apply IH. eapply step_inv; [exact Hinv | exact E | discriminate].
    + intros [= <- <-] Ho. eapply step_inv; [exact Hinv | exact E | exact Ho].
Qed.

(** X1: on a broadcaster driven from its start through [add_device],
    [remove_device], reader matches and announcer passes, as long as no
    null pointer was dereferenced, every handle holds the device it was
    added for under that device's serial, has a listener, and has its
    needs-send flag set only if it has a writer. *)
Theorem handles_keep_their_shape (P : publisher) (es : list event)
    (o : result fault unit) (w : world) :
  steps P es initial = (o, w) -> o ≠ Throw null_dereference -> world_inv w.
Proof. apply steps_inv, world_inv_initial. Qed.

Lemma handles_keep_their_shape_D435 :
  world_inv (steps sample_publisher
               [ev_add_device D435; ev_reader_joins "112233" 1; ev_announcer]
               initial).2.
Proof.
  apply (handles_keep_their_shape sample_publisher
           [ev_add_device D435; ev_reader_joins "112233" 1; ev_announcer]
           (Ok tt)).
  - vm_compute. reflexivity.
  - discriminate.
Defined.

End BroadcasterInvariantFacts.

(** ** What the broadcaster writes, and when *)

Module BroadcasterWireFacts.
Import Broadcaster BroadcasterShape BroadcasterInvariant BroadcasterFacts
       AnnouncerFacts BroadcasterInvariantFacts.

Lemma send_device_info_msg_wire (P : publisher) (m : device_info) (w : world) :
  record_ok m -> wire_inv w -> wire_inv (send_device_info_msg P m w).2.
Proof.
  intros Hm Hw. unfold send_device_info_msg.
  destruct (index (serial m) (handles w)) as [h hs].
  destruct (data_writer h) as [dw|]; [|exact Hw].
  destruct (write P dw); [|exact Hw].
  exact (wire_inv_deliver w dw m _ Hw Hm).
Qed.

Lemma announce_handle_wire (P : publisher) (k : string) (w : world) :
  wire_inv w -> wire_inv (announce_handle P k w).2.
Proof.
  intros Hw. unfold announce_handle.
  destruct (handles w !! k) as [h|]; [|exact Hw].
  destruct (listener h) as [l|]; [|exact Hw].
  destruct (_new_reader_joined l); [|exact Hw].
  destruct (query_device_info (device h)) as [m|f] eqn:Hq; [|exact Hw].
  pose proof (send_device_info_msg_wire P m w
                (query_device_info_record_ok _ _ Hq) Hw) as Hs.
  destruct (send_device_info_msg P m w) as [[[]|f] w']; exact Hs.
Qed.

Lemma announce_each_wire (P : publisher) (ks : list string) (w : world) :
  wire_inv w -> wire_inv (announce_each P ks w).2.
Proof.
  revert w. induction ks as [|k ks IH]; intros w Hw; [exact Hw|].
  cbn [announce_each]. pose proof (announce_handle_wire P k w Hw) as H1.
  destruct (announce_handle P k w) as [[[]|f] w1]; [now apply IH | exact H1].
Qed.

Lemma step_wire (P : publisher) (e : event) (w : world) :
  wire_inv w -> wire_inv (step P e w).2.
Proof.
  intros Hw. destruct e as [dev | dev | sn r | ]; cbn [step].
  - cbn [snd]. rewrite add_device_unfold. unfold add_dds_device.
    destruct (handles w !! _); exact Hw.
  - rewrite remove_device_unfold. unfold remove_dds_device.
    destruct (index _ (handles w)) as [h hs].
    destruct (negb _); destruct (data_writer h); exact Hw.
  - destruct (handles w !! sn) as [h|] eqn:Hk; [|exact Hw].
    destruct (data_writer h) as [dw|]; [|exact Hw].
    cbn [snd]. unfold on_publication_matched. cbn [Z.eqb Pos.eqb].
    change (handles {| bc := bc w; net := match_reader dw r (net w) |})
      with (handles w).
    rewrite Hk. destruct (listener h); exact Hw.
  - unfold new_client_handler. destruct (_ && _); [|exact Hw].
    apply announce_each_wire. exact Hw.
Qed.

Lemma steps_wire (P : publisher) (es : list event) (w : world) :
  wire_inv w -> wire_inv (steps P es w).2.
Proof.
  revert w. induction es as [|e es IH]; intros w Hw; [exact Hw|].
  cbn [steps]. pose proof (step_wire P e w Hw) as H1.
  destruct (step P e w) as [[[]|f] w1]; [now apply IH | exact H1].
Qed.

(** X2: every device-info record the broadcaster has written, and every
    record a subscriber has received, carries as its topic root what
    [get_topic_root] computes from the record's own name and serial:
    ["realsense/"], the name without its first 16 characters, ["/"] and the
    serial.  This holds after any sequence of operations, faults
    included. *)
Theorem records_carry_their_topic_root (P : publisher) (es : list event)
    (x : device_info) :
  x ∈ ((snd <$> written (net (steps P es initial).2))
       ++ (snd <$> inbox (net (steps P es initial).2)))%list ->
  16 <= String.length (name x)
  ∧ topic_root x
    = TopicRoot.RS_ROOT +:+ StdString.drop_front 16 (name x) +:+ "/" +:+ serial x.
Proof.
  assert (Hw : wire_inv (steps P es initial).2).
  { apply steps_wire. split; constructor. }
  destruct Hw as [Hwr Hin]. rewrite Forall_forall in Hwr, Hin.
  intros Hx.
  assert (Hok : record_ok x).
  { apply elem_of_app in Hx as [Hx|Hx];
      apply list_elem_of_fmap in Hx as ([a m] & -> & Hm);
      [exact (Hwr _ Hm) | exact (Hin _ Hm)]. }
  unfold record_ok, get_topic_root, TopicRoot.Broadcaster.get_topic_root,
    StdString.substr in Hok.
  change (String.length TopicRoot.DEVICE_NAME_PREFIX) with 16 in Hok.
  destruct (decide (16 <= String.length (name x))); [|discriminate].
  split; [assumption|]. cbn [mbind option_bind] in Hok. congruence.
Qed.

Lemma records_carry_their_topic_root_D435 :
  16 <= String.length "Intel RealSense D435"
  ∧ "realsense/D435/112233"
    = TopicRoot.RS_ROOT +:+ StdString.drop_front 16 "Intel RealSense D435"
      +:+ "/" +:+ "112233".
Proof.
  apply (records_carry_their_topic_root sample_publisher
           [ev_add_device D435; ev_reader_joins "112233" 1; ev_announcer]
           (info_of D435)).
  vm_compute. apply list_elem_of_here.
Defined.

(** *** Nothing is written before a reader joins *)

Lemma announce_handle_no_flag (P : publisher) (k : string) (w : world) :
  no_flag w -> (announce_handle P k w).2 = w.
Proof.
  intros Hnf. unfold announce_handle.
  destruct (handles w !! k) as [h|] eqn:Hk; [|reflexivity].
  destruct (listener h) as [l|] eqn:Hl; [|reflexivity].
  rewrite (Hnf k h l Hk Hl). reflexivity.
Qed.

Lemma announce_each_no_flag (P : publisher) (ks : list string) (w : world) :
  no_flag w -> (announce_each P ks w).2 = w.
Proof.
  intros Hnf. induction ks as [|k ks IH]; [reflexivity|].
  cbn [announce_each]. pose proof (announce_handle_no_flag P k w Hnf) as H1.
  destruct (announce_handle P k w) as [[[]|f] w1]; cbn [snd] in H1; subst w1;
    [exact IH | reflexivity].
Qed.

Lemma no_flag_delete (k : string) (m : gmap string dds_device_handle) (w : world) :
  (∀ k' h l, m !! k' = Some h -> listener h = Some l ->
             _new_reader_joined l = false) ->
  ∀ n, no_flag {| bc := set_handles (delete k m) (bc w); net := n |}.
Proof.
  intros Hm n k' h l Hl Hlis. change (delete k m !! k' = Some h) in Hl.
  apply lookup_delete_Some in Hl as [_ Hl]. exact (Hm k' h l Hl Hlis).
Qed.

Lemma step_no_flag (P : publisher) (e : event) (w : world) :
  is_join e = false -> no_flag w ->
  no_flag (step P e w).2
  ∧ written (net (step P e w).2) = written (net w)
  ∧ inbox (net (step P e w).2) = inbox (net w).
Proof.
  intros He Hnf. destruct e as [dev | dev | sn r | ]; [| | discriminate He |];
    cbn [step].
  - cbn [snd]. rewrite add_device_unfold. unfold add_dds_device.
    destruct (handles w !! _) eqn:Hk; [auto|].
    unfold create_device_writer. cbn [snd]. split; [|split; reflexivity].
    intros k h l. rewrite handles_with_handles.
    destruct (decide (RS2_CAMERA_INFO_SERIAL_NUMBER dev = k)) as [<-|Hne].
    + rewrite lookup_insert_eq. intros [= <-] [= <-]. reflexivity.
    + rewrite lookup_insert_ne by exact Hne. apply Hnf.
  - rewrite remove_device_unfold. unfold remove_dds_device, index.
    set (sn := RS2_CAMERA_INFO_SERIAL_NUMBER dev).
    assert (Hdef : ∀ k' h l, <[sn := default_handle]> (handles w) !! k' = Some h ->
                             listener h = Some l -> _new_reader_joined l = false).
    { intros k' h l. destruct (decide (sn = k')) as [<-|Hne].
      - rewrite lookup_insert_eq. intros [= <-]. discriminate.
      - rewrite lookup_insert_ne by exact Hne. apply Hnf. }
    destruct (handles w !! sn) as [h|] eqn:Hk.
    + destruct (negb _).
      * destruct (data_writer h); cbn [snd]; rewrite with_handles_id; auto.
      * destruct (data_writer h); cbn [snd];
          (split; [apply no_flag_delete; exact Hnf | split; reflexivity]).
    + cbn [data_writer default_handle]. destruct (negb _); cbn [snd].
      * split; [exact Hdef | split; reflexivity].
      * split; [apply no_flag_delete; exact Hdef | split; reflexivity].
  - unfold new_client_handler. destruct (_ && _); [|auto].
    unfold announce. rewrite announce_each_no_flag by exact Hnf.
    split; [exact Hnf | split; reflexivity].
Qed.

Lemma steps_no_flag (P : publisher) (es : list event) :
  forallb (fun e => negb (is_join e)) es = true ->
  ∀ w, no_flag w ->
       written (net (steps P es w).2) = written (net w)
       ∧ inbox (net (steps P es w).2) = inbox (net w).
Proof.
  induction es as [|e es IH]; intros Hes w Hnf; [auto|].
  cbn [forallb] in Hes. apply andb_true_iff in Hes as [He Hes].
  apply negb_true_iff in He.
  destruct (step_no_flag P e w He Hnf) as (Hnf1 & Hw1 & Hi1).
  cbn [steps]. destruct (step P e w) as [[[]|f] w1]; cbn [snd] in *.
  - destruct (IH Hes w1 Hnf1) as [Hw Hi]. split; congruence.
  - auto.
Qed.

(** X3: as long as no reader has joined, the broadcaster writes nothing:
    whatever devices are added and removed and however often the announcer
    runs, no record is written and none is received. *)
Theorem nothing_written_before_a_reader_joins (P : publisher) (es : list event) :
  forallb (fun e => negb (is_join e)) es = true ->
  written (net (steps P es initial).2) = []
  ∧ inbox (net (steps P es initial).2) = [].
Proof.
  intros Hes. apply (steps_no_flag P es Hes initial).
  intros k h l. cbn. rewrite lookup_empty. discriminate.
Qed.

Lemma nothing_written_before_a_reader_joins_D435 :
  written (net (steps sample_publisher
                  [ev_add_device D435; ev_announcer; ev_remove_device D435;
                   ev_add_device D435; ev_announcer] initial).2) = []
  ∧ inbox (net (steps sample_publisher
                  [ev_add_device D435; ev_announcer; ev_remove_device D435;
                   ev_add_device D435; ev_announcer] initial).2) = [].
Proof.
  apply (nothing_written_before_a_reader_joins sample_publisher
           [ev_add_device D435; ev_announcer; ev_remove_device D435;
            ev_add_device D435; ev_announcer]).
  reflexivity.
Defined.

End BroadcasterWireFacts.

(** ** Faults, refused writes and short names *)

Module BroadcasterEdgeFacts.
Import Broadcaster BroadcasterShape BroadcasterInvariant BroadcasterFacts
       AnnouncerFacts SubscriberFacts BroadcasterInvariantFacts.

Lemma step_outcome (P : publisher) (e : event) (w : world) :
  world_inv w -> is_removal e = false ->
  (step P e w).1 = Ok tt ∨ (step P e w).1 = Throw out_of_range.
Proof.
  intros Hinv He. destruct e as [dev | dev | sn r | ]; [| discriminate He | |];
    cbn [step].
  - auto.
  - destruct (handles w !! sn) as [h|]; [destruct (data_writer h)|]; auto.
  - unfold new_client_handler. destruct (_ && _); [|auto].
    unfold announce.
    destruct (announce_each_inv P (keys_in_order
                (handles {| bc := set_trigger false (bc w); net := net w |}))
                _ (world_inv_set_trigger false w Hinv))
      as (o & w' & E & Ho & _).
    rewrite E. exact Ho.
Qed.

Lemma steps_outcome (P : publisher) (es : list event) :
  forallb (fun e => negb (is_removal e)) es = true ->
  ∀ w, world_inv w ->
       (steps P es w).1 = Ok tt ∨ (steps P es w).1 = Throw out_of_range.
Proof.
  induction es as [|e es IH]; intros Hes w Hinv; [auto|].
  cbn [forallb] in Hes. apply andb_true_iff in Hes as [He Hes].
  apply negb_true_iff in He.
  pose proof (step_outcome P e w Hinv He) as Ho.
  cbn [steps]. destruct (step P e w) as [[[]|f] w1] eqn:E; cbn [fst] in Ho.
  - apply IH; [exact Hes|].
    eapply step_inv; [exact Hinv | exact E | discriminate].
  - destruct Ho as [Ho|Ho]; [discriminate Ho | cbn [fst]; auto].
Qed.

(** X4: without [remove_device], the broadcaster never dereferences a null
    pointer and never queries an empty device: whatever devices are added,
    whatever readers join and however often the announcer runs, every
    operation ends normally or with the [std::out_of_range] that
    [get_topic_root] throws on a name shorter than 16 characters. *)
Theorem no_null_dereference_without_removal (P : publisher) (es : list event) :
  forallb (fun e => negb (is_removal e)) es = true ->
  (steps P es initial).1 = Ok tt
  ∨ (steps P es initial).1 = Throw out_of_range.
Proof. intros Hes. apply steps_outcome; [exact Hes | exact world_inv_initial]. Qed.

Lemma no_null_dereference_without_removal_T265 :
  (steps sample_publisher
     [ev_add_device T265_short; ev_reader_joins "9001" 1; ev_announcer]
     initial).1 = Ok tt
  ∨ (steps sample_publisher
       [ev_add_device T265_short; ev_reader_joins "9001" 1; ev_announcer]
       initial).1 = Throw out_of_range.
Proof.
  apply (no_null_dereference_without_removal sample_publisher
           [ev_add_device T265_short; ev_reader_joins "9001" 1; ev_announcer]).
  reflexivity.
Defined.

(** *** A refused write *)

Lemma announce_handle_bc (P : publisher) (k : string) (w : world) :
  _trigger_msg_send (bc (announce_handle P k w).2) = _trigger_msg_send (bc w)
  ∧ _active (bc (announce_handle P k w).2) = _active (bc w).
Proof.
  unfold announce_handle.
  destruct (handles w !! k) as [h|]; [|auto].
  destruct (listener h) as [l|]; [|auto].
  destruct (_new_reader_joined l); [|auto].
  destruct (query_device_info (device h)) as [m|f]; [|auto].
  unfold send_device_info_msg.
  destruct (index (serial m) (handles w)) as [h' hs].
  destruct (data_writer h') as [dw|]; [|auto].
  destruct (write P dw); auto.
Qed.

Lemma announce_each_bc (P : publisher) (ks : list string) (w : world) :
  _trigger_msg_send (bc (announce_each P ks w).2) = _trigger_msg_send (bc w)
  ∧ _active (bc (announce_each P ks w).2) = _active (bc w).
Proof.
  revert w. induction ks as [|k ks IH]; intros w; [auto|].
  cbn [announce_each]. pose proof (announce_handle_bc P k w) as [H1 H2].
  destruct (announce_handle P k w) as [[[]|f] w1]; cbn [snd] in *.
  - destruct (IH w1) as [H3 H4]. split; congruence.
  - auto.
Qed.

Lemma announce_each_keeps_refused (P : publisher) (sn : string)
    (h : dds_device_handle) (dw : writer) (ks : list string) :
  data_writer h = Some dw -> write P dw = false ->
  ∀ w, all_ok (handles w) -> handles w !! sn = Some h ->
       ∃ w', announce_each P ks w = (Ok tt, w') ∧ handles w' !! sn = Some h.
Proof.
  intros Hdw Hwr. induction ks as [|k ks IH]; intros w Hok Hsn.
  - exists w. auto.
  - destruct (announce_handle_step P k w Hok)
      as (w1 & E1 & Hok1 & _ & Hsame & _).
    assert (Hsn1 : handles w1 !! sn = Some h).
    { destruct (decide (sn = k)) as [->|Hne]; [|rewrite Hsame; auto].
      destruct (handle_ok_inv k h (Hok k h Hsn))
        as (d & dw' & l & Hd & Hdw' & Hl & Hs & Hlen).
      rewrite (announce_handle_ok P k w h d dw' l Hsn Hd Hdw' Hl Hs Hlen) in E1.
      assert (dw' = dw) as -> by congruence.
      rewrite Hwr, andb_false_r in E1. injection E1 as <-. exact Hsn. }
    destruct (IH w1 Hok1 Hsn1) as (w' & E' & Hsn').
    exists w'. cbn [announce_each]. rewrite E1. auto.
Qed.

(** X5: when the bus refuses the write of a device's record, the announcer
    keeps the handle's needs-send flag as it was but has already cleared
    the trigger: the pass ends normally with no record of the device
    delivered, and another announcer pass does nothing.  The record is not
    sent again until some reader joins a writer. *)
Theorem refused_write_is_not_retried
    (P : publisher) (w : world) (sn : string) (h : dds_device_handle)
    (dw : writer) :
  _active (bc w) = true -> _trigger_msg_send (bc w) = true ->
  handles_ok (handles w) = true ->
  handles w !! sn = Some h -> data_writer h = Some dw ->
  flagged sn w = true -> write P dw = false ->
  ∃ w2, step P ev_announcer w = (Ok tt, w2)
        ∧ flagged sn w2 = true
        ∧ _trigger_msg_send (bc w2) = false
        ∧ (∀ r, records_of r sn (net w2) = records_of r sn (net w))
        ∧ step P ev_announcer w2 = (Ok tt, w2).
Proof.
  intros Hact Htrig Hok Hsn Hdw Hflag Hwr. apply handles_ok_all_ok in Hok.
  cbn [step]. rewrite new_client_handler_go by assumption.
  set (wa := {| bc := set_trigger false (bc w); net := net w |}).
  unfold announce.
  assert (Hoka : all_ok (handles wa)) by exact Hok.
  assert (Hsna : handles wa !! sn = Some h) by exact Hsn.
  destruct (announce_each_keeps_refused P sn h dw (keys_in_order (handles wa))
              Hdw Hwr wa Hoka Hsna) as (w2 & E & Hsn2).
  destruct (announce_each_ok P (keys_in_order (handles wa))
              (keys_in_order_NoDup _) wa Hoka)
    as (w2' & E' & _ & _ & _ & Hrec).
  rewrite E in E'. injection E' as <-.
  pose proof (announce_each_bc P (keys_in_order (handles wa)) wa) as [Ht Ha].
  rewrite E in Ht, Ha. cbn [snd] in Ht, Ha.
  rewrite E. exists w2. split; [reflexivity|].
  split; [unfold flagged in *; rewrite Hsn2; rewrite Hsn in Hflag; exact Hflag|].
  split; [exact Ht|]. split.
  - intros r. rewrite Hrec.
    assert (Hzero : announced P wa sn r = 0).
    { unfold announced. rewrite Hsna, Hdw.
      destruct (listener h) as [l|]; [|reflexivity].
      rewrite Hwr, andb_false_r. reflexivity. }
    rewrite Hzero. destruct (bool_decide _); cbn [net wa]; lia.
  - unfold new_client_handler. rewrite Ht. cbn [set_trigger wa bc _trigger_msg_send].
    rewrite andb_false_r. reflexivity.
Qed.

Lemma refused_write_is_not_retried_D435 :
  ∃ w2,
    step refusing_publisher ev_announcer
         (steps refusing_publisher
            [ev_add_device D435; ev_reader_joins "112233" 1] initial).2
    = (Ok tt, w2)
    ∧ flagged "112233" w2 = true
    ∧ _trigger_msg_send (bc w2) = false.
Proof.
  destruct (refused_write_is_not_retried refusing_publisher
              (steps refusing_publisher
                 [ev_add_device D435; ev_reader_joins "112233" 1] initial).2
              "112233"
              {| device := Some D435; data_writer := Some 7;
                 listener := Some {| _new_reader_joined := true |} |} 7)
    as (w2 & E & Hf & Ht & _);
    [reflexivity | reflexivity | vm_compute; reflexivity
    | vm_compute; reflexivity | reflexivity | reflexivity | reflexivity |].
  exists w2. auto.
Defined.

(** *** A device with a short name *)

Lemma announce_handle_short (P : publisher) (sn : string) (w : world)
    (h : dds_device_handle) (d : rs2_device) (l : dds_client_listener) :
  handles w !! sn = Some h -> device h = Some d -> listener h = Some l ->
  _new_reader_joined l = true ->
  String.length (RS2_CAMERA_INFO_NAME d) < 16 ->
  announce_handle P sn w = (Throw out_of_range, w).
Proof.
  intros Hsn Hd Hl Hf Hlen. unfold announce_handle.
  rewrite Hsn, Hl, Hf, Hd. unfold query_device_info.
  assert (E : get_topic_root (RS2_CAMERA_INFO_NAME d)
                (RS2_CAMERA_INFO_SERIAL_NUMBER d) = None)
    by (apply TopicRootFacts.broadcaster_throws_iff; exact Hlen).
  rewrite E. reflexivity.
Qed.

Lemma announce_each_short (P : publisher) (sn : string)
    (h : dds_device_handle) (d : rs2_device) (l : dds_client_listener)
    (w : world) (ks : list string) :
  world_inv w -> (∀ k, k ≠ sn -> flagged k w = false) ->
  handles w !! sn = Some h -> device h = Some d -> listener h = Some l ->
  _new_reader_joined l = true ->
  String.length (RS2_CAMERA_INFO_NAME d) < 16 ->
  sn ∈ ks -> announce_each P ks w = (Throw out_of_range, w).
Proof.
  intros Hinv Hothers Hsn Hd Hl Hf Hlen.
  induction ks as [|k ks IH]; intros Hin; [now apply not_elem_of_nil in Hin|].
  cbn [announce_each]. destruct (decide (k = sn)) as [->|Hne].
  - rewrite (announce_handle_short P sn w h d l Hsn Hd Hl Hf Hlen). reflexivity.
  - destruct (announce_handle_inv P k w Hinv)
      as (o & w1 & E & _ & _ & _ & Hnf & _).
    destruct (Hnf (Hothers k Hne)) as [-> ->]. rewrite E.
    apply IH. apply elem_of_cons in Hin as [Heq|Hin]; [congruence | exact Hin].
Qed.

(** X6: a device whose name is shorter than 16 characters is registered
    but never announced.  [add_device] throws [std::out_of_range] to its
    caller after the handle has been registered; when a reader then joins
    the device's writer, the announcer pass throws [std::out_of_range],
    writes nothing, and leaves the handle's needs-send flag set. *)
Theorem short_named_device_is_never_announced
    (P : publisher) (dev : rs2_device) (w : world) (r : reader) :
  let sn := RS2_CAMERA_INFO_SERIAL_NUMBER dev in
  String.length (RS2_CAMERA_INFO_NAME dev) < 16 ->
  is_Some (create_datawriter P sn) ->
  _active (bc w) = true -> world_inv w -> no_flag w ->
  handles w !! sn = None ->
  (add_device P dev w).1 = None
  ∧ is_Some (handles (add_device P dev w).2 !! sn)
  ∧ ∃ w2 w3,
      step P (ev_reader_joins sn r) (add_device P dev w).2 = (Ok tt, w2)
      ∧ step P ev_announcer w2 = (Throw out_of_range, w3)
      ∧ written (net w3) = written (net w)
      ∧ inbox (net w3) = inbox (net w)
      ∧ flagged sn w3 = true.
Proof.
  intros sn Hlen [dw Hcreate] Hact Hinv Hnf Hnone.
  split.
  { unfold add_device. cbn [fst].
    apply TopicRootFacts.broadcaster_throws_iff. exact Hlen. }
  rewrite add_device_unfold. fold sn. unfold add_dds_device. rewrite Hnone.
  unfold create_device_writer. cbn [snd]. rewrite Hcreate.
  set (h0 := {| device := Some dev; data_writer := Some dw;
                listener := Some {| _new_reader_joined := false |} |}).
  set (w1 := with_handles (<[sn := h0]> (handles w)) w).
  assert (Hsn1 : handles w1 !! sn = Some h0) by apply lookup_insert_eq.
  split; [rewrite Hsn1; eauto|].
  rewrite (step_reader_joins P sn r w1 h0 dw _ Hsn1 eq_refl eq_refl).
  eexists _, _. split; [reflexivity|].
  cbn [step]. rewrite new_client_handler_go by (try exact Hact; reflexivity).
  set (wa := {| bc := set_trigger false _; net := _ |}).
  set (h1 := {| device := Some dev; data_writer := Some dw;
                listener := Some {| _new_reader_joined := true |} |}).
  assert (Hlk : ∀ k, handles wa !! k
                     = if decide (sn = k) then Some h1 else handles w !! k).
  { intros k.
    change (handles wa) with (handles (set_new_reader_joined sn true w1)).
    rewrite lookup_set_new_reader_joined.
    destruct (decide (sn = k)) as [<-|Hne].
    - rewrite Hsn1. reflexivity.
    - change (handles w1) with (<[sn := h0]> (handles w)).
      now rewrite lookup_insert_ne. }
  assert (Hinva : world_inv wa).
  { intros k h. rewrite Hlk. destruct (decide (sn = k)) as [<-|Hne].
    - intros [= <-]. split; cbn; eauto.
    - apply Hinv. }
  assert (Hothers : ∀ k, k ≠ sn -> flagged k wa = false).
  { intros k Hne. unfold flagged. rewrite Hlk, decide_False by congruence.
    destruct (handles w !! k) as [h|] eqn:Hk; [|reflexivity].
    destruct (listener h) as [l|] eqn:Hl; [|reflexivity].
    exact (Hnf k h l Hk Hl). }
  assert (Hsna : handles wa !! sn = Some h1)
    by (rewrite Hlk, decide_True by reflexivity; reflexivity).
  assert (Hin : sn ∈ keys_in_order (handles wa))
    by (apply elem_of_keys_in_order; exists h1; exact Hsna).
  unfold announce.
  rewrite (announce_each_short P sn h1 dev _ wa _ Hinva Hothers Hsna
             eq_refl eq_refl eq_refl Hlen Hin).
  split; [reflexivity|]. split; [reflexivity|]. split; [reflexivity|].
  change (flagged sn wa = true). unfold flagged. rewrite Hsna. reflexivity.
Qed.

Lemma short_named_device_is_never_announced_T265 :
  (add_device sample_publisher T265_short initial).1 = None
  ∧ is_Some (handles (add_device sample_publisher T265_short initial).2 !! "9001")
  ∧ ∃ w2 w3,
      step sample_publisher (ev_reader_joins "9001" 1)
           (add_device sample_publisher T265_short initial).2 = (Ok tt, w2)
      ∧ step sample_publisher ev_announcer w2 = (Throw out_of_range, w3)
      ∧ written (net w3) = []
      ∧ inbox (net w3) = []
      ∧ flagged "9001" w3 = true.
Proof.
  apply (short_named_device_is_never_announced sample_publisher T265_short
           initial 1).
  - cbn. lia.
  - cbn. eauto.
  - reflexivity.
  - exact world_inv_initial.
  - intros k h l. cbn. rewrite lookup_empty. discriminate.
  - reflexivity.
Defined.

(** *** Adding and removing *)

(** X7: [remove_device] undoes [add_device]: for a serial that had no
    handle, adding the device and then removing it, with the writer's
    deletion accepted, ends normally and leaves the map of handles as it
    was. *)
Theorem remove_device_undoes_add_device
    (P : publisher) (dev : rs2_device) (w : world) :
  let sn := RS2_CAMERA_INFO_SERIAL_NUMBER dev in
  handles w !! sn = None ->
  delete_datawriter P (create_datawriter P sn) = RETCODE_OK ->
  (remove_device P dev (add_device P dev w).2).1 = Ok tt
  ∧ handles (remove_device P dev (add_device P dev w).2).2 = handles w.
Proof.
  intros sn Hnone Hdel. rewrite remove_device_unfold, add_device_unfold.
  fold sn. unfold add_dds_device. rewrite Hnone.
  unfold create_device_writer. cbn [snd].
  unfold remove_dds_device, index.
  rewrite handles_with_handles, lookup_insert_eq. cbn [data_writer].
  rewrite Hdel. cbn [is_RETCODE_OK negb].
  split; [reflexivity|]. cbn [snd].
  destruct (create_datawriter P sn);
    [rewrite handles_unmatch|]; rewrite !handles_with_handles;
    rewrite delete_insert_eq; now apply delete_id.
Qed.

Lemma remove_device_undoes_add_device_D435 :
  (remove_device sample_publisher D435
     (add_device sample_publisher D435 initial).2).1 = Ok tt
  ∧ handles (remove_device sample_publisher D435
               (add_device sample_publisher D435 initial).2).2
    = handles initial.
Proof.
  apply (remove_device_undoes_add_device sample_publisher D435 initial);
    reflexivity.
Defined.

(** X8: [handle_device_changes] removes before it adds.  Given the same
    key to remove and to add, with the old writer's deletion accepted, it
    replaces the handle: the new handle holds the new device, a new writer
    and a new listener whose needs-send flag is clear, whatever the flag of
    the old handle was. *)
Theorem handle_device_changes_replaces
    (P : publisher) (k : string) (dev : rs2_device) (w : world)
    (h : dds_device_handle) :
  handles w !! k = Some h ->
  delete_datawriter P (data_writer h) = RETCODE_OK ->
  (handle_device_changes P [k] [(k, dev)] w).1 = Ok tt
  ∧ handles (handle_device_changes P [k] [(k, dev)] w).2
    = <[k := {| device := Some dev;
                data_writer := create_datawriter P k;
                listener := Some {| _new_reader_joined := false |} |}]>
        (handles w).
Proof.
  intros Hk Hdel. unfold handle_device_changes. cbn [remove_all].
  unfold remove_dds_device, index. rewrite Hk, Hdel.
  cbn [is_RETCODE_OK negb]. cbn [add_all]. split; [reflexivity|].
  unfold add_dds_device.
  assert (Hgone : ∀ n, handles {| bc := bc (with_handles (delete k (handles w)) w);
                                  net := n |} !! k = None)
    by (intros n; apply lookup_delete_eq).
  destruct (data_writer h) as [dw|].
  - rewrite Hgone. unfold create_device_writer. cbn [snd].
    rewrite handles_with_handles.
    change (handles {| bc := bc (with_handles (delete k (handles w)) w);
                       net := _ |}) with (delete k (handles w)).
    apply insert_delete_eq.
  - specialize (Hgone (net w)).
    change {| bc := bc (with_handles (delete k (handles w)) w); net := net w |}
      with (with_handles (delete k (handles w)) w) in Hgone.
    rewrite Hgone. unfold create_device_writer. cbn [snd].
    rewrite !handles_with_handles. apply insert_delete_eq.
Qed.

Lemma handle_device_changes_replaces_D435 :
  (handle_device_changes sample_publisher ["112233"] [("112233", D435)]
     (steps sample_publisher
        [ev_add_device D435; ev_reader_joins "112233" 1] initial).2).1 = Ok tt
  ∧ flagged "112233"
      (handle_device_changes sample_publisher ["112233"] [("112233", D435)]
         (steps sample_publisher
            [ev_add_device D435; ev_reader_joins "112233" 1] initial).2).2
    = false.
Proof.
  destruct (handle_device_changes_replaces sample_publisher "112233" D435
              (steps sample_publisher
                 [ev_add_device D435; ev_reader_joins "112233" 1] initial).2
              {| device := Some D435; data_writer := Some 7;
                 listener := Some {| _new_reader_joined := true |} |})
    as [Ho Hh]; [vm_compute; reflexivity | reflexivity |].
  split; [exact Ho|]. unfold flagged. rewrite Hh, lookup_insert_eq. reflexivity.
Defined.

End BroadcasterEdgeFacts.

(** ** The client: timeouts, the streams [init] stores, [close] *)

Module InitMoreFacts.
Import Profiles Device HandshakeShape DeviceMore InitFacts.

Lemma init_loop_not_done (polls : list (list sample)) :
  ∀ s s', init_loop s polls = Ok s' -> state s' ≠ DONE ->
          run s (taken (concat polls)) = Ok s'.
Proof.
  induction polls as [|b polls IH]; intros s s'; cbn [init_loop].
  - intros [= <-] _. reflexivity.
  - destruct (state_eqb DONE (state s)) eqn:Hs.
    + intros [= <-] Hnd. apply state_eqb_eq in Hs. congruence.
    + rewrite take_all_run. cbn [concat]. rewrite taken_app, run_app.
      destruct (run s (taken b)) as [s1|e]; [apply IH | discriminate].
Qed.

Lemma init_loop_all (polls : list (list sample)) :
  ∀ s s', run s (taken (concat polls)) = Ok s' -> state s' ≠ DONE ->
          init_loop s polls = Ok s'.
Proof.
  induction polls as [|b polls IH]; intros s s'; cbn [init_loop concat].
  - cbn. auto.
  - rewrite taken_app, run_app. intros Hrun Hnd.
    destruct (state_eqb DONE (state s)) eqn:Hs.
    + apply state_eqb_eq in Hs. symmetry in Hs.
      destruct (run s (taken b)) as [s1|e] eqn:E1; [|discriminate].
      destruct (run_DONE s s1 _ Hs E1) as [_ ->].
      destruct (run_DONE s s' _ Hs Hrun) as [_ ->]. congruence.
    + rewrite take_all_run.
      destruct (run s (taken b)) as [s1|e]; [now apply IH | discriminate].
Qed.

Lemma on_stream_header_value (s s' : init_state) (n t sen : string) (i : Z)
    (ps : list dds_stream_profile) :
  on_stream_header s n t sen i ps = Ok s' ->
  ∃ k, type2stream t = Some k
       ∧ (0 <= i < Z.of_nat (length ps))%Z
       ∧ _streams s' = <[n := Some (stream_of k n sen i ps)]> (_streams s).
Proof.
  unfold on_stream_header.
  destruct (_ <=? _)%nat; [discriminate|].
  assert (Hbody :
    match type2stream t with
    | Some k =>
        if (i <? 0)%Z || (Z.of_nat (length ps) <=? i)%Z
        then Throw (default_profile_index_out_of_bounds n i)
        else if negb (String.eqb (type_string k) t)
        then Throw (failed_to_instantiate t (type_string k))
        else Ok {| state := if (n_streams_expected s
                                <=? size (<[n := Some (stream_of k n sen i ps)]>
                                            (_streams s)))%nat
                            then DONE else state s;
                   n_streams_expected := n_streams_expected s;
                   _streams := <[n := Some (stream_of k n sen i ps)]> (_streams s) |}
    | None => Throw (unknown_stream_type n t)
    end = Ok s' ->
    ∃ k, type2stream t = Some k
         ∧ (0 <= i < Z.of_nat (length ps))%Z
         ∧ _streams s' = <[n := Some (stream_of k n sen i ps)]> (_streams s)).
  { destruct (type2stream t) as [k|]; [|discriminate].
    destruct (Z.ltb_spec i 0); [discriminate|].
    destruct (Z.leb_spec (Z.of_nat (length ps)) i); [discriminate|].
    cbn [orb]. destruct (negb _); [discriminate|].
    intros [= <-]. exists k. repeat split; auto; lia. }
  destruct (_streams s !! n) as [[st|]|]; [discriminate | exact Hbody ..].
Qed.

(** What the accepted headers leave in [_streams]. *)
Lemma run_headers_streams (msgs : list notification) :
  ∀ s s', state s = WAIT_FOR_PROFILES -> non_null (_streams s) ->
          run s msgs = Ok s' ->
          size (_streams s') = size (_streams s) + length msgs
          ∧ (state s' = DONE -> size (_streams s') = n_streams_expected s)
          ∧ (∀ n v, _streams s !! n = Some v -> _streams s' !! n = Some v)
          ∧ (∀ j, j ∈ msgs -> _streams s !! header_name j = None)
          ∧ ∀ n t sen i ps,
              stream_header n t sen i ps ∈ msgs ->
              ∃ k, type2stream t = Some k
                   ∧ (0 <= i < Z.of_nat (length ps))%Z
                   ∧ _streams s' !! n = Some (Some (stream_of k n sen i ps)).
Proof.
  induction msgs as [|j msgs IH]; intros s s' Hs Hnn Hrun.
  - cbn in Hrun. injection Hrun as <-.
    split; [cbn; lia|]. split; [congruence|]. split; [auto|].
    split; intros; exfalso; eapply not_elem_of_nil; eauto.
  - cbn [run] in Hrun.
    destruct (on_notification s j) as [s1|e] eqn:E1; [|discriminate].
    destruct (on_notification_profiles_inv s s1 j Hs E1)
      as (n & t & sen & i & ps & -> & Eh).
    destruct (on_stream_header_inv s s1 n t sen i ps Hnn Eh)
      as (Hlt & Hfresh & _ & Hexp & Hsz & Hnn1 & _ & Hother & Hst).
    destruct (on_stream_header_value s s1 n t sen i ps Eh)
      as (k & Hk & Hi & Hval).
    assert (Hhere : _streams s1 !! n = Some (Some (stream_of k n sen i ps)))
      by (rewrite Hval; apply lookup_insert_eq).
    assert (Hmono1 : ∀ n' v, _streams s !! n' = Some v ->
                             _streams s1 !! n' = Some v).
    { intros n' v Hv. rewrite Hother; [exact Hv | congruence]. }
    destruct (Nat.leb_spec (n_streams_expected s) (S (size (_streams s))))
      as [Hle|Hgt].
    + destruct (run_DONE s1 s' msgs Hst Hrun) as [-> ->].
      split; [cbn [length]; lia|]. split; [intros _; lia|].
      split; [exact Hmono1|]. split.
      * intros j [->|Hj]%elem_of_cons; [exact Hfresh|].
        now apply not_elem_of_nil in Hj.
      * intros n' t' sen' i' ps' [Heq|Hj]%elem_of_cons;
          [|now apply not_elem_of_nil in Hj].
        injection Heq as -> -> -> -> ->. eauto.
    + rewrite Hs in Hst.
      destruct (IH s1 s' Hst Hnn1 Hrun) as (Hsize & Hdone & Hmono & Hfr & Hst').
      split; [cbn [length]; lia|]. split; [intros Hd; rewrite Hdone; auto|].
      split; [auto|]. split.
      * intros j [->|Hj]%elem_of_cons; [exact Hfresh|].
        specialize (Hfr j Hj).
        destruct (decide (header_name j = n)) as [Heq|Hne];
          [rewrite Heq, Hhere in Hfr; discriminate|].
        rewrite <- Hother; auto.
      * intros n' t' sen' i' ps' [Heq|Hj]%elem_of_cons; [|now apply Hst'].
        injection Heq as -> -> -> -> ->. exists k. auto.
Qed.

Lemma run_headers_partial (hdrs : list notification) :
  ∀ s, state s = WAIT_FOR_PROFILES -> non_null (_streams s) ->
       Forall (fun j => header_ok j = true) hdrs ->
       NoDup (header_name <$> hdrs) ->
       (∀ j, j ∈ hdrs -> _streams s !! header_name j = None) ->
       size (_streams s) + length hdrs < n_streams_expected s ->
       ∃ s', run s hdrs = Ok s' ∧ state s' = WAIT_FOR_PROFILES.
Proof.
  induction hdrs as [|j hdrs IH]; intros s Hs Hnn Hok Hnd Hfresh Hsize.
  - exists s. auto.
  - apply Forall_cons in Hok as [Hj Hok].
    cbn [fmap list_fmap] in Hnd. apply NoDup_cons in Hnd as [Hjn Hnd].
    cbn [length] in Hsize.
    destruct (header_ok_inv j Hj) as (n & t & sen & i & ps & k & -> & _ & _).
    destruct (on_stream_header_accepts s n t sen i ps Hnn) as (s1 & E1 & Hacc);
      [lia | apply (Hfresh (stream_header n t sen i ps)), list_elem_of_here
      | exact Hj |].
    destruct Hacc as (Hexp & Hsz & Hnn1 & _ & Hother & Hst).
    cbn [run]. rewrite on_notification_profiles, E1 by exact Hs.
    apply IH.
    + rewrite Hst.
      destruct (Nat.leb_spec (n_streams_expected s) (S (size (_streams s))));
        [lia | exact Hs].
    + exact Hnn1.
    + exact Hok.
    + exact Hnd.
    + intros j' Hin. rewrite Hother.
      * apply Hfresh. now apply list_elem_of_further.
      * intros Heq. apply Hjn. cbn [header_name] in *. rewrite <- Heq.
        apply list_elem_of_fmap. eauto.
    + lia.
Qed.

Lemma run_headers_partial_inv (msgs : list notification) :
  ∀ s s', run s msgs = Ok s' -> state s' ≠ DONE ->
          state s = WAIT_FOR_PROFILES -> non_null (_streams s) ->
          size (_streams s) < n_streams_expected s ->
          Forall (fun j => header_ok j = true) msgs
          ∧ NoDup (header_name <$> msgs)
          ∧ size (_streams s) + length msgs < n_streams_expected s.
Proof.
  induction msgs as [|j msgs IH]; intros s s' Hrun Hnd0 Hs Hnn Hsize.
  - split; [constructor|]. split; [apply NoDup_nil_2 | cbn; lia].
  - cbn [run] in Hrun.
    destruct (on_notification s j) as [s1|e] eqn:E1; [|discriminate].
    destruct (on_notification_profiles_inv s s1 j Hs E1)
      as (n & t & sen & i & ps & -> & Eh).
    destruct (on_stream_header_inv s s1 n t sen i ps Hnn Eh)
      as (_ & Hfresh & Hok & Hexp & Hsz & Hnn1 & Hin1 & Hother & Hst).
    destruct (Nat.leb_spec (n_streams_expected s) (S (size (_streams s))))
      as [Hle|Hgt].
    + destruct (run_DONE s1 s' msgs Hst Hrun) as [_ ->]. congruence.
    + rewrite Hs in Hst.
      destruct (run_headers_streams msgs s1 s' Hst Hnn1 Hrun)
        as (_ & _ & _ & Hfr & _).
      destruct (IH s1 s' Hrun Hnd0 Hst Hnn1) as (Hall & Hnd & Hlen); [lia|].
      split; [constructor; assumption|]. split; [|cbn [length]; lia].
      cbn [fmap list_fmap header_name]. constructor; [|exact Hnd].
      intros (j' & Hn & Hj')%list_elem_of_fmap.
      specialize (Hfr j' Hj'). rewrite <- Hn in Hfr.
      destruct Hin1 as [v Hv]. congruence.
Qed.

(** X9: [init] returns false, the timeout of the handshake, exactly when
    the valid notifications taken in all the passes made before the timer
    expired are a handshake cut short: nothing at all, or a
    [device-header] announcing N streams followed by fewer than N
    [stream-header] records, all valid and with distinct names. *)
Theorem init_returns_false_iff (polls : list (list sample)) :
  init_returns polls = Ok false
  <-> taken (concat polls) = []
      ∨ ∃ N hdrs, taken (concat polls) = device_header N :: hdrs
                  ∧ length hdrs < N
                  ∧ Forall (fun j => header_ok j = true) hdrs
                  ∧ NoDup (header_name <$> hdrs).
Proof.
  unfold init_returns, init. split.
  - destruct (init_loop (init_begin ∅) polls) as [s'|e] eqn:E; [|discriminate].
    intros H.
    assert (Hnd : state s' ≠ DONE)
      by (destruct (state s'); cbn in H; congruence).
    apply init_loop_not_done in E; [|exact Hnd].
    destruct (taken (concat polls)) as [|j msgs]; [auto|]. right.
    cbn [run] in E.
    destruct j as [N | n t sen i ps | id]; try discriminate E.
    + cbn in E. destruct N as [|N].
      * apply run_DONE in E as [_ ->]; [|reflexivity]. contradiction Hnd.
        reflexivity.
      * apply run_headers_partial_inv in E as (Hall & Hnodup & Hlen);
          [| exact Hnd | reflexivity | exact non_null_empty
           | cbn [_streams n_streams_expected]; rewrite map_size_empty; lia].
        cbn [_streams n_streams_expected] in Hlen.
        rewrite map_size_empty in Hlen.
        exists (S N), msgs. auto.
    + unfold on_notification in E.
      cbn [init_begin state state_eqb andb json_id] in E.
      destruct (String.eqb id "device-header"); discriminate.
  - intros [Hnil | (N & hdrs & Hmsgs & Hlen & Hall & Hnodup)].
    + rewrite (init_loop_all polls (init_begin ∅) (init_begin ∅));
        [reflexivity | rewrite Hnil; reflexivity | discriminate].
    + destruct N as [|N]; [lia|].
      destruct (run_headers_partial hdrs
                  {| state := WAIT_FOR_PROFILES; n_streams_expected := S N;
                     _streams := ∅ |}) as (s' & Hrun & Hs');
        [ reflexivity | exact non_null_empty | exact Hall | exact Hnodup
        | intros j _; apply lookup_empty
        | cbn [_streams n_streams_expected]; rewrite map_size_empty; lia |].
      rewrite (init_loop_all polls (init_begin ∅) s');
        [rewrite Hs'; reflexivity | rewrite Hmsgs; exact Hrun
        | rewrite Hs'; discriminate].
Qed.

Lemma init_returns_false_on_one_of_two :
  init_returns [[valid (device_header 2)]; []; [valid depth_header]; []]
  = Ok false.
Proof.
  apply (proj2 (init_returns_false_iff
                  [[valid (device_header 2)]; []; [valid depth_header]; []])).
  right. exists 2, [depth_header].
  split; [reflexivity|]. split; [cbn; lia|].
  split; [repeat constructor | cbn; apply NoDup_singleton].
Defined.

(** X10: when [init] succeeds on a device without streams, the device
    holds exactly the streams the [stream-header] records declared: as many
    as the [device-header] announced, each under its name, of the kind its
    type names, with its sensor name and profiles, and with a default
    profile index that lies within those profiles. *)
Theorem init_stores_declared_streams (polls : list (list sample))
    (m : gmap string (option dds_stream)) :
  init ∅ polls = Ok (true, m) ->
  ∃ used rest N hdrs,
    polls = (used ++ rest)%list
    ∧ taken (concat used) = device_header N :: hdrs
    ∧ length hdrs = N
    ∧ size m = N
    ∧ ∀ n t sen i ps,
        stream_header n t sen i ps ∈ hdrs ->
        ∃ k, type2stream t = Some k
             ∧ type_string k = t
             ∧ m !! n = Some (Some (stream_of k n sen i ps))
             ∧ default_profile_index (stream_of k n sen i ps) < length ps.
Proof.
  unfold init.
  destruct (init_loop (init_begin ∅) polls) as [s'|e] eqn:E; [|discriminate].
  intros H.
  assert (Hdone : state s' = DONE)
    by (injection H as H _; destruct (state s'); cbn in H; congruence).
  assert (Hm : _streams s' = m) by congruence. clear H.
  apply init_loop_inv in E as (used & rest & -> & Hrun).
  assert (Hh : handshake (taken (concat used)))
    by (apply run_handshake; eauto).
  destruct Hh as (N & hdrs & Hmsgs & Hlen & _ & _).
  exists used, rest, N, hdrs. split; [reflexivity|]. split; [exact Hmsgs|].
  split; [exact Hlen|].
  rewrite Hmsgs in Hrun. cbn [run] in Hrun. cbn in Hrun.
  destruct N as [|N].
  - apply run_DONE in Hrun as [-> ->]; [|reflexivity].
    cbn [_streams] in Hm. subst m. split; [apply map_size_empty|].
    intros n t sen i ps Hin. now apply not_elem_of_nil in Hin.
  - apply run_headers_streams in Hrun
      as (Hsize & _ & _ & _ & Hst); [| reflexivity | exact non_null_empty].
    cbn [_streams] in Hsize. rewrite map_size_empty in Hsize.
    rewrite Hm in *. split; [lia|].
    intros n t sen i ps Hin.
    destruct (Hst n t sen i ps Hin) as (k & Hk & Hi & Hv).
    exists k. split; [exact Hk|].
    split; [now apply type2stream_type_string|]. split; [exact Hv|].
    cbn [default_profile_index stream_of]. lia.
Qed.

Lemma init_stores_declared_streams_two :
  ∃ m, init ∅ [[valid (device_header 2)];
               [valid depth_header; valid color_header]] = Ok (true, m)
       ∧ size m = 2.
Proof.
  eexists. split; [vm_compute; reflexivity|].
  destruct (init_stores_declared_streams
              [[valid (device_header 2)]; [valid depth_header; valid color_header]]
              _ eq_refl)
    as (used & rest & N & hdrs & Hp & Ht & Hlen & Hsize & _).
  assert (HN : N = 2).
  { destruct used as [|b used]; [discriminate Ht|].
    cbn in Hp. injection Hp as <- Hp. cbn in Ht. congruence. }
  rewrite <- HN. exact Hsize.
Defined.

(** X11: [init] does not clear [_streams]; it counts the streams the
    device already holds.  On a device that holds streams, [init] succeeds
    only on a [device-header] announcing no stream, or on one announcing
    exactly the streams held plus the [stream-header] records that follow,
    none of which names a stream already held, and the streams held are all
    kept.  So a device that already holds N or more streams cannot complete
    a handshake announcing N >= 1 streams. *)
Theorem init_counts_streams_already_held
    (streams0 m : gmap string (option dds_stream)) (polls : list (list sample)) :
  non_null streams0 ->
  init streams0 polls = Ok (true, m) ->
  ∃ used rest N hdrs,
    polls = (used ++ rest)%list
    ∧ taken (concat used) = device_header N :: hdrs
    ∧ ((N = 0 ∧ hdrs = [] ∧ m = streams0)
       ∨ (hdrs ≠ []
          ∧ N = size streams0 + length hdrs
          ∧ (∀ j, j ∈ hdrs -> streams0 !! header_name j = None)
          ∧ ∀ n v, streams0 !! n = Some v -> m !! n = Some v)).
Proof.
  intros Hnn. unfold init.
  destruct (init_loop (init_begin streams0) polls) as [s'|e] eqn:E;
    [|discriminate].
  intros H.
  assert (Hdone : state s' = DONE)
    by (injection H as H _; destruct (state s'); cbn in H; congruence).
  assert (Hm : _streams s' = m) by congruence. clear H.
  apply init_loop_inv in E as (used & rest & -> & Hrun).
  exists used, rest.
  destruct (taken (concat used)) as [|j msgs];
    [cbn in Hrun; injection Hrun as <-; discriminate|].
  cbn [run] in Hrun.
  destruct j as [N | n t sen i ps | id]; try discriminate Hrun.
  - exists N, msgs. split; [reflexivity|]. split; [reflexivity|].
    cbn in Hrun. destruct N as [|N].
    + apply run_DONE in Hrun as [-> ->]; [|reflexivity]. left. auto.
    + right.
      destruct msgs as [|j msgs];
        [cbn in Hrun; injection Hrun as <-; discriminate|].
      split; [discriminate|].
      apply run_headers_streams in Hrun
        as (Hsize & Hd & Hmono & Hfr & _); [| reflexivity | exact Hnn].
      specialize (Hd Hdone). cbn [_streams n_streams_expected] in *.
      rewrite Hm in *. split; [lia|]. split; [exact Hfr | exact Hmono].
  - unfold on_notification in Hrun.
    cbn [init_begin state state_eqb andb json_id] in Hrun.
    destruct (String.eqb id "device-header"); discriminate.
Qed.

Lemma init_counts_streams_already_held_depth :
  ∃ used rest N hdrs,
    [[valid (device_header 2)]; [valid color_header]] = (used ++ rest)%list
    ∧ taken (concat used) = device_header N :: hdrs
    ∧ ((N = 0 ∧ hdrs = []
        ∧ <["Color" := Some (stream_of color "Color" "RGB Camera" 0
                               [Samples.RGB8_640x480x30])]> (streams depth_device)
          = streams depth_device)
       ∨ (hdrs ≠ []
          ∧ N = size (streams depth_device) + length hdrs
          ∧ (∀ j, j ∈ hdrs -> streams depth_device !! header_name j = None)
          ∧ ∀ n v, streams depth_device !! n = Some v ->
                   <["Color" := Some (stream_of color "Color" "RGB Camera" 0
                                        [Samples.RGB8_640x480x30])]>
                     (streams depth_device) !! n = Some v)).
Proof.
  apply (init_counts_streams_already_held (streams depth_device) _
           [[valid (device_header 2)]; [valid color_header]]).
  - intros k v. cbn [streams depth_device].
    intros [<- <-]%lookup_singleton_Some. eauto.
  - vm_compute. reflexivity.
Defined.

End InitMoreFacts.

(** ** The client: [close], and what [open] leaves behind *)

Module CloseFacts.
Import Profiles Device DeviceMore.

Section Facts.
Variable stream_close : dds_stream -> result close_error dds_stream.

Lemma close_loop_writer (ss : list (option string)) (names : list string)
    (d : impl) :
  _control_writer (close_loop stream_close ss names d).2 = _control_writer d.
Proof.
  revert names d. induction ss as [|s ss IH]; intros names d; [reflexivity|].
  cbn [close_loop]. destruct s as [n|]; [|reflexivity].
  destruct (index n (streams d)) as [[st|] m]; [|reflexivity].
  destruct (stream_close st) as [st'|e]; [|reflexivity].
  rewrite IH. reflexivity.
Qed.

Lemma close_loop_Ok (ss : list (option string)) (names names' : list string)
    (d d' : impl) :
  close_loop stream_close ss names d = (Ok names', d') ->
  ∃ ns, ss = Some <$> ns ∧ names' = (names ++ ns)%list.
Proof.
  revert names d. induction ss as [|s ss IH]; intros names d.
  - cbn [close_loop]. intros [= <- <-]. exists []. split; [reflexivity|].
    now rewrite app_nil_r.
  - cbn [close_loop]. destruct s as [n|]; [|discriminate].
    destruct (index n (streams d)) as [[st|] m]; [|discriminate].
    destruct (stream_close st) as [st'|e]; [|discriminate].
    intros E. apply IH in E as (ns & -> & ->).
    exists (n :: ns). split; [reflexivity|]. now rewrite <- app_assoc.
Qed.


End Facts.


End CloseFacts.

Module OpenMoreFacts.
Import Profiles Device DeviceMore OpenFacts.

Section Facts.
Variable stream_open : string -> dds_stream -> result error dds_stream.

Lemma index_present (n : string) (m : gmap string (option dds_stream))
    (v : option dds_stream) :
  m !! n = Some v -> index n m = (v, m).
Proof. unfold index. intros ->. reflexivity. Qed.

(** [open] on a profile that is in order opens its stream and goes on. *)
Lemma open_loop_step (p : profile_ref) (rest : list profile_ref)
    (sp : gmap string dds_stream_profile) (d : impl)
    (n : string) (st st' : dds_stream) :
  stream p = Some n -> sp !! n = None ->
  streams d !! n = Some (Some st) ->
  stream_open (topic_root d +:+ "/" +:+ n) st = Ok st' ->
  open_loop stream_open (p :: rest) sp d
  = open_loop stream_open rest (<[n := profile p]> sp)
              (with_streams (<[n := Some st']> (streams d)) d).
Proof.
  intros Hp Hsp Hst Hopen. cbn [open_loop]. rewrite Hp.
  rewrite bool_decide_eq_false_2
    by (rewrite Hsp; intros [? ?]; discriminate).
  rewrite (index_present n _ _ Hst), Hopen. reflexivity.
Qed.

(** A stream already in the message is not touched again: a later
    profile that names it makes the loop throw before [_streams] is
    reached. *)
Lemma open_loop_keeps (ps : list profile_ref)
    (sp : gmap string dds_stream_profile) (d : impl) (n : string)
    (v : option dds_stream) :
  is_Some (sp !! n) -> streams d !! n = Some v ->
  streams (open_loop stream_open ps sp d).2 !! n = Some v.
Proof.
  revert sp d. induction ps as [|p ps IH]; intros sp d Hsp Hn; [exact Hn|].
  cbn [open_loop]. destruct (stream p) as [n'|] eqn:Hp; [|exact Hn].
  destruct (decide (n' = n)) as [->|Hne].
  { rewrite bool_decide_eq_true_2 by exact Hsp. exact Hn. }
  destruct (bool_decide _); [exact Hn|].
  assert (Hidx : (index n' (streams d)).2 !! n = Some v).
  { unfold index. destruct (streams d !! n'); cbn [snd]; [exact Hn|].
    now rewrite lookup_insert_ne. }
  destruct (index n' (streams d)) as [[st|] m]; cbn [snd] in Hidx;
    [|exact Hidx].
  destruct (stream_open _ st) as [st'|e]; [|exact Hidx].
  apply IH.
  - rewrite lookup_insert_ne by exact Hne. exact Hsp.
  - cbn [streams with_streams]. now rewrite lookup_insert_ne.
Qed.

(** X13: [open] is not undone when it throws.  When the first profile is
    in order (it names a stream the device holds, which opens) and a
    later profile makes [open] throw, no control message is written, but
    the stream of the first profile stays opened on its topic. *)
Theorem open_leaves_streams_opened
    (p : profile_ref) (rest : list profile_ref) (d : impl)
    (n : string) (st st' : dds_stream) (e : error) :
  stream p = Some n -> streams d !! n = Some (Some st) ->
  stream_open (topic_root d +:+ "/" +:+ n) st = Ok st' ->
  (open stream_open (p :: rest) d).1 = Throw e ->
  _control_writer (open stream_open (p :: rest) d).2 = _control_writer d
  ∧ streams (open stream_open (p :: rest) d).2 !! n = Some (Some st').
Proof.
  intros Hp Hst Hopen. unfold open.
  rewrite (open_loop_step p rest ∅ d n st st' Hp (lookup_empty _) Hst Hopen).
  set (d1 := with_streams (<[n := Some st']> (streams d)) d).
  pose proof (open_loop_writer stream_open rest (<[n := profile p]> ∅) d1) as Hw.
  assert (Hsp : is_Some ((<[n := profile p]> ∅ : gmap string dds_stream_profile) !! n))
    by (rewrite lookup_insert_eq; eauto).
  pose proof (open_loop_keeps rest (<[n := profile p]> ∅) d1 n (Some st')
                Hsp (lookup_insert_eq _ _ _)) as Hk.
  destruct (open_loop stream_open rest _ d1) as [[sp|e'] d']; cbn [fst snd] in *.
  - discriminate.
  - intros _. split; [exact Hw | exact Hk].
Qed.

End Facts.

Lemma open_leaves_depth_opened :
  _control_writer
    (open (fun topic st => Ok (mark_opened topic st))
          [ {| profile := Samples.Z16_640x480x30; stream := Some "Depth" |};
            {| profile := Samples.RGB8_640x480x30; stream := None |} ]
          depth_device).2 = []
  ∧ streams
      (open (fun topic st => Ok (mark_opened topic st))
            [ {| profile := Samples.Z16_640x480x30; stream := Some "Depth" |};
              {| profile := Samples.RGB8_640x480x30; stream := None |} ]
            depth_device).2 !! "Depth"
    = Some (Some (mark_opened "realsense/D435/112233/Depth"
                    (stream_of depth "Depth" "Stereo Module" 0
                       [Samples.Z16_640x480x30]))).
Proof.
  apply (open_leaves_streams_opened
           (fun topic st => Ok (mark_opened topic st))
           {| profile := Samples.Z16_640x480x30; stream := Some "Depth" |}
           [ {| profile := Samples.RGB8_640x480x30; stream := None |} ]
           depth_device "Depth"
           (stream_of depth "Depth" "Stereo Module" 0 [Samples.Z16_640x480x30])
           _ (profile_not_part_of_any_stream Samples.RGB8_640x480x30)).
  - reflexivity.
  - reflexivity.
  - reflexivity.
  - reflexivity.
Defined.

End OpenMoreFacts.

(** ** The handshake of dds-device-impl.h *)

Module DeviceHFacts.
Import Profiles DeviceH DeviceHShape.

Lemma header_on_notification_DONE (d : impl) (msg : notification) :
  state d = DONE -> on_notification d msg = d.
Proof.
  intros Hs. destruct msg; cbn [on_notification]; rewrite ?Hs; reflexivity.
Qed.

Lemma take_all_DONE (d : impl) (samples : list sample) :
  state d = DONE -> take_all d samples = d.
Proof.
  intros Hs. induction samples as [|x samples IH]; [reflexivity|].
  cbn [take_all]. destruct (valid_data x); [|exact IH].
  rewrite header_on_notification_DONE by exact Hs. exact IH.
Qed.

Lemma take_all_app (d : impl) (a b : list sample) :
  take_all d (a ++ b) = take_all (take_all d a) b.
Proof.
  revert d. induction a as [|x a IH]; intros d; [reflexivity|].
  cbn [app take_all]. apply IH.
Qed.

Lemma state_eqb_DONE (d : impl) :
  state_eqb DONE (state d) = true <-> state d = DONE.
Proof. destruct (state d); cbn; split; intros; congruence. Qed.

Lemma init_loop_concat (d : impl) (polls : list (list sample)) :
  init_loop d polls = take_all d (concat polls).
Proof.
  revert d. induction polls as [|b polls IH]; intros d; [reflexivity|].
  cbn [init_loop concat]. rewrite take_all_app.
  destruct (state_eqb DONE (state d)) eqn:Hs; [|apply IH].
  apply state_eqb_DONE in Hs.
  rewrite (take_all_DONE d b Hs), (take_all_DONE d _ Hs). reflexivity.
Qed.

(** X14: in dds-device-impl.h, [DONE] absorbs every notification and no
    notification makes [init] throw, so the result of [init] depends only
    on the sequence of the samples, not on how they are spread over the
    passes of the outer loop: it is what the inner loop makes of all of
    them in one pass. *)
Theorem header_impl_ignores_batching (d : impl) (polls : list (list sample)) :
  init d polls
  = (state_eqb DONE
       (state (take_all (set_state WAIT_FOR_DEVICE_HEADER d) (concat polls))),
     take_all (set_state WAIT_FOR_DEVICE_HEADER d) (concat polls)).
Proof. unfold init. rewrite init_loop_concat. reflexivity. Qed.

(** *** Invariants *)

Lemma size_pos {V} (m : gmap nat V) (i : nat) : is_Some (m !! i) -> 1 <= size m.
Proof.
  intros [v Hv]. destruct (decide (size m = 0)) as [H0|]; [|lia].
  apply map_size_empty_iff in H0. subst m. rewrite lookup_empty in Hv.
  discriminate.
Qed.

Lemma emplace_lookup {V} (k : nat) (v : V) (m : gmap nat V) :
  is_Some (emplace k v m !! k).
Proof.
  unfold emplace. destruct (m !! k) eqn:E; [rewrite E; eauto|].
  rewrite lookup_insert_eq. eauto.
Qed.

Lemma emplace_lookup_inv {V} (k i : nat) (v : V) (m : gmap nat V) :
  is_Some (emplace k v m !! i) -> i = k ∨ is_Some (m !! i).
Proof.
  unfold emplace. destruct (m !! k); [auto|].
  destruct (decide (k = i)) as [->|Hne]; [auto|].
  rewrite lookup_insert_ne by exact Hne. auto.
Qed.

Lemma emplace_mono {V} (k i : nat) (v : V) (m : gmap nat V) :
  is_Some (m !! i) -> is_Some (emplace k v m !! i).
Proof.
  unfold emplace. destruct (m !! k) eqn:E; [auto|].
  intros Hi. destruct (decide (k = i)) as [->|Hne].
  - rewrite E in Hi. now destruct Hi.
  - now rewrite lookup_insert_ne.
Qed.

Lemma after_profiles_inv (d : impl) (i : nat) :
  profiles_have_sensor d ->
  is_Some (_sensor_to_video_profiles d !! i)
  ∨ is_Some (_sensor_to_motion_profiles d !! i) ->
  profiles_have_sensor (after_profiles d) ∧ done_counts (after_profiles d).
Proof.
  intros Hp Hi. unfold after_profiles.
  destruct (Nat.ltb_spec (size (_sensor_to_video_profiles d)
                          + size (_sensor_to_motion_profiles d))
                         (_num_of_sensors d)) as [Hlt|Hge].
  - split; [exact Hp | discriminate].
  - split; [exact Hp|]. intros _. unfold profile_sets. cbn. split; [|exact Hge].
    destruct Hi as [Hi|Hi]; apply size_pos in Hi; lia.
Qed.

Lemma on_notification_inv (d : impl) (msg : notification) :
  profiles_have_sensor d ∧ done_counts d ->
  profiles_have_sensor (on_notification d msg)
  ∧ done_counts (on_notification d msg).
Proof.
  intros [Hp Hc].
  destruct (state_eqb DONE (state d)) eqn:Hd.
  { apply state_eqb_DONE in Hd. rewrite header_on_notification_DONE by exact Hd. auto. }
  clear Hd.
  destruct msg as [n | i nm ty | i ps | i ps | id]; cbn [on_notification];
    try (destruct (state_eqb _ (state d)); [|auto]).
  - split; [exact Hp | discriminate].
  - split; [|discriminate].
    intros j Hj. cbn. apply emplace_mono. apply Hp. exact Hj.
  - destruct (_sensor_index_to_name d !! i) eqn:Hi; [|auto].
    apply (after_profiles_inv _ i).
    + intros j. cbn. intros [Hj|Hj]; [|apply Hp; auto].
      apply emplace_lookup_inv in Hj as [->|Hj]; [rewrite Hi; eauto|].
      apply Hp. auto.
    + left. cbn. apply emplace_lookup.
  - destruct (_sensor_index_to_name d !! i) eqn:Hi; [|auto].
    apply (after_profiles_inv _ i).
    + intros j. cbn. intros [Hj|Hj]; [apply Hp; auto|].
      apply emplace_lookup_inv in Hj as [->|Hj]; [rewrite Hi; eauto|].
      apply Hp. auto.
    + right. cbn. apply emplace_lookup.
  - auto.
Qed.

Lemma take_all_inv (samples : list sample) (d : impl) :
  profiles_have_sensor d ∧ done_counts d ->
  profiles_have_sensor (take_all d samples) ∧ done_counts (take_all d samples).
Proof.
  revert d. induction samples as [|x samples IH]; intros d H; [exact H|].
  cbn [take_all]. apply IH. destruct (valid_data x); [|exact H].
  now apply on_notification_inv.
Qed.

(** X15: the handshake of dds-device-impl.h stores profiles only for a
    sensor whose header it has seen, and when [init] returns true it has
    stored at least one set of profiles and at least as many sets as the
    device header announced sensors. *)
Theorem header_impl_done_means_profiles (d : impl) (polls : list (list sample)) :
  profiles_have_sensor d ->
  profiles_have_sensor (init d polls).2
  ∧ ((init d polls).1 = true ->
     1 <= profile_sets (init d polls).2
     ∧ _num_of_sensors (init d polls).2 <= profile_sets (init d polls).2).
Proof.
  intros Hp. rewrite header_impl_ignores_batching. cbn [fst snd].
  destruct (take_all_inv (concat polls) (set_state WAIT_FOR_DEVICE_HEADER d))
    as [Hp' Hc'].
  { split; [exact Hp | discriminate]. }
  split; [exact Hp'|]. intros Hd. apply Hc'. now apply state_eqb_DONE.
Qed.

Lemma header_impl_done_means_profiles_constructed :
  profiles_have_sensor
    (init constructed
       [[valid (DEVICE_HEADER 1); valid (SENSOR_HEADER 0 "Stereo Module" VIDEO)];
        [valid (VIDEO_STREAM_PROFILES 0 [Samples.Z16_640x480x30])]]).2.
Proof.
  apply (header_impl_done_means_profiles constructed).
  intros i [[v Hv]|[v Hv]]; cbn in Hv; rewrite lookup_empty in Hv; discriminate.
Defined.

(** *** Before the device header *)

Lemma take_all_before_header (pre : list sample) (d : impl) :
  state d = WAIT_FOR_DEVICE_HEADER ->
  forallb not_device_header pre = true ->
  take_all d pre = d.
Proof.
  intros Hs. induction pre as [|x pre IH]; [reflexivity|].
  cbn [forallb]. intros [Hx Hpre]%andb_true_iff. cbn [take_all].
  unfold not_device_header in Hx.
  destruct (valid_data x); [|now apply IH].
  rewrite HandshakeFacts.header_impl_logs_and_stays; [now apply IH | exact Hs|].
  intros n Heq. rewrite Heq in Hx. discriminate.
Qed.

(** X16: dds-device-impl.h skips whatever precedes the device header:
    samples that are not a valid [DEVICE_HEADER], in however many passes
    they arrive before it, change nothing; [init] returns what it returns
    without them. *)
Theorem header_impl_skips_until_device_header
    (d : impl) (before : list (list sample)) (polls : list (list sample)) :
  forallb (forallb not_device_header) before = true ->
  init d (before ++ polls) = init d polls.
Proof.
  intros Hb. rewrite !header_impl_ignores_batching, concat_app, take_all_app.
  rewrite (take_all_before_header (concat before)); [reflexivity..|].
  induction before as [|b before IH]; [reflexivity|].
  cbn [forallb] in Hb. apply andb_true_iff in Hb as [Hb1 Hb2].
  cbn [concat]. rewrite forallb_app, Hb1. cbn [andb]. now apply IH.
Qed.

Lemma header_impl_skips_until_device_header_sample :
  init constructed
    ([[valid (SENSOR_HEADER 0 "Stereo Module" VIDEO)]; [valid (UNKNOWN 9)]]
     ++ [[valid (DEVICE_HEADER 1)]])
  = init constructed [[valid (DEVICE_HEADER 1)]].
Proof.
  apply (header_impl_skips_until_device_header constructed
           [[valid (SENSOR_HEADER 0 "Stereo Module" VIDEO)]; [valid (UNKNOWN 9)]]
           [[valid (DEVICE_HEADER 1)]]).
  reflexivity.
Defined.

End DeviceHFacts.

(** ** The streams a device supports *)

Module SupportedStreamsFacts.
Import Profiles SupportedStreams.

Section Facts.
Context {rs2_format : Type}.
Variable from_rs2 : rs2_format -> string.

Let rs2_stream_profile := @rs2_stream_profile rs2_format.

Lemma maps_inv_with_servers (st : SupportedStreams.maps) (n : string) :
  maps_inv st ->
  maps_inv (with_servers
              (<[n := default None (name_to_server st !! n)]> (name_to_server st))
              st).
Proof.
  intros (H1 & H2 & H3). unfold maps_inv, with_servers.
  cbn [name_to_profiles name_to_default_profile name_to_server].
  split; [exact H1|]. split.
  - intros n' ps Hps. destruct (H2 n' ps Hps) as (s & Hs & Hn).
    exists s. split; [|exact Hn].
    destruct (decide (n = n')) as [<-|Hne].
    + rewrite lookup_insert_eq, Hs. reflexivity.
    + now rewrite lookup_insert_ne.
  - intros n' s. destruct (decide (n = n')) as [<-|Hne].
    + rewrite lookup_insert_eq.
      destruct (name_to_server st !! n) as [o|] eqn:E; cbn [default from_option id];
        [|discriminate].
      intros [= ->]. now apply H3.
    + rewrite lookup_insert_ne by exact Hne. apply H3.
Qed.

Lemma maps_inv_record_profile (the_sensor : string) (sp : rs2_stream_profile)
    (servers : gmap string (option server_object)) (st : SupportedStreams.maps)
    (s : server_object) :
  maps_inv st ->
  servers !! stream_name sp = Some (Some s) -> name s = stream_name sp ->
  (∀ n', n' ≠ stream_name sp -> servers !! n' = name_to_server st !! n') ->
  maps_inv (record_profile from_rs2 the_sensor sp servers st).
Proof.
  intros (H1 & H2 & H3) Hs Hname Hother. unfold record_profile.
  set (n := stream_name sp) in *.
  assert (Hps : ∀ i, name_to_default_profile st !! n = Some i ->
                     i < length (default [] (name_to_profiles st !! n))).
  { intros i Hi. destruct (H1 n i Hi) as (ps & -> & Hlt). exact Hlt. }
  assert (Hsrv : ∀ n' s', servers !! n' = Some (Some s') -> name s' = n').
  { intros n' s'. destruct (decide (n' = n)) as [->|Hne].
    - rewrite Hs. intros [= <-]. exact Hname.
    - rewrite Hother by exact Hne. apply H3. }
  assert (Hhas : ∀ n' ps, n' ≠ n -> name_to_profiles st !! n' = Some ps ->
                          ∃ s', servers !! n' = Some (Some s') ∧ name s' = n').
  { intros n' ps Hne Hn'. rewrite Hother by exact Hne. eauto. }
  destruct (to_dds_profile from_rs2 (data sp)) as [profile|];
    unfold maps_inv;
    cbn [name_to_profiles name_to_default_profile name_to_server].
  - split; [|split; [|exact Hsrv]].
    + intros n' i. destruct (decide (n = n')) as [<-|Hne].
      * rewrite lookup_insert_eq. intros Hi. eexists. split; [reflexivity|].
        rewrite length_app. cbn [length].
        destruct (is_default sp).
        -- rewrite lookup_insert_eq in Hi. injection Hi as <-. lia.
        -- specialize (Hps i Hi). lia.
      * rewrite lookup_insert_ne by exact Hne. intros Hi. apply H1.
        destruct (is_default sp); [|exact Hi].
        now rewrite lookup_insert_ne in Hi.
    + intros n' ps. destruct (decide (n = n')) as [<-|Hne].
      * intros _. eauto.
      * rewrite lookup_insert_ne by exact Hne. intros Hn'.
        apply (Hhas n' ps); auto.
  - split; [|split; [|exact Hsrv]].
    + intros n' i Hi. destruct (decide (n = n')) as [<-|Hne].
      * rewrite lookup_insert_eq. eexists. split; [reflexivity|]. now apply Hps.
      * rewrite lookup_insert_ne by exact Hne. now apply H1.
    + intros n' ps. destruct (decide (n = n')) as [<-|Hne].
      * intros _. eauto.
      * rewrite lookup_insert_ne by exact Hne. intros Hn'.
        apply (Hhas n' ps); auto.
Qed.

Lemma maps_inv_on_profile (the_sensor : string) (st : SupportedStreams.maps)
    (sp : rs2_stream_profile) :
  maps_inv st -> maps_inv (on_profile from_rs2 the_sensor st sp).
Proof.
  intros Hinv. unfold on_profile.
  pose proof (maps_inv_with_servers st (stream_name sp) Hinv) as Hw.
  destruct (server_kind (stream_type sp)) as [k|]; [|exact Hw].
  destruct (name_to_server st !! stream_name sp) as [[s|]|] eqn:E;
    cbn [default from_option id] in *.
  - match goal with |- context [negb ?b] => destruct (negb b) end;
      [exact Hw|].
    apply (maps_inv_record_profile _ _ _ _ s Hinv).
    + apply lookup_insert_eq.
    + destruct Hinv as (_ & _ & H3). now apply H3.
    + intros n' Hne. now apply lookup_insert_ne.
  - apply (maps_inv_record_profile _ _ _ _
             {| kind := k; name := stream_name sp; sensor_name := the_sensor |}
             Hinv).
    + apply lookup_insert_eq.
    + reflexivity.
    + intros n' Hne. rewrite !lookup_insert_ne by congruence. reflexivity.
  - apply (maps_inv_record_profile _ _ _ _
             {| kind := k; name := stream_name sp; sensor_name := the_sensor |}
             Hinv).
    + apply lookup_insert_eq.
    + reflexivity.
    + intros n' Hne. rewrite !lookup_insert_ne by congruence. reflexivity.
Qed.

Lemma maps_inv_fold_profiles (the_sensor : string)
    (sps : list rs2_stream_profile) (st : SupportedStreams.maps) :
  maps_inv st -> maps_inv (fold_left (on_profile from_rs2 the_sensor) sps st).
Proof.
  revert st. induction sps as [|sp sps IH]; intros st H; [exact H|].
  cbn [fold_left]. apply IH. now apply maps_inv_on_profile.
Qed.

Lemma maps_inv_fold_sensors (sensors : list rs2_sensor)
    (st : SupportedStreams.maps) :
  maps_inv st -> maps_inv (fold_left (on_sensor from_rs2) sensors st).
Proof.
  revert st. induction sensors as [|sn sensors IH]; intros st H; [exact H|].
  cbn [fold_left]. apply IH. now apply maps_inv_fold_profiles.
Qed.

Lemma maps_inv_no_maps : maps_inv (@no_maps).
Proof.
  unfold maps_inv, no_maps. cbn.
  repeat split; intros *; rewrite lookup_empty; discriminate.
Qed.

Lemma make_server_Some (st : SupportedStreams.maps)
    (it : string * list dds_stream_profile) (s : dds_stream_server) :
  maps_inv st -> make_server st it = Some s ->
  name (object s) = it.1
  ∧ profiles s = it.2 ∧ it.2 ≠ []
  ∧ (name_to_profiles st !! it.1 = Some it.2 ->
     default_profile_index s < length (profiles s)).
Proof.
  intros (H1 & _ & H3). unfold make_server.
  destruct it.2 as [|p ps] eqn:Hps; [discriminate|].
  destruct (name_to_server st !! it.1) as [[srv|]|] eqn:Hsrv; cbn [default from_option id];
    try discriminate.
  intros [= <-]. cbn [object profiles default_profile_index].
  split; [now apply H3|]. split; [reflexivity|]. split; [discriminate|].
  intros Hit.
  destruct (name_to_default_profile st !! it.1) as [i|] eqn:Hi; cbn [default from_option id].
  - destruct (H1 _ _ Hi) as (ps' & Hps' & Hlt). congruence.
  - cbn [length]. lia.
Qed.

Lemma elem_of_entries_in_order {V} (m : gmap string V) (it : string * V) :
  it ∈ entries_in_order m <-> m !! it.1 = Some it.2.
Proof.
  unfold entries_in_order. rewrite merge_sort_Permutation.
  destruct it as [k v]. apply elem_of_map_to_list.
Qed.

Lemma NoDup_entries_in_order {V} (m : gmap string V) :
  NoDup (fst <$> entries_in_order m).
Proof.
  unfold entries_in_order. rewrite merge_sort_Permutation.
  apply NoDup_fst_map_to_list.
Qed.

Lemma NoDup_omap_keys {A B} (f : string * A -> option B) (g : B -> string)
    (l : list (string * A)) :
  (∀ x y, f x = Some y -> g y = x.1) ->
  NoDup (fst <$> l) -> NoDup (g <$> omap f l).
Proof.
  intros Hfg. induction l as [|x l IH]; cbn [fmap list_fmap omap list_omap].
  - intros _. apply NoDup_nil_2.
  - intros [Hx Hl]%NoDup_cons. specialize (IH Hl).
    destruct (f x) as [y|] eqn:E; [|exact IH].
    cbn [fmap list_fmap]. apply NoDup_cons. split; [|exact IH].
    intros (y' & Hy' & Hin)%list_elem_of_fmap.
    apply list_elem_of_omap in Hin as (x' & Hx' & Ex').
    apply Hx. apply list_elem_of_fmap. exists x'. split; [|exact Hx'].
    rewrite <- (Hfg x y E), <- (Hfg x' y' Ex'). exact Hy'.
Qed.

(** X17: every stream server [get_supported_streams] returns has at
    least one profile and a default profile index within its profiles
    (the index of the last profile flagged default, 0 when none is), and
    no two returned servers have the same stream name; so a
    [stream-header] carrying a server's name, type string, sensor name,
    default profile index and profiles passes the checks of the client's
    [init]. *)
Theorem supported_streams_are_well_formed (sensors : list rs2_sensor) :
  NoDup ((fun s => name (object s)) <$> get_supported_streams from_rs2 sensors)
  ∧ ∀ s, s ∈ get_supported_streams from_rs2 sensors ->
         profiles s ≠ []
         ∧ default_profile_index s < length (profiles s)
         ∧ HandshakeShape.header_ok
             (Device.stream_header
                (name (object s))
                (Device.type_string (kind (object s)))
                (sensor_name (object s))
                (Z.of_nat (default_profile_index s))
                (profiles s)) = true.
Proof.
  unfold get_supported_streams.
  set (st := fold_left (on_sensor from_rs2) sensors no_maps).
  assert (Hinv : maps_inv st)
    by (apply maps_inv_fold_sensors, maps_inv_no_maps).
  split.
  - apply NoDup_omap_keys; [|apply NoDup_entries_in_order].
    intros x y E. now destruct (make_server_Some st x y Hinv E).
  - intros s Hs. apply list_elem_of_omap in Hs as (it & Hit & E).
    apply elem_of_entries_in_order in Hit.
    destruct (make_server_Some st it s Hinv E) as (_ & Hps & Hne & Hidx).
    specialize (Hidx Hit).
    split; [rewrite Hps; exact Hne|]. split; [exact Hidx|].
    cbn [HandshakeShape.header_ok].
    rewrite bool_decide_eq_true_2
      by (destruct (kind (object s)); cbn; eauto).
    cbn [andb].
    destruct (Z.leb_spec 0 (Z.of_nat (default_profile_index s))); [|lia].
    destruct (Z.ltb_spec (Z.of_nat (default_profile_index s))
                         (Z.of_nat (length (profiles s)))); [reflexivity | lia].
Qed.

End Facts.

Lemma supported_streams_of_stereo_module :
  profiles {| object := {| kind := Device.depth; name := "Depth";
                           sensor_name := "Stereo Module" |};
              profiles := [dds_video_stream_profile 30 "Z16" 640 480;
                           dds_video_stream_profile 30 "Z16" 1280 720];
              default_profile_index := 1 |} ≠ []
  ∧ 1 < 2
  ∧ HandshakeShape.header_ok
      (Device.stream_header "Depth" "depth" "Stereo Module" 1
         [dds_video_stream_profile 30 "Z16" 640 480;
          dds_video_stream_profile 30 "Z16" 1280 720]) = true.
Proof.
  apply (proj2 (supported_streams_are_well_formed (fun f => f) [stereo_module])).
  vm_compute. apply list_elem_of_here.
Defined.

End SupportedStreamsFacts.

(** ** Stream types, options and extrinsics of the controller *)

Module ControllerMoreFacts.
Import Profiles SupportedStreams ControllerMore.

(** A static table is searched by its keys in the order they are
    written. *)
Lemma lookup_table {V} (l : list (string * V)) (s : string) :
  (list_to_map l : gmap string V) !! s
  = snd <$> List.find (fun kv => String.eqb s kv.1) l.
Proof.
  induction l as [|[k v] l IH]; [reflexivity|].
  cbn [list_to_map foldr List.find fst curry]. 
  destruct (String.eqb_spec s k) as [->|Hne].
  - now rewrite lookup_insert_eq.
  - rewrite lookup_insert_ne by congruence. exact IH.
Qed.

Section Create.
Context {json E : Type}.
Variable from_json_video : json -> result E dds_stream_profile.
Variable from_json_motion : json -> result E dds_stream_profile.

(** X18: the client, the controller and the server agree on the type
    strings.  For a type string the client's [init] accepts, the
    controller's [type_string_to_rs2_stream] yields a stream type for
    which [get_supported_streams] builds a server of the same class, and
    [create_dds_stream_profile] parses a requested profile with the
    profile class the client parsed the stream's profiles with; for any
    other type string [type_string_to_rs2_stream] yields
    [RS2_STREAM_ANY] and [create_dds_stream_profile] throws
    "Unsupported stream type". *)
Theorem type_strings_agree (type_string : string) (j : json) :
  match Device.type2stream type_string with
  | Some k =>
      server_kind (type_string_to_rs2_stream type_string) = Some k
      ∧ create_dds_stream_profile from_json_video from_json_motion
          (type_string_to_rs2_stream type_string) j
        = from_json from_json_video from_json_motion (type2profile k) j
  | None =>
      type_string_to_rs2_stream type_string = RS2_STREAM_ANY
      ∧ create_dds_stream_profile from_json_video from_json_motion
          (type_string_to_rs2_stream type_string) j
        = Throw unsupported_stream_type
  end.
Proof.
  unfold type_string_to_rs2_stream, type_to_rs2, Device.type2stream.
  rewrite lookup_table. cbn [List.find fst snd].
  repeat match goal with
         | |- context [String.eqb type_string ?lit] =>
             destruct (String.eqb_spec type_string lit) as [->|?];
             [split; reflexivity|]
         end.
  split; reflexivity.
Qed.

End Create.

Section Options.
Variable RS2_OPTION_COUNT : nat.
Variable get_option_name : nat -> string.

Lemma option_from_Ok (name : string) (n i k : nat) :
  option_from get_option_name name i n = Ok k
  <-> (i <= k < i + n ∧ get_option_name k = name
       ∧ ∀ j, i <= j < k -> get_option_name j ≠ name).
Proof.
  revert i. induction n as [|n IH]; intros i; cbn [option_from].
  - split; [discriminate | lia].
  - destruct (String.eqb_spec name (get_option_name i)) as [Heq|Hne].
    + split.
      * intros [= <-]. split; [lia|]. split; [now symmetry|]. lia.
      * intros (Hk & Hname & Hfirst).
        destruct (decide (k = i)) as [->|Hki]; [reflexivity|].
        exfalso. apply (Hfirst i); [lia | now symmetry].
    + rewrite IH. split.
      * intros (Hk & Hname & Hfirst). split; [lia|]. split; [exact Hname|].
        intros j Hj. destruct (decide (j = i)) as [->|Hji];
          [congruence | apply Hfirst; lia].
      * intros (Hk & Hname & Hfirst).
        assert (k ≠ i) by congruence.
        split; [lia|]. split; [exact Hname|].
        intros j Hj. apply Hfirst. lia.
Qed.

Lemma option_from_Throw (name : string) (n i : nat) (e : option_error) :
  option_from get_option_name name i n = Throw e
  <-> (e = option_type_not_found name
       ∧ ∀ j, i <= j < i + n -> get_option_name j ≠ name).
Proof.
  revert i. induction n as [|n IH]; intros i; cbn [option_from].
  - split; [intros [= <-]; split; [reflexivity | lia] | now intros [-> _]].
  - destruct (String.eqb_spec name (get_option_name i)) as [Heq|Hne].
    + split; [discriminate|]. intros [_ H]. exfalso.
      apply (H i); [lia | now symmetry].
    + rewrite IH. split; intros [He H]; (split; [exact He|]); intros j Hj.
      * destruct (decide (j = i)) as [->|Hji]; [congruence | apply H; lia].
      * apply H. lia.
Qed.

(** X19: [option_name_to_type] returns the lowest option below
    [RS2_OPTION_COUNT] whose name is the one asked for, so of two
    options of one name the higher is never returned; it throws
    "Option ... type not found" exactly when no option below
    [RS2_OPTION_COUNT] has the name. *)
Theorem option_name_to_type_finds_the_lowest (name : string) :
  (∀ k, option_name_to_type RS2_OPTION_COUNT get_option_name name = Ok k
        <-> (k < RS2_OPTION_COUNT ∧ get_option_name k = name
             ∧ ∀ j, j < k -> get_option_name j ≠ name))
  ∧ (∀ e, option_name_to_type RS2_OPTION_COUNT get_option_name name = Throw e
          <-> (e = option_type_not_found name
               ∧ ∀ j, j < RS2_OPTION_COUNT -> get_option_name j ≠ name)).
Proof.
  unfold option_name_to_type. split.
  - intros k. rewrite option_from_Ok. split.
    + intros (Hk & Hname & Hfirst). split; [lia|]. split; [exact Hname|].
      intros j Hj. apply Hfirst. lia.
    + intros (Hk & Hname & Hfirst). split; [lia|]. split; [exact Hname|].
      intros j Hj. apply Hfirst. lia.
  - intros e. rewrite option_from_Throw. split; intros [He H];
      (split; [exact He|]); intros j Hj; apply H; lia.
Qed.

End Options.

Lemma option_name_to_type_finds_the_lowest_brightness :
  option_name_to_type 5 sample_option_name "Brightness" = Ok 1.
Proof.
  apply (proj1 (option_name_to_type_finds_the_lowest 5 sample_option_name
                  "Brightness")).
  split; [lia|]. split; [reflexivity|].
  intros j Hj. assert (j = 0) as -> by lia. discriminate.
Defined.

End ControllerMoreFacts.

(** ** The extrinsics map of the controller *)

Module ExtrinsicsFacts.
Import SupportedStreams ControllerMore.

Section Writes.
Context {K V : Type} `{Countable K}.

Lemma writes_keep (ws : list (K * V)) (m : gmap K V) (k : K) :
  is_Some (m !! k) -> is_Some (fold_left write ws m !! k).
Proof.
  revert m. induction ws as [|w ws IH]; intros m Hm; [exact Hm|].
  cbn [fold_left]. apply IH. unfold write.
  destruct (decide (w.1 = k)) as [<-|Hne].
  - rewrite lookup_insert_eq. eauto.
  - now rewrite lookup_insert_ne.
Qed.

Lemma writes_reach (ws : list (K * V)) (m : gmap K V) (k : K) (v : V) :
  (k, v) ∈ ws -> is_Some (fold_left write ws m !! k).
Proof.
  revert m. induction ws as [|w ws IH]; intros m Hin.
  - now apply elem_of_nil in Hin.
  - cbn [fold_left]. apply elem_of_cons in Hin as [<-|Hin].
    + apply writes_keep. unfold write. cbn. rewrite lookup_insert_eq. eauto.
    + now apply IH.
Qed.

Lemma writes_only (ws : list (K * V)) (m : gmap K V) (k : K) (v : V) :
  fold_left write ws m !! k = Some v -> (k, v) ∈ ws ∨ m !! k = Some v.
Proof.
  revert m. induction ws as [|w ws IH]; intros m Hl; [now right|].
  cbn [fold_left] in Hl. destruct (IH _ Hl) as [Hin|Hm].
  - left. now apply list_elem_of_further.
  - unfold write in Hm. destruct (decide (w.1 = k)) as [<-|Hne].
    + rewrite lookup_insert_eq in Hm. injection Hm as <-.
      left. destruct w. apply list_elem_of_here.
    + rewrite lookup_insert_ne in Hm by exact Hne. now right.
Qed.
End Writes.

Section Facts.
Context {profile extrinsics E : Type}.
Variable stream_name : profile -> string.
Variable get_extrinsics_to : profile -> profile -> result E extrinsics.

Lemma keep_first_fold (sps : list profile) (m : gmap string profile) (a : string) :
  fold_left (keep_first stream_name) sps m !! a
  = match m !! a with
    | Some p => Some p
    | None => first_of stream_name a sps
    end.
Proof.
  revert m. induction sps as [|sp sps IH]; intros m.
  - cbn. now destruct (m !! a).
  - cbn [fold_left first_of List.find]. rewrite IH. unfold keep_first.
    destruct (String.eqb_spec a (stream_name sp)) as [->|Hne].
    + destruct (m !! stream_name sp) as [p|] eqn:Hm.
      * now rewrite Hm.
      * now rewrite lookup_insert_eq.
    + destruct (m !! stream_name sp) as [p|] eqn:Hm; [reflexivity|].
      rewrite lookup_insert_ne by congruence. reflexivity.
Qed.

Lemma stream_of_sensors (sensors : list (list profile)) (m : gmap string profile) :
  fold_left (fun m sps => fold_left (keep_first stream_name) sps m) sensors m
  = fold_left (keep_first stream_name) (concat sensors) m.
Proof.
  revert m. induction sensors as [|sps sensors IH]; intros m; [reflexivity|].
  cbn [fold_left concat]. rewrite fold_left_app. apply IH.
Qed.

Lemma first_profile_is_taken (sensors : list (list profile)) (a : string) :
  stream_name_to_rs2_stream_profile stream_name sensors !! a
  = first_of stream_name a (concat sensors).
Proof.
  unfold stream_name_to_rs2_stream_profile.
  rewrite stream_of_sensors, keep_first_fold. now rewrite lookup_empty.
Qed.

Section NoThrow.
Variable ext : profile -> profile -> extrinsics.
Hypothesis get_extrinsics_to_returns :
  ∀ a b, get_extrinsics_to a b = Ok (ext a b).

Lemma extrinsics_from_writes (from : string * profile)
    (tos : list (string * profile)) (ret : gmap (string * string) extrinsics) :
  extrinsics_from get_extrinsics_to from tos ret
  = Ok (fold_left write (written_from ext from tos) ret).
Proof.
  revert ret. induction tos as [|to tos IH]; intros ret; [reflexivity|].
  cbn [extrinsics_from written_from omap list_omap].
  destruct (negb (String.eqb from.1 to.1)).
  - rewrite get_extrinsics_to_returns. cbn [fold_left]. apply IH.
  - apply IH.
Qed.

Lemma extrinsics_each_writes (froms tos : list (string * profile))
    (ret : gmap (string * string) extrinsics) :
  extrinsics_each get_extrinsics_to froms tos ret
  = Ok (fold_left write (froms ≫= fun from => written_from ext from tos) ret).
Proof.
  revert ret. induction froms as [|from froms IH]; intros ret; [reflexivity|].
  cbn [extrinsics_each mbind list_bind]. rewrite extrinsics_from_writes.
  rewrite fold_left_app. apply IH.
Qed.

Lemma elem_of_written (froms tos : list (string * profile))
    (a b : string) (e : extrinsics) :
  ((a, b), e) ∈ (froms ≫= fun from => written_from ext from tos)
  <-> a ≠ b ∧ ∃ pa pb, (a, pa) ∈ froms ∧ (b, pb) ∈ tos ∧ e = ext pa pb.
Proof.
  rewrite list_elem_of_bind. split.
  - intros ([a' pa] & Hw & Hfrom). unfold written_from in Hw.
    apply list_elem_of_omap in Hw as ([b' pb] & Hto & Hw). cbn [fst snd] in Hw.
    destruct (String.eqb_spec a' b') as [|Hne]; cbn [negb] in Hw;
      [discriminate|].
    injection Hw as <- <- <-. split; [exact Hne|]. eauto.
  - intros (Hne & pa & pb & Hfrom & Hto & ->).
    exists (a, pa). split; [|exact Hfrom].
    apply list_elem_of_omap. exists (b, pb). split; [exact Hto|].
    cbn [fst snd]. destruct (String.eqb_spec a b); [contradiction|].
    reflexivity.
Qed.

(** X20: when no [get_extrinsics_to] throws, [get_extrinsics_map]
    returns a map that has an entry from stream [a] to stream [b]
    exactly when [a] and [b] are the names of two distinct streams of
    the device, never from a stream to itself; the entry is the
    extrinsics from the first profile named [a] to the first profile
    named [b] among the profiles of the sensors, in the order of the
    sensors. *)
Theorem extrinsics_between_first_profiles (sensors : list (list profile)) :
  ∃ ret,
    get_extrinsics_map stream_name get_extrinsics_to sensors = Ok ret
    ∧ ∀ a b e,
        ret !! (a, b) = Some e
        <-> a ≠ b
            ∧ ∃ pa pb, first_of stream_name a (concat sensors) = Some pa
                       ∧ first_of stream_name b (concat sensors) = Some pb
                       ∧ e = ext pa pb.
Proof.
  unfold get_extrinsics_map.
  set (m := stream_name_to_rs2_stream_profile stream_name sensors).
  rewrite extrinsics_each_writes. eexists. split; [reflexivity|].
  assert (Hin : ∀ a pa, (a, pa) ∈ entries_in_order m
                        <-> first_of stream_name a (concat sensors) = Some pa).
  { intros a pa. unfold entries_in_order. rewrite merge_sort_Permutation.
    rewrite elem_of_map_to_list. unfold m.
    now rewrite first_profile_is_taken. }
  intros a b e. split.
  - intros Hl. apply writes_only in Hl as [Hw|Hl];
      [|now rewrite lookup_empty in Hl].
    apply elem_of_written in Hw as (Hne & pa & pb & Ha & Hb & ->).
    split; [exact Hne|]. exists pa, pb.
    split; [now apply Hin|]. split; [now apply Hin | reflexivity].
  - intros (Hne & pa & pb & Ha & Hb & ->).
    assert (Hw : ((a, b), ext pa pb)
                 ∈ (entries_in_order m ≫= fun from =>
                      written_from ext from (entries_in_order m))).
    { apply elem_of_written. split; [exact Hne|]. exists pa, pb.
      split; [now apply Hin|]. split; [now apply Hin | reflexivity]. }
    destruct (writes_reach _ ∅ _ _ Hw) as [e' He'].
    assert (e' = ext pa pb) as <-; [|exact He'].
    apply writes_only in He' as [Hw'|Hl];
      [|now rewrite lookup_empty in Hl].
    apply elem_of_written in Hw' as (_ & pa' & pb' & Ha' & Hb' & ->).
    apply Hin in Ha', Hb'. congruence.
Qed.

End NoThrow.

Lemma extrinsics_from_throws (from to : string * profile)
    (tos : list (string * profile)) (ret : gmap (string * string) extrinsics)
    (e : E) :
  to ∈ tos -> from.1 ≠ to.1 -> get_extrinsics_to from.2 to.2 = Throw e ->
  ∃ e', extrinsics_from get_extrinsics_to from tos ret = Throw e'.
Proof.
  intros Hin Hne Hthrow. revert ret.
  induction tos as [|to' tos IH]; intros ret.
  - now apply elem_of_nil in Hin.
  - cbn [extrinsics_from].
    apply elem_of_cons in Hin as [<-|Hin].
    + destruct (String.eqb_spec from.1 to.1); [contradiction|]. cbn [negb].
      rewrite Hthrow. eauto.
    + destruct (negb (String.eqb from.1 to'.1)); [|now apply IH].
      destruct (get_extrinsics_to from.2 to'.2); [now apply IH | eauto].
Qed.

Lemma extrinsics_each_throws (from to : string * profile)
    (froms tos : list (string * profile))
    (ret : gmap (string * string) extrinsics) (e : E) :
  from ∈ froms -> to ∈ tos -> from.1 ≠ to.1 ->
  get_extrinsics_to from.2 to.2 = Throw e ->
  ∃ e', extrinsics_each get_extrinsics_to froms tos ret = Throw e'.
Proof.
  intros Hfrom Hto Hne Hthrow. revert ret.
  induction froms as [|from' froms IH]; intros ret.
  - now apply elem_of_nil in Hfrom.
  - cbn [extrinsics_each]. apply elem_of_cons in Hfrom as [<-|Hfrom].
    + destruct (extrinsics_from_throws from to tos ret e Hto Hne Hthrow)
        as [e' ->]. eauto.
    + destruct (extrinsics_from _ _ _ _); [now apply IH | eauto].
Qed.

(** X21: [get_extrinsics_map] throws, and returns no partial map, when
    [get_extrinsics_to] throws between the first profiles of two
    distinct streams of the device. *)
Theorem extrinsics_map_throws (sensors : list (list profile))
    (a b : string) (pa pb : profile) (e : E) :
  a ≠ b ->
  first_of stream_name a (concat sensors) = Some pa ->
  first_of stream_name b (concat sensors) = Some pb ->
  get_extrinsics_to pa pb = Throw e ->
  ∃ e', get_extrinsics_map stream_name get_extrinsics_to sensors = Throw e'.
Proof.
  intros Hne Ha Hb Hthrow. unfold get_extrinsics_map.
  set (m := stream_name_to_rs2_stream_profile stream_name sensors).
  assert (Hin : ∀ a pa, first_of stream_name a (concat sensors) = Some pa ->
                        (a, pa) ∈ entries_in_order m).
  { intros a' pa' H. unfold entries_in_order. rewrite merge_sort_Permutation.
    rewrite elem_of_map_to_list. unfold m.
    now rewrite first_profile_is_taken. }
  apply Hin in Ha, Hb.
  exact (extrinsics_each_throws (a, pa) (b, pb) _ _ ∅ e Ha Hb Hne Hthrow).
Qed.

End Facts.

Lemma extrinsics_between_first_profiles_sample :
  (∀ a b : nat, sample_extrinsics a b = Ok (a, b))
  ∧ ∃ ret,
      get_extrinsics_map sample_stream_name sample_extrinsics [[0; 1]; [2; 3]]
      = Ok ret
      ∧ ∀ a b e,
          ret !! (a, b) = Some e
          <-> a ≠ b
              ∧ ∃ pa pb,
                  first_of sample_stream_name a (concat [[0; 1]; [2; 3]]) = Some pa
                  ∧ first_of sample_stream_name b (concat [[0; 1]; [2; 3]]) = Some pb
                  ∧ e = (pa, pb).
Proof.
  split; [reflexivity|].
  apply (extrinsics_between_first_profiles sample_stream_name sample_extrinsics
           (fun a b => (a, b))).
  reflexivity.
Defined.

Lemma extrinsics_map_throws_sample :
  "Depth" ≠ "Color"
  ∧ first_of sample_stream_name "Depth" (concat [[0; 1]; [2; 3]]) = Some 0
  ∧ first_of sample_stream_name "Color" (concat [[0; 1]; [2; 3]]) = Some 2
  ∧ ∃ e',
      get_extrinsics_map (extrinsics := nat * nat) sample_stream_name
        (fun a b => if Nat.eqb b 2 then Throw tt else Ok (a, b))
        [[0; 1]; [2; 3]] = Throw e'.
Proof.
  split; [discriminate|]. split; [reflexivity|]. split; [reflexivity|].
  apply (extrinsics_map_throws sample_stream_name _ [[0; 1]; [2; 3]]
           "Depth" "Color" 0 2 tt);
    [discriminate | reflexivity | reflexivity | reflexivity].
Defined.

End ExtrinsicsFacts.

(** ** The calls of a successful [start_streaming] *)

Module BridgeCallsFacts.
Import Profiles Controller BridgeCalls.

Section Facts.
Context {json : Type}.
Variable create : string -> json -> result error dds_stream_profile.
Variable servers : gmap string (option dds_stream_server).
Variable open_accepted : string -> dds_stream_profile -> bool.
Variable commit_accepted : bool.

Lemma open_one_calls (it : string * json) (b b' : bridge) :
  open_one create (bridge_open open_accepted) servers it b = (Ok tt, b') ->
  ∃ c, b' = (b ++ [c])%list ∧ opens create servers it c.
Proof.
  unfold open_one, opens.
  destruct (servers !! it.1) as [[server|]|] eqn:Hserver; try discriminate.
  destruct (create _ _) as [requested|e] eqn:Hcreate; try discriminate.
  destruct (find_profile _ _ _) as [p|] eqn:Hfind; try discriminate.
  apply ProfileFacts.find_profile_Some in Hfind as [Hin Hc].
  unfold bridge_open. intros H. injection H as _ <-.
  eexists. split; [reflexivity|]. exists server, requested, p.
  split; [reflexivity|]. split; [exact Hcreate|]. split; [exact Hin|].
  split; [exact Hc | reflexivity].
Qed.

Lemma open_each_calls (items : list (string * json)) (b b' : bridge) :
  open_each create (bridge_open open_accepted) servers items b = (Ok tt, b') ->
  ∃ cs, b' = (b ++ cs)%list ∧ Forall2 (opens create servers) items cs.
Proof.
  revert b. induction items as [|it items IH]; intros b; cbn [open_each].
  - intros [= <-]. exists []. split; [now rewrite app_nil_r | constructor].
  - destruct (open_one _ _ _ it b) as [[[]|e] b1] eqn:E1; [|discriminate].
    apply open_one_calls in E1 as (c & -> & Hc).
    intros (cs & -> & Hcs)%IH. exists (c :: cs).
    split; [now rewrite <- app_assoc | now constructor].
Qed.

(** X22: a [start_streaming] that returns normally has made on the
    bridge, after the calls made before, exactly: [reset()] unless the
    message says [reset: false]; one [open] per item of
    [stream-profiles], in their order, each for a stream of the device
    and with a profile taken from that stream's own profiles, compatible
    with the requested one, format included; and [commit()] unless the
    message says [commit: false]. *)
Theorem start_streaming_calls (msg : open_streams) (b b' : bridge) :
  start_streaming create bridge_reset (bridge_open open_accepted)
    (bridge_commit commit_accepted) servers msg b = (Ok tt, b') ->
  ∃ cs,
    Forall2 (opens create servers) (stream_profiles msg) cs
    ∧ b' = (b ++ (if json_get_bool (reset msg) true then [reset_call] else [])
              ++ cs
              ++ (if json_get_bool (commit msg) true then [commit_call] else []))%list.
Proof.
  unfold start_streaming.
  destruct (open_each _ _ _ _ _) as [[[]|e] b1] eqn:E; [|discriminate].
  apply open_each_calls in E as (cs & -> & Hcs).
  intros Hcommit. exists cs. split; [exact Hcs|].
  destruct (json_get_bool (commit msg) true).
  - unfold bridge_commit in Hcommit. injection Hcommit as _ <-.
    destruct (json_get_bool (reset msg) true); unfold bridge_reset;
      now rewrite <- ?app_assoc.
  - injection Hcommit as <-. rewrite app_nil_r.
    destruct (json_get_bool (reset msg) true); unfold bridge_reset;
      now rewrite <- ?app_assoc.
Qed.

End Facts.

Lemma start_streaming_calls_depth :
  start_streaming sample_create bridge_reset (bridge_open (fun _ _ => true))
    (bridge_commit true) sample_servers sample_request []
  = (Ok tt, [reset_call;
             open_call "Depth" (dds_video_stream_profile 30 "Z16" 640 480);
             commit_call])
  ∧ ∃ cs,
      Forall2 (opens sample_create sample_servers)
              (stream_profiles sample_request) cs
      ∧ [reset_call;
         open_call "Depth" (dds_video_stream_profile 30 "Z16" 640 480);
         commit_call]
        = ([] ++ (if json_get_bool (reset sample_request) true
                  then [reset_call] else [])
              ++ cs
              ++ (if json_get_bool (commit sample_request) true
                  then [commit_call] else []))%list.
Proof.
  split; [vm_compute; reflexivity|].
  apply (start_streaming_calls sample_create sample_servers (fun _ _ => true) true).
  vm_compute. reflexivity.
Defined.

End BridgeCallsFacts.
